(** * nex node: machine manager and control API listener

    A shallow embedding of [internal/node/machine_mgr.go] and
    [internal/node/controlapi.go], followed by the properties of the
    handshake watchdog, the stop and deploy paths, the warm pool, the
    trigger router, manager shutdown and issuer validation. *)

From Stdlib Require Import ZArith String Ascii List Bool Lia.
From stdpp Require Import base option gmap list strings pretty.

Local Open Scope string_scope.
Local Open Scope Z_scope.
Local Open Scope list_scope.

(** ** Go prelude *)

Module Go.

(** [[]byte] *)
Definition Bytes := list Byte.byte.

(** A Go [error] value: what [err.Error()] prints, and whether
    [errors.Is(err, os.ErrDeadlineExceeded)] holds for it. *)
Record error := mkError { Error : string; IsDeadlineExceeded : bool }.

(** [errors.New] and [fmt.Errorf] without [%w] make a fresh error that
    wraps nothing. *)
Definition errors_New (msg : string) : error := mkError msg false.

(** The result of running a piece of Go code: it returns, or it panics
    (nil dereference, send on a closed channel, ...), or it waits on a
    lock or a channel that is not ready. *)
Inductive res (A : Type) : Type :=
| Ret (a : A)
| Panic (why : string)
| Blocked (on : string).
Arguments Ret {A} a.
Arguments Panic {A} why.
Arguments Blocked {A} on.

(** Code over a mutable store [S]: the store survives a panic. *)
Definition M (S A : Type) : Type := S -> S * res A.

Definition ret {S A} (a : A) : M S A := fun s => (s, Ret a).

Definition bind {S A B} (c : M S A) (k : A -> M S B) : M S B :=
  fun s =>
    match c s with
    | (s', Ret a) => k a s'
    | (s', Panic why) => (s', Panic why)
    | (s', Blocked on) => (s', Blocked on)
    end.

Definition panic {S A} (why : string) : M S A := fun s => (s, Panic why).
Definition block {S A} (on : string) : M S A := fun s => (s, Blocked on).
Definition get {S} : M S S := fun s => (s, Ret s).
Definition modify {S} (f : S -> S) : M S unit := fun s => (f s, Ret tt).

(** [*p] for a pointer field read as an [option]. *)
Definition deref {S A} (p : option A) : M S A :=
  match p with
  | Some a => ret a
  | None => panic "invalid memory address or nil pointer dereference"
  end.

(** [for _, x := range xs { body }] where the body may ask to return
    from the enclosing function ([Some r]). *)
Fixpoint for_range {S A R} (xs : list A) (body : A -> M S (option R))
  : M S (option R) :=
  match xs with
  | [] => ret None
  | x :: rest =>
      bind (body x) (fun r =>
        match r with
        | Some v => ret (Some v)
        | None => for_range rest body
        end)
  end.

(** Two's complement [int64] and [uint32] arithmetic. *)
Definition wrap64 (z : Z) : Z := (z + 2 ^ 63) mod 2 ^ 64 - 2 ^ 63.
Definition wrapu32 (z : Z) : Z := z mod 2 ^ 32.

(** [strings.HasPrefix] *)
Fixpoint HasPrefix (s p : string) : bool :=
  match p, s with
  | EmptyString, _ => true
  | String a p', String b s' => if Ascii.eqb a b then HasPrefix s' p' else false
  | String _ _, EmptyString => false
  end.

(** [strings.Contains] *)
Fixpoint Contains (s substr : string) : bool :=
  if HasPrefix s substr then true
  else match s with
       | EmptyString => false
       | String _ s' => Contains s' substr
       end.

(** [strings.Split(s, sep)] for a separator of one character. *)
Fixpoint Split (s : string) (sep : ascii) : list string :=
  match s with
  | EmptyString => [EmptyString]
  | String c s' =>
      if Ascii.eqb c sep then EmptyString :: Split s' sep
      else match Split s' sep with
           | [] => [String c EmptyString]
           | tok :: toks => String c tok :: toks
           end
  end.

(** [slices.Contains] *)
Fixpoint slices_Contains (s : list string) (v : string) : bool :=
  match s with
  | [] => false
  | x :: rest => if String.eqb v x then true else slices_Contains rest v
  end.

(** A buffered channel [make(chan A, cap)]. *)
Record chan (A : Type) : Type :=
  mkChan { ch_buf : list A; ch_cap : nat; ch_closed : bool }.
Arguments mkChan {A} ch_buf ch_cap ch_closed.
Arguments ch_buf {A} c.
Arguments ch_cap {A} c.
Arguments ch_closed {A} c.

(** [make(chan A, n)] panics for a negative size. *)
Definition make_chan {A} (n : Z) : res (chan A) :=
  if n <? 0 then Panic "makechan: size out of range"
  else Ret (mkChan [] (Z.to_nat n) false).

(** [len(ch)] *)
Definition chan_len {A} (c : chan A) : Z := Z.of_nat (length (ch_buf c)).

(** [ch <- x]: panics on a closed channel, waits when the buffer is
    full, appends to the buffer otherwise. *)
Definition chan_send {A} (c : chan A) (x : A) : res (chan A) :=
  if ch_closed c then Panic "send on closed channel"
  else if (length (ch_buf c) <? ch_cap c)%nat
       then Ret (mkChan (ch_buf c ++ [x]) (ch_cap c) false)
       else Blocked "chan send".

(** [x, ok := <-ch]: the oldest buffered value; on an empty buffer the
    zero value with [ok = false] once closed, and a wait otherwise. *)
Definition chan_recv {A} (c : chan A) : res (option A * chan A) :=
  match ch_buf c with
  | x :: rest => Ret (Some x, mkChan rest (ch_cap c) (ch_closed c))
  | [] => if ch_closed c then Ret (None, c) else Blocked "chan receive"
  end.

(** [close(ch)] panics on a channel already closed. *)
Definition chan_close {A} (c : chan A) : res (chan A) :=
  if ch_closed c then Panic "close of closed channel"
  else Ret (mkChan (ch_buf c) (ch_cap c) true).

End Go.

Import Go.

(** The monad operations under stdpp's notations
    ([x ← c; k] and [c;; k]). *)
#[global] Instance M_ret {S} : MRet (M S) := fun _ a => ret a.
#[global] Instance M_bind {S} : MBind (M S) := fun _ _ k c => bind c k.

(** ** controlapi.go: issuer allow-list and subject namespace *)

Definition validateIssuer (issuer : string) (validIssuers : list string) : bool :=
  if (length validIssuers =? 0)%nat then true
  else slices_Contains validIssuers issuer.

(** [extractNamespace]: the third dot-separated token of the subject. *)
Definition extractNamespace (subject : string) : string + error :=
  let tokens := Split subject "."%char in
  if (length tokens <? 3)%nat
  then inr (errors_New "Invalid subject - could not detect a namespace")
  else match tokens !! 2%nat with
       | Some ns => inl ns
       | None => inr (errors_New "index out of range")
       end.


(** ** Data model *)

(** [agentapi]: the messages exchanged with the agent in the guest.
    Pointer fields ([*string]) are options; [None] is the nil pointer. *)
Module agentapi.

Record DeployRequest := mkDeployRequest {
  Namespace : option string;
  WorkloadType : option string;
  WorkloadName : option string;
  TriggerSubjects : list string;
  TotalBytes : Z
}.

Record DeployResponse := mkDeployResponse {
  Accepted : bool;
  Message : option string
}.

Record HandshakeRequest := mkHandshakeRequest {
  MachineID : option string;
  hs_Message : option string
}.

End agentapi.

Import agentapi.

(** [nats.Header] is a [map[string][]string]; a message whose header map
    is nil has [None]. *)
Abbreviation Header := (gmap string (list string)).

(** [Header.Add(key, value)] appends to the values of the key. *)
Definition Header_Add (h : Header) (key value : string) : Header :=
  <[key := default [] (h !! key) ++ [value]]> h.

(** [Header.Get(key)]: the first value of the key, or the empty string. *)
Definition Header_Get (h : Header) (key : string) : string :=
  match h !! key with
  | Some (v :: _) => v
  | _ => ""
  end.

(** [nats.Msg] *)
Record Msg := mkMsg {
  Subject : string;
  Reply : string;
  Header_of : option Header;
  Data : Bytes
}.

(** [nats.NewMsg(subject)]: an empty header map and no payload. *)
Definition NewMsg (subject : string) : Msg := mkMsg subject "" (Some ∅) [].

(** [nats.Subscription], as far as the manager looks at it. *)
Record Subscription := mkSub { sub_Subject : string }.

(** [controlapi]: the stop request of the control plane and the envelope
    every response travels in.  A failure envelope carries empty data and
    the reason; the stop response carries [StopResponse]. *)
Record StopRequest := mkStopRequest { WorkloadId : string }.

Record StopResponse := mkStopResponse {
  Stopped : bool;
  resp_Name : string;
  resp_Issuer : string;
  resp_MachineId : string
}.

Inductive Payload :=
| EmptyBytes
| StopPayload (r : StopResponse).

Record Envelope := mkEnvelope {
  PayloadType : string;
  env_Data : Payload;
  env_Error : option string
}.

(** [controlapi.NewEnvelope] *)
Definition NewEnvelope (dataType : string) (data : Payload) (err : option string)
  : Envelope := mkEnvelope dataType data err.

(** [trace.SpanContext], as far as a propagator reads it. *)
Record SpanContext := mkSpan { TraceID : string; SpanID : string }.

(** [time.Duration] counts nanoseconds. *)
Definition Millisecond : Z := 1000000.
Definition Second : Z := 1000 * Millisecond.

(** The decoded claims of the workload ([controlapi.go] reads the subject
    and the issuer). *)
Record Claims := mkClaims { claims_Subject : string; claims_Issuer : string }.

(** [runningFirecracker]: the fields the manager and the listener read or
    write.  [VcpuCount] and [MemSizeMib] stand for
    [machine.Cfg.MachineCfg.VcpuCount] and [.MemSizeMib] ([*int64]). *)
Record runningFirecracker := mkVM {
  vmmID : string;
  ip : string;
  namespace : string;
  deployRequest : option DeployRequest;
  workloadStarted : Z;
  VcpuCount : option Z;
  MemSizeMib : option Z;
  DecodedClaims : Claims
}.

Record NodeConfiguration := mkConfig {
  MachinePoolSize : Z;
  PreserveNetwork : bool;
  ValidIssuers : list string;
  WorkloadTypes : list string
}.

(** Pointers to VM records are addresses ([nat]) into a store of records:
    the registry, the pool and the callers share the records they point
    to. *)

Inductive Conn := nc | ncInternal.
Inductive Level := LDebug | LInfo | LWarn | LError.

(** The instruments of [Telemetry] that the manager adds to. *)
Inductive Instrument :=
| vmCounter | workloadCounter | deployedByteCounter
| allocatedVCPUCounter | allocatedMemoryCounter
| functionTriggers | functionFailedTriggers | functionRunTimeNano.

#[global] Instance Instrument_eq_dec : EqDecision Instrument.
Proof. solve_decision. Defined.

(** One [Add] on an instrument.  The attribute set is the merge of the
    [metric.WithAttributes] options of the call. *)
Record Measurement := mkMeasure {
  instr : Instrument;
  delta : Z;
  attrs : gmap string string
}.

(** Several [metric.WithAttributes] options of one call are merged into
    one attribute set; a later option wins on a shared key. *)
Definition merge_attrs (opts : list (list (string * string))) : gmap string string :=
  foldl (fun acc o => list_to_map o ∪ acc) ∅ opts.

(** The value of an instrument under an attribute set: the sum of what
    was added under exactly that set. *)
Definition counter_value (i : Instrument) (a : gmap string string)
    (ms : list Measurement) : Z :=
  foldr (fun m acc =>
           if decide (instr m = i ∧ attrs m = a) then delta m + acc else acc)
        0 ms.

(** What the manager does to its collaborators (logger, message bus,
    hypervisor driver, event publisher, cancel function, tracer), in the
    order it does it. *)
Inductive Event :=
| EvLog (lvl : Level) (msg : string) (fields : list (string * string))
| EvRequest (c : Conn) (m : Msg) (timeout : Z)
| EvSubscribe (c : Conn) (subject : string)
| EvDrain (s : Subscription)
| EvRespond (to : Msg) (data : Bytes)
| EvReply (to : Msg) (e : Envelope)
| EvShutdown (vmid : string)
| EvMachineStopped (vmid : string)
| EvFunctionExecFailed (vmid workload tsub : string) (err : error)
| EvFunctionExecSucceeded (vmid tsub : string) (runtime_ns : Z)
| EvGo (fn arg : string)
| EvSleep (d : Z)
| EvCancel
| EvSpanStart (name : string) (root : bool) (fields : list (string * string))
| EvSpanEnd (name : string)
| EvSpanEvent (what : string)
| EvSpanStatus (ok : bool) (what : string)
| EvSpanError (err : error).

(** The process surroundings [cleanSockets] works on: for every directory
    (absolute path) the names of its entries, the working directory, the
    value of [os.TempDir()] and the process id. *)
Record OS := mkOS {
  fs : gmap string (list string);
  cwd : string;
  TempDir : string;
  Getpid : Z
}.

(** The manager ([MachineManager]) with what surrounds it: the VM records
    behind the pointers, the telemetry and the calls made so far. *)
Record World := mkWorld {
  closing : Z;
  config : NodeConfiguration;
  allVMs : gmap string nat;
  warmVMs : chan nat;
  handshakes : gmap string string;
  handshakeTimeout : Z;
  stopMutex : gmap string bool;
  vmsubz : gmap string (list Subscription);
  heap : gmap nat runningFirecracker;
  metrics : list Measurement;
  trace : list Event;
  os : OS
}.

Definition set_closing (f : Z -> Z) (w : World) : World :=
  mkWorld (f (closing w)) (config w) (allVMs w) (warmVMs w) (handshakes w)
    (handshakeTimeout w) (stopMutex w) (vmsubz w) (heap w) (metrics w)
    (trace w) (os w).
Definition set_allVMs (f : gmap string nat -> gmap string nat) (w : World) : World :=
  mkWorld (closing w) (config w) (f (allVMs w)) (warmVMs w) (handshakes w)
    (handshakeTimeout w) (stopMutex w) (vmsubz w) (heap w) (metrics w)
    (trace w) (os w).
Definition set_warmVMs (f : chan nat -> chan nat) (w : World) : World :=
  mkWorld (closing w) (config w) (allVMs w) (f (warmVMs w)) (handshakes w)
    (handshakeTimeout w) (stopMutex w) (vmsubz w) (heap w) (metrics w)
    (trace w) (os w).
Definition set_handshakes (f : gmap string string -> gmap string string)
    (w : World) : World :=
  mkWorld (closing w) (config w) (allVMs w) (warmVMs w) (f (handshakes w))
    (handshakeTimeout w) (stopMutex w) (vmsubz w) (heap w) (metrics w)
    (trace w) (os w).
Definition set_stopMutex (f : gmap string bool -> gmap string bool)
    (w : World) : World :=
  mkWorld (closing w) (config w) (allVMs w) (warmVMs w) (handshakes w)
    (handshakeTimeout w) (f (stopMutex w)) (vmsubz w) (heap w) (metrics w)
    (trace w) (os w).
Definition set_vmsubz
    (f : gmap string (list Subscription) -> gmap string (list Subscription))
    (w : World) : World :=
  mkWorld (closing w) (config w) (allVMs w) (warmVMs w) (handshakes w)
    (handshakeTimeout w) (stopMutex w) (f (vmsubz w)) (heap w) (metrics w)
    (trace w) (os w).
Definition set_heap
    (f : gmap nat runningFirecracker -> gmap nat runningFirecracker)
    (w : World) : World :=
  mkWorld (closing w) (config w) (allVMs w) (warmVMs w) (handshakes w)
    (handshakeTimeout w) (stopMutex w) (vmsubz w) (f (heap w)) (metrics w)
    (trace w) (os w).
Definition set_metrics (f : list Measurement -> list Measurement)
    (w : World) : World :=
  mkWorld (closing w) (config w) (allVMs w) (warmVMs w) (handshakes w)
    (handshakeTimeout w) (stopMutex w) (vmsubz w) (heap w) (f (metrics w))
    (trace w) (os w).
Definition set_trace (f : list Event -> list Event) (w : World) : World :=
  mkWorld (closing w) (config w) (allVMs w) (warmVMs w) (handshakes w)
    (handshakeTimeout w) (stopMutex w) (vmsubz w) (heap w) (metrics w)
    (f (trace w)) (os w).
Definition set_os (f : OS -> OS) (w : World) : World :=
  mkWorld (closing w) (config w) (allVMs w) (warmVMs w) (handshakes w)
    (handshakeTimeout w) (stopMutex w) (vmsubz w) (heap w) (metrics w)
    (trace w) (f (os w)).

(** ** Calls on the collaborators *)

Definition emit (e : Event) : M World unit :=
  modify (set_trace (fun t => t ++ [e])).

Definition log (lvl : Level) (msg : string) (fields : list (string * string))
  : M World unit := emit (EvLog lvl msg fields).

(** [counter.Add(ctx, n, opts...)] *)
Definition counter_Add (i : Instrument) (n : Z) (opts : list (list (string * string)))
  : M World unit :=
  modify (set_metrics (fun ms => ms ++ [mkMeasure i n (merge_attrs opts)])).

(** A read through a VM pointer. *)
Definition load (p : nat) : M World runningFirecracker :=
  w ← get; deref (heap w !! p).

(** A write through a VM pointer. *)
Definition store (p : nat) (f : runningFirecracker -> runningFirecracker)
  : M World unit :=
  vm ← load p; modify (set_heap (<[p := f vm]>)).

(** [defer cleanup()]: the cleanup runs when the body returns or panics. *)
Definition defer {A} (cleanup : World -> World) (body : M World A) : M World A :=
  fun w =>
    match body w with
    | (w', Blocked on) => (w', Blocked on)
    | (w', r) => (cleanup w', r)
    end.

Definition bool_str (b : bool) : string := if b then "true" else "false".

Definition nexTriggerSubject : string := "x-nex-trigger-subject".
Definition nexRuntimeNs : string := "x-nex-runtime-ns".
Definition defaultHandshakeTimeoutMillis : Z := 5000.

(** What the manager's collaborators answer.  None of them is among the
    sources: the JSON codec, the NATS connections, the [agentapi]
    predicates, the tracer and its propagator are taken as they come. *)
Record Env := mkEnv {
  (** [request.SupportsTriggerSubjects()] *)
  SupportsTriggerSubjects : DeployRequest -> bool;
  (** [json.Marshal(request)] *)
  json_Marshal_DeployRequest : DeployRequest -> Bytes + error;
  (** [json.Unmarshal(resp.Data, &deployResponse)] *)
  json_Unmarshal_DeployResponse : Bytes -> DeployResponse + error;
  (** [json.Unmarshal(msg.Data, &req)]: the struct as far as it was
      filled, and the error if there was one *)
  json_Unmarshal_HandshakeRequest : Bytes -> HandshakeRequest * option error;
  (** [json.Marshal(&agentapi.HandshakeResponse{})] *)
  json_Marshal_HandshakeResponse : Bytes;
  (** [m.ncInternal.Status().String()] *)
  ncInternal_Status : string;
  (** [conn.Request] and [conn.RequestMsg]: the reply or the error *)
  Request : Conn -> Msg -> Z -> Msg + error;
  (** [conn.Subscribe(subject, handler)] *)
  Subscribe : Conn -> string -> option error;
  (** [sub.Drain()] *)
  Drain : Subscription -> option error;
  (** [msg.Respond(data)] *)
  Respond : Msg -> Bytes -> option error;
  (** [tracer.Start(ctx, name, ...)]: the span context of the new span,
      from the parent's (none for a new root) and the span name *)
  tracer_Start : option SpanContext -> string -> SpanContext;
  (** the header fields that [otel.GetTextMapPropagator().Inject] sets on
      its carrier for a span context, keys as [HeaderCarrier.Set]
      canonicalises them *)
  Inject : SpanContext -> list (string * string);
  (** [strconv.ParseInt(s, 10, 64)] *)
  ParseInt : string -> Z * option error;
  (** [config.Validate()] *)
  Validate : NodeConfiguration -> bool;
  (** [m.hostServices.init()] *)
  hostServices_init : option error;
  (** [agentapi.DefaultRunloopSleepTimeoutMillis] and
      [runloopSleepInterval] *)
  DefaultRunloopSleepTimeoutMillis : Z;
  runloopSleepInterval : Z;
  (** [json.Unmarshal(m.Data, &request)] of the stop handler *)
  json_Unmarshal_StopRequest : Bytes -> StopRequest + error;
  (** [request.Validate(&claims)] of the stop handler *)
  StopRequest_Validate : StopRequest -> Claims -> option error;
  (** [controlapi.StopResponseType] *)
  StopResponseType : string
}.

Definition for_each {S A} (xs : list A) (body : A -> M S unit) : M S unit :=
  for_range (R := Empty_set) xs (fun x => body x;; mret None);; mret tt.

Definition set_deployRequest (r : option DeployRequest) (vm : runningFirecracker) :=
  mkVM (vmmID vm) (ip vm) (namespace vm) r (workloadStarted vm)
    (VcpuCount vm) (MemSizeMib vm) (DecodedClaims vm).
Definition set_namespace (ns : string) (vm : runningFirecracker) :=
  mkVM (vmmID vm) (ip vm) ns (deployRequest vm) (workloadStarted vm)
    (VcpuCount vm) (MemSizeMib vm) (DecodedClaims vm).
Definition set_workloadStarted (t : Z) (vm : runningFirecracker) :=
  mkVM (vmmID vm) (ip vm) (namespace vm) (deployRequest vm) t
    (VcpuCount vm) (MemSizeMib vm) (DecodedClaims vm).

(** ** Files

    [path.Join(elems...)] joins the non-empty elements with a slash and
    cleans the result.  The names that [os.ReadDir] returns are single
    path components other than [.] and [..], on which cleaning changes
    nothing. *)
Fixpoint path_Join (elems : list string) : string :=
  match elems with
  | [] => ""
  | e :: rest =>
      if String.eqb e "" then path_Join rest
      else match path_Join rest with
           | EmptyString => e
           | tail => e +:+ "/" +:+ tail
           end
  end.

(** The directory part (if the path has a slash) and the last component
    of a path. *)
Fixpoint path_split (path : string) : option string * string :=
  match path with
  | EmptyString => (None, "")
  | String c rest =>
      match path_split rest with
      | (Some d, base) => (Some (String c d), base)
      | (None, base) =>
          if Ascii.eqb c "/"%char then (Some "", base) else (None, String c base)
      end
  end.

(** The absolute directory a directory part names: a relative one is
    resolved against the working directory. *)
Definition resolve_dir (o : OS) (dir : option string) : string :=
  match dir with
  | None => cwd o
  | Some d =>
      if HasPrefix d "/" then d
      else if String.eqb d "" then "/"
      else if String.eqb (cwd o) "/" then "/" +:+ d
      else cwd o +:+ "/" +:+ d
  end.

(** [os.ReadDir(dir)]: the entry names, and an error for a directory
    that cannot be read. *)
Definition ReadDir (o : OS) (dir : string) : list string * option error :=
  match fs o !! dir with
  | Some names => (names, None)
  | None => ([], Some (errors_New ("open " +:+ dir +:+ ": no such file or directory")))
  end.

(** [os.Remove(name)] of a file that the process may remove: the entry
    is unlinked from its directory.  A missing entry is an error, which
    [cleanSockets] does not look at.  That the system refuses (a
    directory that is not empty, a file the process may not remove) is
    not modelled; what is proved of [cleanSockets] below is about what
    stays, and holds all the more when a removal is refused. *)
Definition os_Remove (name : string) (o : OS) : OS :=
  let '(dir, base) := path_split name in
  mkOS (alter (filter (fun n => n ≠ base)) (resolve_dir o dir) (fs o))
       (cwd o) (TempDir o) (Getpid o).

(** ** machine_mgr.go *)

Section Manager.

Context (E : Env).

(** [mutex := m.stopMutex[vmID]; mutex.Lock()]: a missing entry is a nil
    [*sync.Mutex]. *)
Definition mutex_Lock (vmID : string) : M World unit :=
  w ← get;
  match stopMutex w !! vmID with
  | None => panic "invalid memory address or nil pointer dereference"
  | Some true => block "sync.Mutex.Lock"
  | Some false => modify (set_stopMutex (<[vmID := true]>))
  end.

Definition mutex_Unlock (vmID : string) : World -> World :=
  set_stopMutex (alter (fun _ => false) vmID).

(** [sub.Drain()] on one subscription of the VM, with its log lines. *)
Definition drain_one (vmID : string) (sub : Subscription) : M World unit :=
  emit (EvDrain sub);;
  match Drain E sub with
  | Some err =>
      log LWarn ("failed to drain subscription to subject " +:+ sub_Subject sub
                 +:+ " associated with vm " +:+ vmID +:+ ": " +:+ Error err) []
  | None => mret tt
  end;;
  log LDebug ("drained subscription to subject " +:+ sub_Subject sub
              +:+ " associated with vm " +:+ vmID) [].

(** The graceful undeploy request of [StopMachine]; its failure is only
    logged. *)
Definition request_undeploy (vm : runningFirecracker) : M World unit :=
  let req := mkMsg ("agentint." +:+ vmmID vm +:+ ".undeploy") "" None [] in
  emit (EvRequest ncInternal req (500 * Millisecond));;
  match Request E ncInternal req (500 * Millisecond) with
  | inr err =>
      log LWarn "request to undeploy workload via internal NATS connection failed"
        [("vmid", vmmID vm); ("error", Error err)]
  | inl _ => mret tt
  end.

(** [m.stopping()] *)
Definition stopping (w : World) : bool := closing w >? 0.

Definition StopMachine (vmID : string) (undeploy : bool) : M World (option error) :=
  w ← get;
  match allVMs w !! vmID with
  | None => mret (Some (errors_New ("failed to stop machine " +:+ vmID)))
  | Some p =>
      mutex_Lock vmID;;
      defer (mutex_Unlock vmID) (
        log LDebug "Attempting to stop virtual machine"
          [("vmid", vmID); ("undeploy", bool_str undeploy)];;
        w ← get;
        for_each (default [] (vmsubz w !! vmID)) (drain_one vmID);;
        vm ← load p;
        (if bool_decide (deployRequest vm ≠ None) && undeploy
         then request_undeploy vm else mret tt);;
        emit (EvShutdown (vmmID vm));;
        modify (set_allVMs (delete vmID));;
        modify (set_stopMutex (delete vmID));;
        modify (set_vmsubz (delete vmID));;
        emit (EvMachineStopped (vmmID vm));;
        match deployRequest vm with
        | Some req =>
            wt ← deref (WorkloadType req);
            counter_Add workloadCounter (-1) [[("workload_type", wt)]];;
            counter_Add workloadCounter (-1)
              [[("workload_type", wt)]; [("namespace", namespace vm)]];;
            counter_Add deployedByteCounter (wrap64 (TotalBytes req * -1)) [];;
            counter_Add deployedByteCounter (wrap64 (TotalBytes req * -1))
              [[("namespace", namespace vm)]]
        | None => mret tt
        end;;
        counter_Add vmCounter (-1) [];;
        vcpu ← deref (VcpuCount vm);
        counter_Add allocatedVCPUCounter (wrap64 (vcpu * -1)) [];;
        counter_Add allocatedVCPUCounter (wrap64 (vcpu * -1)) [[("namespace", namespace vm)]];;
        mem ← deref (MemSizeMib vm);
        counter_Add allocatedMemoryCounter (wrap64 (mem * -1)) [];;
        counter_Add allocatedMemoryCounter (wrap64 (mem * -1)) [[("namespace", namespace vm)]];;
        mret None)
  end.

(** [LookupMachine]: the pointer registered under the id, nil if none. *)
Definition LookupMachine (w : World) (vmId : string) : option nat :=
  allVMs w !! vmId.

(** One round of the subscription loop of [DeployWorkload]: [Some err]
    leaves the function with [err]. *)
Definition subscribe_one (vmid : string) (request : DeployRequest)
    (tsub : string) : M World (option error) :=
  emit (EvSubscribe nc tsub);;
  match Subscribe E nc tsub with
  | Some err =>
      wt ← deref (WorkloadType request);
      log LError "Failed to create trigger subject subscription for deployed workload"
        [("vmid", vmid); ("trigger_subject", tsub); ("workload_type", wt);
         ("err", Error err)];;
      StopMachine vmid true;;
      mret (Some err)
  | None =>
      wt ← deref (WorkloadType request);
      log LInfo "Created trigger subject subscription for deployed workload"
        [("vmid", vmid); ("trigger_subject", tsub); ("workload_type", wt)];;
      modify (set_vmsubz (fun s =>
        <[vmid := default [] (s !! vmid) ++ [mkSub tsub]]> s));;
      mret None
  end.

(** The telemetry of a deployment that went through. *)
Definition deploy_counters (p : nat) (request : DeployRequest) : M World unit :=
  vm ← load p;
  req ← deref (deployRequest vm);
  wt ← deref (WorkloadType req);
  counter_Add workloadCounter 1 [[("workload_type", wt)]];;
  counter_Add workloadCounter 1 [[("namespace", namespace vm)]; [("workload_type", wt)]];;
  counter_Add deployedByteCounter (TotalBytes request) [];;
  counter_Add deployedByteCounter (TotalBytes request) [[("namespace", namespace vm)]];;
  vcpu ← deref (VcpuCount vm);
  counter_Add allocatedVCPUCounter vcpu [];;
  counter_Add allocatedVCPUCounter vcpu [[("namespace", namespace vm)]];;
  mem ← deref (MemSizeMib vm);
  counter_Add allocatedMemoryCounter mem [];;
  counter_Add allocatedMemoryCounter mem [[("namespace", namespace vm)]].

(** The second half of [DeployWorkload], from the answer to the deploy
    request on: the error checks, the decoding of the reply, the
    trigger subscriptions or the stop, and the telemetry. *)
Definition interpret_reply (p : nat) (vmid : string) (request : DeployRequest)
    (answer : Msg + error) : M World (option error) :=
  match answer with
  | inr err =>
      if IsDeadlineExceeded err
      then mret (Some (errors_New
             "timed out waiting for acknowledgement of workload deployment"))
      else mret (Some (errors_New
             ("failed to submit request for workload deployment: " +:+ Error err)))
  | inl resp =>
      match json_Unmarshal_DeployResponse E (Data resp) with
      | inr err => mret (Some err)
      | inl deployResponse =>
          r ← (if Accepted deployResponse
               then if SupportsTriggerSubjects E request
                    then for_range (TriggerSubjects request)
                           (subscribe_one vmid request)
                    else mret None
               else StopMachine vmid false;;
                    msg ← deref (Message deployResponse);
                    mret (Some (errors_New
                           ("workload rejected by agent: " +:+ msg))));
          match r with
          | Some err => mret (Some err)
          | None => deploy_counters p request;; mret None
          end
      end
  end.

(** [DeployWorkload(vm, request)]; [now] is [time.Now().UTC()].  The
    first half binds the request to the VM record and sends it to the
    agent. *)
Definition DeployWorkload (p : nat) (request : DeployRequest) (now : Z)
  : M World (option error) :=
  match json_Marshal_DeployRequest E request with
  | inr err => mret (Some err)
  | inl bytes =>
      vm0 ← load p;
      let vmid := vmmID vm0 in
      log LDebug "NATS internal connection status"
        [("vmid", vmid); ("status", ncInternal_Status E)];;
      store p (set_deployRequest (Some request));;
      ns ← deref (Namespace request);
      store p (set_namespace ns);;
      store p (set_workloadStarted now);;
      let req := mkMsg ("agentint." +:+ vmid +:+ ".deploy") "" None bytes in
      emit (EvRequest ncInternal req (1 * Second));;
      interpret_reply p vmid request (Request E ncInternal req (1 * Second))
  end.

(** *** The handshake watchdog

    [awaitHandshake] polls manager state that other goroutines write.
    Each pass of its loop sees the clock and the manager as they are at
    that moment: [obs] lists what the successive passes see.  The
    result is what the watchdog itself does (log lines, sleeps, the
    cancel) and whether it has returned within these passes. *)
Inductive Watch := Returned | Polling.

Fixpoint awaitHandshake_loop (timeoutAt : Z) (vmid : string)
    (handshakeOk : bool) (obs : list (Z * World)) : list Event * Watch :=
  if handshakeOk then ([], Returned)
  else match obs with
       | [] => ([], Polling)
       | (now, w) :: rest =>
           if stopping w then ([], Returned)
           else if now >? timeoutAt then
             (EvLog LError "Did not receive NATS handshake from agent within timeout."
                [("vmid", vmid)]
              :: (if (size (handshakes w) =? 0)%nat
                  then [EvLog LError
                          "First handshake failed, shutting down to avoid inconsistent behavior" [];
                        EvCancel]
                  else []),
              Returned)
           else
             let ok := bool_decide (is_Some (handshakes w !! vmid)) in
             let '(evs, st) := awaitHandshake_loop timeoutAt vmid ok rest in
             (EvSleep (Millisecond * DefaultRunloopSleepTimeoutMillis E) :: evs, st)
       end.

(** [start] is the clock when the watchdog starts and [timeout] the
    manager's [handshakeTimeout]. *)
Definition awaitHandshake (timeout start : Z) (vmid : string)
    (obs : list (Z * World)) : list Event * Watch :=
  awaitHandshake_loop (start + timeout) vmid false obs.

(** *** The handshake receiver; [now] is
    [time.Now().UTC().Format(time.RFC3339)]. *)
Definition handleHandshake (msg : Msg) (now : string) : M World unit :=
  let '(req, err) := json_Unmarshal_HandshakeRequest E (Data msg) in
  match err with
  | Some _ =>
      id ← deref (MachineID req);
      text ← deref (hs_Message req);
      log LError "Failed to handle agent handshake" [("vmid", id); ("message", text)]
  | None =>
      id ← deref (MachineID req);
      text ← deref (hs_Message req);
      log LInfo "Received agent handshake" [("vmid", id); ("message", text)];;
      w ← get;
      match allVMs w !! id with
      | None =>
          log LWarn "Received agent handshake attempt from a VM we don't know about." []
      | Some _ =>
          let resp := json_Marshal_HandshakeResponse E in
          emit (EvRespond msg resp);;
          match Respond E msg resp with
          | Some err =>
              log LError "Failed to reply to agent handshake" [("err", Error err)]
          | None => modify (set_handshakes (<[id := now]>))
          end
      end
  end.

(** *** Manager shutdown *)

(** Remove firecracker VM sockets created by this pid. *)
Definition cleanSockets : M World unit :=
  w ← get;
  let '(dir, err) := ReadDir (os w) (TempDir (os w)) in
  match err with
  | Some e => log LError "Failed to read temp directory" [("err", Error e)]
  | None => mret tt
  end;;
  for_each dir (fun d =>
    w ← get;
    if Contains d (".firecracker.sock-" +:+ pretty (Getpid (os w)) +:+ "-")
    then modify (set_os (os_Remove (path_Join ["tmp"; d])))
    else mret tt).

(** [close(m.warmVMs)] *)
Definition close_pool : M World unit :=
  w ← get;
  match chan_close (warmVMs w) with
  | Ret c => modify (set_warmVMs (fun _ => c))
  | Panic why => panic why
  | Blocked on => block on
  end.

(** [Stop]: the body runs for the caller that moves [closing] from 0 to
    1.  The registry is walked in the order of its keys (Go leaves the
    order open); stopping a VM deletes only the key being visited. *)
Definition Stop : M World (option error) :=
  modify (set_closing (fun c => wrapu32 (c + 1)));;
  w ← get;
  (if closing w =? 1 then
     log LInfo "Virtual machine manager stopping" [];;
     close_pool;;
     for_each (map fst (map_to_list (allVMs w))) (fun vmID =>
       err ← StopMachine vmID true;
       match err with
       | Some e => log LWarn "Failed to stop VM" [("vmid", vmID); ("error", Error e)]
       | None => mret tt
       end);;
     cleanSockets
   else mret tt);;
  mret None.

(** *** The pool maintainer *)

(** [m.warmVMs <- vm] *)
Definition pool_send (p : nat) : M World unit :=
  w ← get;
  match chan_send (warmVMs w) p with
  | Ret c => modify (set_warmVMs (fun _ => c))
  | Panic why => panic why
  | Blocked on => block on
  end.

(** A consumer's receive [<-m.warmVMs]. *)
Definition pool_receive : M World (option nat) :=
  w ← get;
  match chan_recv (warmVMs w) with
  | Ret (x, c) => modify (set_warmVMs (fun _ => c));; mret x
  | Panic why => panic why
  | Blocked on => block on
  end.

(** What one pass of the loop of [Start] meets: whether the context is
    done, and what the driver would answer to [createAndStartVM] and to
    [setMetadata]. *)
Record Round := mkRound {
  ctx_done : bool;
  created : runningFirecracker + error;
  metadata : option error
}.

Inductive Next := Leave | Again.

(** One pass of [for !m.stopping() { select ... }]. *)
Definition Start_round (r : Round) : M World Next :=
  w ← get;
  if stopping w then mret Leave
  else if ctx_done r then mret Leave
  else if chan_len (warmVMs w) =? MachinePoolSize (config w) then
    emit (EvSleep (runloopSleepInterval E));; mret Again
  else match created r with
       | inr err =>
           log LWarn "Failed to create VMM for warming pool." [("err", Error err)];;
           mret Again
       | inl vm =>
           match metadata r with
           | Some err =>
               log LWarn "Failed to set metadata on VM for warming pool."
                 [("err", Error err)];;
               mret Again
           | None =>
               emit (EvGo "awaitHandshake" (vmmID vm));;
               let p := fresh (dom (heap w)) in
               modify (set_heap (<[p := vm]>));;
               modify (set_allVMs (<[vmmID vm := p]>));;
               modify (set_stopMutex (<[vmmID vm := false]>));;
               counter_Add vmCounter 1 [];;
               log LInfo "Adding new VM to warm pool"
                 [("ip", ip vm); ("vmid", vmmID vm)];;
               pool_send p;;
               mret Again
           end
       end.

(** The loop of [Start] over the passes it is given; [Again] when they
    are used up before the loop ends. *)
Fixpoint Start_loop (rounds : list Round) : M World Next :=
  match rounds with
  | [] => mret Again
  | r :: rest =>
      n ← Start_round r;
      match n with
      | Leave => mret Leave
      | Again => Start_loop rest
      end
  end.

(** A deferred [recover()]: a panic of the body ends the function in the
    handler. *)
Definition recover {A} (handler : string -> M World A) (body : M World A)
  : M World A :=
  fun w =>
    match body w with
    | (w', Panic why) => handler why w'
    | other => other
    end.

(** [resetCNI]: [result] is what removing and recreating the CNI state
    directory and deleting the leftover interfaces come to. *)
Definition resetCNI (result : option error) : M World (option error) :=
  log LInfo "Resetting network" [];; mret result.

(** [Start]: the start-up lines and the loop, over the passes it is
    given. *)
Definition Start (reset : option error) (rounds : list Round) : M World unit :=
  log LInfo "Virtual machine manager starting" [];;
  recover (fun why => log LDebug ("recovered: " +:+ why) [])
    (w ← get;
     (if negb (PreserveNetwork (config w))
      then err ← resetCNI reset;
           match err with
           | Some e => log LWarn "Failed to reset network." [("err", Error e)]
           | None => mret tt
           end
      else mret tt);;
     Start_loop rounds;;
     mret tt).

(** [NewMachineManager], from the configuration and the process
    surroundings: the manager, or the error it refuses with (the text of
    the first one ends in [config.Errors], left out here). *)
Definition NewMachineManager (config : NodeConfiguration) (o : OS)
  : res (World + error) :=
  if negb (Validate E config)
  then Ret (inr (errors_New
         "failed to create new machine manager; invalid node config"))
  else match make_chan (MachinePoolSize config) with
       | Panic why => Panic why
       | Blocked on => Blocked on
       | Ret pool =>
           let m := mkWorld 0 config ∅ pool ∅
                      (defaultHandshakeTimeoutMillis * Millisecond)
                      ∅ ∅ ∅ []
                      [EvSubscribe ncInternal "agentint.handshake";
                       EvSubscribe ncInternal "agentint.*.events.*";
                       EvSubscribe ncInternal "agentint.*.logs"] o in
           match Subscribe E ncInternal "agentint.handshake" with
           | Some err => Ret (inr err)
           | None =>
           match Subscribe E ncInternal "agentint.*.events.*" with
           | Some err => Ret (inr err)
           | None =>
           match Subscribe E ncInternal "agentint.*.logs" with
           | Some err => Ret (inr err)
           | None =>
           match hostServices_init E with
           | Some err => Ret (inr err)
           | None => Ret (inl m)
           end end end end
       end.

(** *** The trigger router *)

(** [carrier.Set(key, value)] on [propagation.HeaderCarrier(h)]: a write
    into the map [h] itself, which panics when [h] is nil. *)
Definition carrier_Set (h : option Header) (kv : string * string)
  : M World (option Header) :=
  match h with
  | None => panic "assignment to entry in nil map"
  | Some hm => mret (Some (<[kv.1 := [kv.2]]> hm))
  end.

(** [propagator.Inject(ctx, carrier)]: one [Set] per field. *)
Fixpoint inject (fields : list (string * string)) (h : option Header)
  : M World (option Header) :=
  match fields with
  | [] => mret h
  | kv :: rest => h' ← carrier_Set h kv; inject rest h'
  end.

Definition set_Header (h : option Header) (m : Msg) : Msg :=
  mkMsg (Subject m) (Reply m) h (Data m).
Definition set_Data (d : Bytes) (m : Msg) : Msg :=
  mkMsg (Subject m) (Reply m) (Header_of m) d.

(** [intmsg.Header.Add(key, value)] *)
Definition Msg_Header_Add (m : Msg) (key value : string) : M World Msg :=
  match Header_of m with
  | None => panic "assignment to entry in nil map"
  | Some h => mret (set_Header (Some (Header_Add h key value)) m)
  end.

(** The second half of the trigger handler, from the answer of the
    agent on: the failure bookkeeping, or the success bookkeeping and
    the reply to the inbound message.  ([RequestMsg] does not return a
    nil reply without an error, so the [else if resp != nil] is the
    [inl] case.) *)
Definition relay_answer (p : nat) (tsub : string) (request : DeployRequest)
    (msg : Msg) (answer : Msg + error) : M World Msg :=
  match answer with
  | inr err =>
      emit (EvSpanStatus false "Internal trigger request failed");;
      emit (EvSpanError err);;
      wt ← deref (WorkloadType request);
      vm ← load p;
      log LError "Failed to request agent execution via internal trigger subject"
        [("err", Error err); ("trigger_subject", tsub);
         ("workload_type", wt); ("vmid", vmmID vm)];;
      counter_Add functionFailedTriggers 1 [];;
      counter_Add functionFailedTriggers 1 [[("namespace", namespace vm)]];;
      dreq ← deref (deployRequest vm);
      dname ← deref (WorkloadName dreq);
      counter_Add functionFailedTriggers 1 [[("workload_name", dname)]];;
      name ← deref (WorkloadName request);
      emit (EvFunctionExecFailed (vmmID vm) name tsub err);;
      mret msg
  | inl resp =>
      emit (EvSpanStatus true "Trigger succeeded");;
      let runtimeNs := Header_Get (default ∅ (Header_of resp)) nexRuntimeNs in
      wt ← deref (WorkloadType request);
      vm ← load p;
      log LDebug "Received response from execution via trigger subject"
        [("vmid", vmmID vm); ("trigger_subject", tsub); ("workload_type", wt);
         ("function_run_time_nanosec", runtimeNs);
         ("payload_size", pretty (length (Data resp)))];;
      let '(runTimeNs64, perr) := ParseInt E runtimeNs in
      match perr with
      | Some e => log LWarn "failed to log function runtime" [("err", Error e)]
      | None => mret tt
      end;;
      emit (EvFunctionExecSucceeded (vmmID vm) tsub runTimeNs64);;
      emit (EvSpanEvent "published success event");;
      counter_Add functionTriggers 1 [];;
      counter_Add functionTriggers 1 [[("namespace", namespace vm)]];;
      dreq ← deref (deployRequest vm);
      dname ← deref (WorkloadName dreq);
      counter_Add functionTriggers 1 [[("workload_name", dname)]];;
      counter_Add functionRunTimeNano runTimeNs64 [];;
      counter_Add functionRunTimeNano runTimeNs64 [[("namespace", namespace vm)]];;
      counter_Add functionRunTimeNano runTimeNs64 [[("workload_name", dname)]];;
      emit (EvRespond msg (Data resp));;
      match Respond E msg (Data resp) with
      | Some err =>
          emit (EvSpanStatus false "Failed to respond to trigger subject");;
          emit (EvSpanError err);;
          log LError
            "Failed to respond to trigger subject subscription request for deployed workload"
            [("vmid", vmmID vm); ("trigger_subject", tsub); ("workload_type", wt);
             ("err", Error err)]
      | None => mret tt
      end;;
      mret msg
  end.

(** The closure that [generateTriggerHandler(vm, tsub, request)]
    returns, run on an inbound message.  It hands back the inbound
    message as the handler leaves it: header maps are shared, so what is
    set on [msg.Header] is set on the caller's message.  The first half
    builds the internal message and sends it to the agent. *)
Definition generateTriggerHandler (p : nat) (tsub : string)
    (request : DeployRequest) (msg : Msg) : M World Msg :=
  name ← deref (WorkloadName request);
  vm ← load p;
  let parent := tracer_Start E None "workload-trigger" in
  emit (EvSpanStart "workload-trigger" true
          [("name", name); ("namespace", namespace vm);
           ("trigger-subject", Subject msg)]);;
  defer (set_trace (fun t => t ++ [EvSpanEnd "workload-trigger"])) (
    let intmsg := NewMsg ("agentint." +:+ vmmID vm +:+ ".trigger") in
    let intmsg := set_Data (Data msg) intmsg in
    intmsg ← Msg_Header_Add intmsg nexTriggerSubject (Subject msg);
    let child := tracer_Start E (Some parent) "internal request" in
    emit (EvSpanStart "internal request" false []);;
    h ← inject (Inject E child) (Header_of msg);
    let msg := set_Header h msg in
    emit (EvRequest ncInternal intmsg (Millisecond * 10000));;
    let answer := Request E ncInternal intmsg (Millisecond * 10000) in
    emit (EvSpanEnd "internal request");;
    emit (EvSpanEvent "Completed internal request");;
    relay_answer p tsub request msg answer).

End Manager.

(** ** controlapi.go: the stop handler *)

Section ApiListener.

Context (E : Env).

(** [api.mgr.StopMachine(id)] as the listener calls it, with the id
    alone. *)
Context (mgr_StopMachine : string -> M World (option error)).

Definition respondFail (responseType : string) (m : Msg) (reason : string)
  : M World unit :=
  emit (EvReply m (NewEnvelope responseType EmptyBytes (Some reason))).

Definition handleStop (m : Msg) : M World unit :=
  match extractNamespace (Subject m) with
  | inr err =>
      log LError "Invalid subject for workload stop" [("error", Error err)];;
      respondFail (StopResponseType E) m "Invalid subject for workload stop"
  | inl ns =>
      match json_Unmarshal_StopRequest E (Data m) with
      | inr err =>
          log LError "Failed to deserialize stop request" [("error", Error err)];;
          respondFail (StopResponseType E) m
            ("Unable to deserialize stop request: " +:+ Error err)
      | inl request =>
          w ← get;
          match LookupMachine w (WorkloadId request) with
          | None =>
              log LError "Stop request: no such workload"
                [("vmid", WorkloadId request)];;
              respondFail (StopResponseType E) m "No such workload"
          | Some p =>
              vm ← load p;
              if negb (String.eqb (namespace vm) ns) then
                log LError "Namespace mismatch on workload stop request"
                  [("namespace", namespace vm); ("targetnamespace", ns)];;
                respondFail (StopResponseType E) m "No such workload"
              else
                match StopRequest_Validate E request (DecodedClaims vm) with
                | Some err =>
                    log LError "Failed to validate stop request"
                      [("error", Error err)];;
                    respondFail (StopResponseType E) m
                      ("Invalid stop request: " +:+ Error err)
                | None =>
                    err ← mgr_StopMachine (WorkloadId request);
                    match err with
                    | Some e =>
                        log LError "Failed to stop workload" [("error", Error e)];;
                        respondFail (StopResponseType E) m
                          ("Failed to stop workload: " +:+ Error e)
                    | None => mret tt
                    end;;
                    vm ← load p;
                    emit (EvReply m (NewEnvelope (StopResponseType E)
                            (StopPayload
                               (mkStopResponse true
                                  (claims_Subject (DecodedClaims vm))
                                  (claims_Issuer (DecodedClaims vm))
                                  (vmmID vm)))
                            None))
                end
          end
      end
  end.

End ApiListener.

(** ** Closed forms used by the proofs *)

(** What draining the subscriptions of a VM adds to the trace. *)
Definition drain_events (E : Env) (vmID : string) (subs : list Subscription)
  : list Event :=
  flat_map (fun sub =>
    EvDrain sub ::
    match Drain E sub with
    | Some err =>
        [EvLog LWarn ("failed to drain subscription to subject " +:+ sub_Subject sub
                      +:+ " associated with vm " +:+ vmID +:+ ": " +:+ Error err) []]
    | None => []
    end ++
    [EvLog LDebug ("drained subscription to subject " +:+ sub_Subject sub
                   +:+ " associated with vm " +:+ vmID) []]) subs.

(** The error of [StopMachine] for an id that is not registered. *)
Definition NotFound (vmID : string) : error :=
  errors_New ("failed to stop machine " +:+ vmID).

(** The replies sent with [msg.Respond] in a trace. *)
Definition replies (t : list Event) : list (Msg * Bytes) :=
  flat_map (fun e => match e with EvRespond to data => [(to, data)] | _ => [] end) t.

(** The failure and success envelopes sent by the control API in a trace. *)
Definition envelopes (t : list Event) : list (Msg * Envelope) :=
  flat_map (fun e => match e with EvReply to env => [(to, env)] | _ => [] end) t.

Definition poll_sleep (E : Env) : Event :=
  EvSleep (Millisecond * DefaultRunloopSleepTimeoutMillis E).

(** A pass of the watchdog before its deadline that does not find the
    VM in the handshake table. *)
Definition waiting (deadline : Z) (vmid : string) (o : Z * World) : Prop :=
  o.1 ≤ deadline ∧ handshakes o.2 !! vmid = None.

(** The failure envelope of the stop handler for a workload it does not
    find. *)
Definition no_such_workload (E : Env) : Envelope :=
  NewEnvelope (StopResponseType E) EmptyBytes (Some "No such workload").

(** ** The manager as a transition system

    The operations that run against one manager, in any order: the pool
    maintainer, whole or pass by pass (with a send that was blocked taken
    up again), the consumers of the pool, the bus handlers, deploys and
    stops. *)
Inductive Op :=
| OpStart (reset : option error) (rounds : list Round)
| OpStartRound (r : Round)
| OpSend (p : nat)
| OpReceive
| OpStop
| OpStopMachine (vmID : string) (undeploy : bool)
| OpDeploy (p : nat) (request : DeployRequest) (now : Z)
| OpHandshake (msg : Msg) (now : string)
| OpTrigger (p : nat) (tsub : string) (request : DeployRequest) (msg : Msg)
| OpHandleStop (msg : Msg).

(** The world after an operation, whether it returned, panicked or is
    left waiting. *)
Definition perform (E : Env) (o : Op) (w : World) : World :=
  match o with
  | OpStart reset rounds => (Start E reset rounds w).1
  | OpStartRound r => (Start_round E r w).1
  | OpSend p => (pool_send p w).1
  | OpReceive => (pool_receive w).1
  | OpStop => (Stop E w).1
  | OpStopMachine vmID undeploy => (StopMachine E vmID undeploy w).1
  | OpDeploy p request now => (DeployWorkload E p request now w).1
  | OpHandshake msg now => (handleHandshake E msg now w).1
  | OpTrigger p tsub request msg => (generateTriggerHandler E p tsub request msg w).1
  | OpHandleStop msg =>
      (handleStop E (fun id => StopMachine E id true) msg w).1
  end.

Inductive reachable (E : Env) (w0 : World) : World -> Prop :=
| reach_start : reachable E w0 w0
| reach_step w o : reachable E w0 w -> reachable E w0 (perform E o w).

(** The pool holds no more than its capacity, which is the configured
    pool size. *)
Definition pool_bounded (w : World) : Prop :=
  (length (ch_buf (warmVMs w)) ≤ ch_cap (warmVMs w))%nat
  ∧ Z.of_nat (ch_cap (warmVMs w)) = MachinePoolSize (config w).

(** The steps that leave the pool and the configuration alone. *)
Definition framed (f : World -> World) : Prop :=
  ∀ w, warmVMs (f w) = warmVMs w ∧ config (f w) = config w.

(** A computation that keeps a property of the world, however it ends. *)
Definition preserves (P : World -> Prop) {A} (c : M World A) : Prop :=
  ∀ w w' r, c w = (w', r) → P w → P w'.

(** What a stop of the VM adds to the telemetry. *)
Definition stop_measures (vm : runningFirecracker) (wt : string) (vcpu mem : Z)
  : list Measurement :=
  match deployRequest vm with
  | Some req =>
      [mkMeasure workloadCounter (-1) (merge_attrs [[("workload_type", wt)]]);
       mkMeasure workloadCounter (-1)
         (merge_attrs [[("workload_type", wt)]; [("namespace", namespace vm)]]);
       mkMeasure deployedByteCounter (wrap64 (TotalBytes req * -1)) (merge_attrs []);
       mkMeasure deployedByteCounter (wrap64 (TotalBytes req * -1))
         (merge_attrs [[("namespace", namespace vm)]])]
  | None => []
  end ++
  [mkMeasure vmCounter (-1) (merge_attrs []);
   mkMeasure allocatedVCPUCounter (wrap64 (vcpu * -1)) (merge_attrs []);
   mkMeasure allocatedVCPUCounter (wrap64 (vcpu * -1))
     (merge_attrs [[("namespace", namespace vm)]]);
   mkMeasure allocatedMemoryCounter (wrap64 (mem * -1)) (merge_attrs []);
   mkMeasure allocatedMemoryCounter (wrap64 (mem * -1))
     (merge_attrs [[("namespace", namespace vm)]])].

(** The undeploy request of a stop. *)
Definition undeploy_request (vmid : string) : Event :=
  EvRequest ncInternal (mkMsg ("agentint." +:+ vmid +:+ ".undeploy") "" None [])
    (500 * Millisecond).

(** What a stop of the VM adds to the trace. *)
Definition stop_events (E : Env) (vmID : string) (undeploy : bool)
    (subs : list Subscription) (vm : runningFirecracker) : list Event :=
  EvLog LDebug "Attempting to stop virtual machine"
    [("vmid", vmID); ("undeploy", bool_str undeploy)]
  :: drain_events E vmID subs
  ++ (if bool_decide (deployRequest vm ≠ None) && undeploy
      then undeploy_request (vmmID vm)
           :: match Request E ncInternal
                      (mkMsg ("agentint." +:+ vmmID vm +:+ ".undeploy") "" None [])
                      (500 * Millisecond) with
              | inr err =>
                  [EvLog LWarn
                     "request to undeploy workload via internal NATS connection failed"
                     [("vmid", vmmID vm); ("error", Error err)]]
              | inl _ => []
              end
      else [])
  ++ [EvShutdown (vmmID vm); EvMachineStopped (vmmID vm)].

(** A VM that can be stopped: registered under its id with a free lock,
    the record behind the pointer, and no nil pointer among the fields
    the stop reads. *)
Record stoppable (w : World) (vmID : string) (p : nat) (vm : runningFirecracker)
    (wt : string) (vcpu mem : Z) : Prop := {
  stoppable_registered : allVMs w !! vmID = Some p;
  stoppable_lock : stopMutex w !! vmID = Some false;
  stoppable_record : heap w !! p = Some vm;
  stoppable_type : ∀ req, deployRequest vm = Some req → WorkloadType req = Some wt;
  stoppable_vcpu : VcpuCount vm = Some vcpu;
  stoppable_mem : MemSizeMib vm = Some mem
}.

(** The VM record once [DeployWorkload] has bound the request to it. *)
Definition bound_vm (request : DeployRequest) (ns : string) (now : Z)
    (vm : runningFirecracker) : runningFirecracker :=
  set_workloadStarted now (set_namespace ns (set_deployRequest (Some request) vm)).

Definition deploy_request (vmid : string) (payload : Bytes) : Msg :=
  mkMsg ("agentint." +:+ vmid +:+ ".deploy") "" None payload.

(** The world once [DeployWorkload] has sent the request to the agent. *)
Definition submitted (E : Env) (p : nat) (request : DeployRequest) (ns : string)
    (now : Z) (vm : runningFirecracker) (payload : Bytes) (w : World) : World :=
  set_trace (fun t => t ++ [EvLog LDebug "NATS internal connection status"
                              [("vmid", vmmID vm); ("status", ncInternal_Status E)];
                            EvRequest ncInternal (deploy_request (vmmID vm) payload)
                              (1 * Second)])
    (set_heap (<[p := bound_vm request ns now vm]>) w).

(** What a trigger subscription that goes through adds to the trace. *)
Definition subscribed_events (vmid wt tsub : string) : list Event :=
  [EvSubscribe nc tsub;
   EvLog LInfo "Created trigger subject subscription for deployed workload"
     [("vmid", vmid); ("trigger_subject", tsub); ("workload_type", wt)]].

(** The world after the trigger subscriptions on [subs] went through. *)
Fixpoint subscribed (vmid wt : string) (subs : list string) (w : World) : World :=
  match subs with
  | [] => w
  | tsub :: rest =>
      subscribed vmid wt rest
        (set_vmsubz (fun s => <[vmid := default [] (s !! vmid) ++ [mkSub tsub]]> s)
           (set_trace (fun t => t ++ subscribed_events vmid wt tsub) w))
  end.

(** What a refused trigger subscription adds to the trace before the
    stop. *)
Definition refused_events (vmid wt tsub : string) (err : error) : list Event :=
  [EvSubscribe nc tsub;
   EvLog LError "Failed to create trigger subject subscription for deployed workload"
     [("vmid", vmid); ("trigger_subject", tsub); ("workload_type", wt);
      ("err", Error err)]].

(** The two texts of [DeployWorkload] for a deploy request that got no
    answer. *)
Definition deploy_timeout_text : string :=
  "timed out waiting for acknowledgement of workload deployment".
Definition deploy_transport_text (err : error) : string :=
  "failed to submit request for workload deployment: " +:+ Error err.

(** What a deploy that went through adds to the telemetry. *)
Definition deploy_measures (request : DeployRequest) (ns wt : string)
    (vcpu mem : Z) : list Measurement :=
  [mkMeasure workloadCounter 1 (merge_attrs [[("workload_type", wt)]]);
   mkMeasure workloadCounter 1
     (merge_attrs [[("namespace", ns)]; [("workload_type", wt)]]);
   mkMeasure deployedByteCounter (TotalBytes request) (merge_attrs []);
   mkMeasure deployedByteCounter (TotalBytes request) (merge_attrs [[("namespace", ns)]]);
   mkMeasure allocatedVCPUCounter vcpu (merge_attrs []);
   mkMeasure allocatedVCPUCounter vcpu (merge_attrs [[("namespace", ns)]]);
   mkMeasure allocatedMemoryCounter mem (merge_attrs []);
   mkMeasure allocatedMemoryCounter mem (merge_attrs [[("namespace", ns)]])].

(** The requests sent on a bus in a trace. *)
Definition requests (t : list Event) : list (Conn * Msg * Z) :=
  flat_map (fun e => match e with EvRequest c m d => [(c, m, d)] | _ => [] end) t.

(** The internal message of the trigger handler for an inbound message:
    the payload of the inbound message and the one header that names its
    subject. *)
Definition trigger_request (vmid : string) (msg : Msg) : Msg :=
  mkMsg ("agentint." +:+ vmid +:+ ".trigger") ""
    (Some {[ nexTriggerSubject := [Subject msg] ]}) (Data msg).

(** A header map after the propagator has set its fields on it. *)
Definition injected (fields : list (string * string)) (h : Header) : Header :=
  foldl (fun h kv => <[kv.1 := [kv.2]]> h) h fields.

(** The span context that the handler passes to the propagator. *)
Definition child_span (E : Env) : SpanContext :=
  tracer_Start E (Some (tracer_Start E None "workload-trigger")) "internal request".

(** What a computation returns, when it returns. *)
Definition yields {A} (c : M World A) (Q : A -> Prop) : Prop :=
  ∀ w w' a, c w = (w', Ret a) → Q a.

(** The directory that the relative path [tmp/<name>] of [cleanSockets]
    lies in. *)
Definition relative_tmp (o : OS) : string := resolve_dir o (Some "tmp").

(** ** Sample surroundings: one node, one VM, one request *)

Module Sample.

Definition bytes (s : string) : Bytes := list_byte_of_string s.

(** A [v8] workload with two trigger subjects. *)
Definition request : DeployRequest :=
  mkDeployRequest (Some "ns") (Some "v8") (Some "echo") ["t.a"; "t.b"] 1024.

(** The agent accepts; every bus call goes through unless told
    otherwise by the three arguments: the answer to a request on the
    internal bus, the failing trigger subjects, and the reply decoded
    from the agent. *)
Definition env (answer : Msg -> Msg + error) (refused : string -> bool)
    (reply : DeployResponse + error) : Env :=
  mkEnv
    (fun r => negb (length (TriggerSubjects r) =? 0)%nat)
    (fun _ => inl (bytes "{}"))
    (fun _ => reply)
    (fun _ => (mkHandshakeRequest (Some "vm1") (Some "hello"), None))
    (bytes "{}")
    "CONNECTED"
    (fun _ m _ => answer m)
    (fun c s => if refused s
                then Some (errors_New "nats: invalid subject") else None)
    (fun _ => None)
    (fun _ _ => None)
    (fun parent name => mkSpan "4bf92f3577b34da6a3ce929d0e0e4736" name)
    (fun sc => [("Traceparent", "00-" +:+ TraceID sc +:+ "-01")])
    (fun _ => (0, None))
    (fun _ => true)
    None
    25
    (100 * Millisecond)
    (fun _ => inl (mkStopRequest "vm1"))
    (fun _ _ => None)
    "io.nats.nex.v1.stop_response".

Definition ack (m : Msg) : Msg + error := inl (mkMsg "_INBOX.1" "" None (bytes "{}")).
Definition accepted : DeployResponse + error := inl (mkDeployResponse true None).

(** Everything works. *)
Definition env_ok : Env := env ack (fun _ => false) accepted.

(** The subscription to [t.b] fails. *)
Definition env_tb : Env := env ack (String.eqb "t.b") accepted.

(** The agent rejects the workload. *)
Definition env_rejected : Env :=
  env ack (fun _ => false) (inl (mkDeployResponse false (Some "bad workload"))).

Definition vm1 : runningFirecracker :=
  mkVM "vm1" "192.168.127.2" "" None 0 (Some 1) (Some 256) (mkClaims "" "").

Definition machine : OS :=
  mkOS {[ "/tmp" := [".firecracker.sock-42-abc"; "other.txt"] ]} "/root" "/tmp" 42.

(** A fresh node with [vm1] registered and waiting in the pool. *)
Definition node : World :=
  mkWorld 0 (mkConfig 1 false [] ["v8"]) {[ "vm1" := 0%nat ]}
    (mkChan [0%nat] 1 false) ∅ (defaultHandshakeTimeoutMillis * Millisecond)
    {[ "vm1" := false ]} ∅ {[ 0%nat := vm1 ]} [] [] machine.

(** The same node with [vm1] taken from the pool. *)
Definition node_taken : World := set_warmVMs (fun _ => mkChan [] 1 false) node.

(** The manager as [NewMachineManager] makes it for a pool of one, and
    a pass of the maintainer in which the driver delivers [vm1]. *)
Definition config1 : NodeConfiguration := mkConfig 1 false [] ["v8"].
Definition new_node : World :=
  mkWorld 0 config1 ∅ (mkChan [] 1 false) ∅
    (defaultHandshakeTimeoutMillis * Millisecond) ∅ ∅ ∅ []
    [EvSubscribe ncInternal "agentint.handshake";
     EvSubscribe ncInternal "agentint.*.events.*";
     EvSubscribe ncInternal "agentint.*.logs"] machine.
Definition round1 : Round := mkRound false (inl vm1) None.

(** [vm1] deployed in namespace [A], as the listener sees it. *)
Definition vm1_deployed : runningFirecracker :=
  mkVM "vm1" "192.168.127.2" "A" (Some request) 0 (Some 1) (Some 256)
    (mkClaims "echo" "issuer1").

Definition node_deployed : World :=
  set_heap (fun _ => {[ 0%nat := vm1_deployed ]}) node_taken.

End Sample.


(** ** Readings of a trace *)

(** The subscriptions drained in a trace, in order. *)
Definition drained (t : list Event) : list Subscription :=
  flat_map (fun e => match e with EvDrain s => [s] | _ => [] end) t.

(** The VMs whose hypervisor was shut down in a trace, in order. *)
Definition shutdowns (t : list Event) : list string :=
  flat_map (fun e => match e with EvShutdown id => [id] | _ => [] end) t.

(** The "machine stopped" events published in a trace, in order. *)
Definition machine_stops (t : list Event) : list string :=
  flat_map (fun e => match e with EvMachineStopped id => [id] | _ => [] end) t.

(** Whether the node was cancelled in a trace. *)
Definition cancelled (t : list Event) : bool :=
  existsb (fun e => match e with EvCancel => true | _ => false end) t.

(** The subscriptions asked of the bus in a trace, in order. *)
Definition subscriptions (t : list Event) : list (Conn * string) :=
  flat_map (fun e => match e with EvSubscribe c s => [(c, s)] | _ => [] end) t.

(** The world after a stop of a VM that went through. *)
Definition stopped (E : Env) (vmID : string) (undeploy : bool)
    (vm : runningFirecracker) (wt : string) (vcpu mem : Z) (w : World) : World :=
  mkWorld (closing w) (config w) (delete vmID (allVMs w)) (warmVMs w)
    (handshakes w) (handshakeTimeout w) (delete vmID (stopMutex w))
    (delete vmID (vmsubz w)) (heap w)
    (metrics w ++ stop_measures vm wt vcpu mem)
    (trace w ++ stop_events E vmID undeploy (default [] (vmsubz w !! vmID)) vm)
    (os w).

(** The world after a deploy that went through: the request bound and
    sent, the trigger subscriptions (if the workload supports them) made,
    the telemetry added. *)
Definition deployed (E : Env) (p : nat) (request : DeployRequest) (ns : string)
    (now : Z) (vm : runningFirecracker) (payload : Bytes) (wt : string)
    (vcpu mem : Z) (w : World) : World :=
  set_metrics (fun ms => ms ++ deploy_measures request ns wt vcpu mem)
    (if SupportsTriggerSubjects E request
     then subscribed (vmmID vm) wt (TriggerSubjects request)
            (submitted E p request ns now vm payload w)
     else submitted E p request ns now vm payload w).

(** An [int64] whose negation is an [int64] too. *)
Definition negatable (z : Z) : Prop := - 2 ^ 63 < z < 2 ^ 63.

(** The trigger subjects that a deploy subscribes to. *)
Definition triggers (E : Env) (request : DeployRequest) : list string :=
  if SupportsTriggerSubjects E request then TriggerSubjects request else [].

(** The panic of Go at a nil pointer. *)
Definition nil_dereference : string :=
  "invalid memory address or nil pointer dereference".

(** [nats.ErrTimeout], the error of a request on the bus to which no
    reply came within the timeout: [errors.New("nats: timeout")], which
    wraps nothing, so [errors.Is(err, os.ErrDeadlineExceeded)] is false
    for it. *)
Definition nats_ErrTimeout : error := errors_New "nats: timeout".

(** ** The handshake table over the life of a manager *)

(** Every VM that shook hands by [w0] is still in the table of [w]. *)
Definition remembers (w0 w : World) : Prop :=
  ∀ id, is_Some (handshakes w0 !! id) → is_Some (handshakes w !! id).

(** ** The trigger handler in closed form *)

(** The inbound message as the handler leaves it: the propagator's
    fields set on its header map. *)
Definition traced (E : Env) (h : Header) (msg : Msg) : Msg :=
  set_Header (Some (injected (Inject E (child_span E)) h)) msg.

(** The same for any inbound message that the propagator can be run on:
    a message without header map stays without one. *)
Definition relayed (E : Env) (msg : Msg) : Msg :=
  set_Header (injected (Inject E (child_span E)) <$> Header_of msg) msg.

(** The propagator does not write into a nil map: the inbound message
    has a header map, or there is nothing to inject. *)
Definition injectable (E : Env) (msg : Msg) : Prop :=
  Header_of msg = None → Inject E (child_span E) = [].

(** What the handler adds to the trace up to the answer of the agent. *)
Definition trigger_events (E : Env) (vm : runningFirecracker) (name : string)
    (msg : Msg) : list Event :=
  [EvSpanStart "workload-trigger" true
     [("name", name); ("namespace", namespace vm); ("trigger-subject", Subject msg)];
   EvSpanStart "internal request" false [];
   EvRequest ncInternal (trigger_request (vmmID vm) msg) (Millisecond * 10000);
   EvSpanEnd "internal request";
   EvSpanEvent "Completed internal request"].

(** The telemetry of a trigger: one on the instrument in total, per
    namespace and per workload name. *)
Definition trigger_measures (i : Instrument) (n : Z) (vm : runningFirecracker)
    (dname : string) : list Measurement :=
  [mkMeasure i n (merge_attrs []);
   mkMeasure i n (merge_attrs [[("namespace", namespace vm)]]);
   mkMeasure i n (merge_attrs [[("workload_name", dname)]])].

(** The function events published in a trace. *)
Definition exec_failures (t : list Event) : list (string * string * string * error) :=
  flat_map (fun e => match e with
                     | EvFunctionExecFailed id name tsub err => [(id, name, tsub, err)]
                     | _ => []
                     end) t.
Definition exec_successes (t : list Event) : list (string * string * Z) :=
  flat_map (fun e => match e with
                     | EvFunctionExecSucceeded id tsub ns => [(id, tsub, ns)]
                     | _ => []
                     end) t.

(** The spans ended in a trace. *)
Definition ended (t : list Event) : list string :=
  flat_map (fun e => match e with EvSpanEnd name => [name] | _ => [] end) t.

(** A trace that continues [t0]. *)
Definition extends (t0 : list Event) (w : World) : Prop :=
  ∃ evs, trace w = t0 ++ evs.

(** A computation that never waits. *)
Definition unblocked {A} (c : M World A) : Prop :=
  ∀ w w' on, c w ≠ (w', Blocked on).

(** ** The shutdown of the manager in closed form *)

(** The hypervisor id of the VM registered under [id]. *)
Definition vmm_of (w : World) (id : string) : string :=
  match allVMs w !! id with
  | Some p => match heap w !! p with Some vm => vmmID vm | None => "" end
  | None => ""
  end.

(** Every VM registered under one of [ids] can be stopped. *)
Definition all_stoppable (w : World) (ids : list string) : Prop :=
  ∀ id, id ∈ ids → ∃ p vm wt vcpu mem, stoppable w id p vm wt vcpu mem.

(** The ids of the registry in the order in which [Stop] walks it. *)
Definition registered (w : World) : list string :=
  map fst (map_to_list (allVMs w)).

(** A step of the loop of [Stop]. *)
Definition stop_or_warn (E : Env) (vmID : string) : M World unit :=
  err ← StopMachine E vmID true;
  match err with
  | Some e => log LWarn "Failed to stop VM" [("vmid", vmID); ("error", Error e)]
  | None => mret tt
  end.

(** What the steps of a shutdown leave alone: everything but the file
    system and the log. *)
Definition same_manager (w0 w : World) : Prop :=
  closing w = closing w0 ∧ config w = config w0 ∧ allVMs w = allVMs w0
  ∧ warmVMs w = warmVMs w0 ∧ handshakes w = handshakes w0
  ∧ stopMutex w = stopMutex w0 ∧ vmsubz w = vmsubz w0 ∧ heap w = heap w0
  ∧ metrics w = metrics w0 ∧ shutdowns (trace w) = shutdowns (trace w0).

(** A computation that returns from every state. *)
Definition returns {A} (c : M World A) : Prop :=
  ∀ w, ∃ w' a, c w = (w', Ret a).

(** ** Subjects *)

(** [strings.Count(s, sep)] for a separator of one character. *)
Fixpoint Count (s : string) (sep : ascii) : nat :=
  match s with
  | EmptyString => 0
  | String c s' => (if Ascii.eqb c sep then 1 else 0) + Count s' sep
  end.

(** The error of [extractNamespace]. *)
Definition no_namespace : error :=
  errors_New "Invalid subject - could not detect a namespace".

(** ** controlapi.go: uptime and machine summaries *)

(** [myUptime(d)]: [time.Duration] is an [int64] of nanoseconds; [/]
    truncates towards zero and [%] takes the sign of the dividend;
    [%d] is [pretty]. *)
Definition myUptime (d : Z) : string :=
  let tsecs := d ÷ Second in
  let tmins := tsecs ÷ 60 in
  let thrs := tmins ÷ 60 in
  let tdays := thrs ÷ 24 in
  let tyrs := tdays ÷ 365 in
  if tyrs >? 0 then
    pretty tyrs +:+ "y" +:+ pretty (Z.rem tdays 365) +:+ "d"
    +:+ pretty (Z.rem thrs 24) +:+ "h" +:+ pretty (Z.rem tmins 60) +:+ "m"
    +:+ pretty (Z.rem tsecs 60) +:+ "s"
  else if tdays >? 0 then
    pretty tdays +:+ "d" +:+ pretty (Z.rem thrs 24) +:+ "h"
    +:+ pretty (Z.rem tmins 60) +:+ "m" +:+ pretty (Z.rem tsecs 60) +:+ "s"
  else if thrs >? 0 then
    pretty thrs +:+ "h" +:+ pretty (Z.rem tmins 60) +:+ "m"
    +:+ pretty (Z.rem tsecs 60) +:+ "s"
  else if tmins >? 0 then
    pretty tmins +:+ "m" +:+ pretty (Z.rem tsecs 60) +:+ "s"
  else pretty tsecs +:+ "s".

(** The text of an uptime of [y] years, [d] days, [h] hours, [m] minutes
    and [s] seconds, from the first unit that is not zero on. *)
Definition uptime_text (y d h m s : Z) : string :=
  if y >? 0 then
    pretty y +:+ "y" +:+ pretty d +:+ "d" +:+ pretty h +:+ "h"
    +:+ pretty m +:+ "m" +:+ pretty s +:+ "s"
  else if d >? 0 then
    pretty d +:+ "d" +:+ pretty h +:+ "h" +:+ pretty m +:+ "m" +:+ pretty s +:+ "s"
  else if h >? 0 then pretty h +:+ "h" +:+ pretty m +:+ "m" +:+ pretty s +:+ "s"
  else if m >? 0 then pretty m +:+ "m" +:+ pretty s +:+ "s"
  else pretty s +:+ "s".

(** [controlapi]: the requests and answers of the control API that the
    listener reads and builds. *)
Module controlapi.

Record RunRequest := mkRunRequest {
  Description : option string;
  WorkloadType : option string;
  TriggerSubjects : list string;
  DecodedClaims : Claims
}.

Record RunResponse := mkRunResponse {
  Started : bool;
  Name : string;
  Issuer : string;
  MachineId : string
}.

Record WorkloadSummary := mkWorkloadSummary {
  ws_Name : string;
  ws_Description : string;
  ws_Runtime : string;
  ws_WorkloadType : string
}.

Record MachineSummary := mkMachineSummary {
  Id : string;
  Healthy : bool;
  Uptime : string;
  Workload : WorkloadSummary
}.

End controlapi.

(** [t.Sub(u)]: the difference of two instants in nanoseconds, kept
    within [int64]. *)
Definition time_Sub (t u : Z) : Z :=
  Z.max (- 2 ^ 63) (Z.min (2 ^ 63 - 1) (t - u)).

(** [for _, x := range xs { acc = body(acc, x) }] *)
Fixpoint range_fold {S A B} (xs : list A) (acc : B) (body : B -> A -> M S B)
  : M S B :=
  match xs with
  | [] => mret acc
  | x :: rest => acc' ← body acc x; range_fold rest acc' body
  end.

(** The listener: its own fields, the parts of the VM record and of the
    manager that [machine_mgr.go] does not have in this revision, and the
    codecs. *)
Module Api.
Section Listener.

Context (E : Env).

(** [api.nodeId], [api.config], [controlapi.APIPrefix], [VERSION] and
    [controlapi.RunResponseType]. *)
Context (nodeId : string) (api_config : NodeConfiguration)
  (APIPrefix VERSION RunResponseType : string).

(** [v.workloadSpecification.Description], [.WorkloadType] and
    [v.machineStarted] of the record behind a pointer. *)
Context (spec_Description spec_WorkloadType : nat -> option string)
  (machineStarted : nat -> Z).

(** [json.Unmarshal] into a [RunRequest], [request.Validate(api.xk)],
    [json.Marshal] of the run envelope and [strings.EqualFold]. *)
Context (json_Unmarshal_RunRequest : Bytes -> controlapi.RunRequest + error)
  (RunRequest_Validate : controlapi.RunRequest -> Claims + error)
  (json_Marshal_RunEnvelope : string -> controlapi.RunResponse -> Bytes + error)
  (EqualFold : string -> string -> bool).

(** [api.mgr.CacheWorkload], [api.mgr.TakeFromPool] and
    [api.mgr.DeployWorkload] as the listener calls them. *)
Context (mgr_CacheWorkload : controlapi.RunRequest -> M World (option error))
  (mgr_TakeFromPool : M World (nat + error))
  (mgr_DeployWorkload :
     nat -> string -> string -> controlapi.RunRequest -> M World (option error)).

(** One subscription of [Start]: a failure is logged and the next one
    is tried. *)
Definition subscribe_or_log (subject what : string) : M World unit :=
  emit (EvSubscribe nc subject);;
  match Subscribe E nc subject with
  | Some err =>
      log LError ("Failed to subscribe to " +:+ what +:+ ": " +:+ Error err)
        [("id", nodeId)]
  | None => mret tt
  end.

Definition Start : M World (option error) :=
  subscribe_or_log (APIPrefix +:+ ".PING") "ping subject";;
  subscribe_or_log (APIPrefix +:+ ".PING." +:+ nodeId) "node-specific ping subject";;
  subscribe_or_log (APIPrefix +:+ ".INFO.*." +:+ nodeId) "info subject";;
  subscribe_or_log (APIPrefix +:+ ".RUN.*." +:+ nodeId) "run subject";;
  subscribe_or_log (APIPrefix +:+ ".STOP.*." +:+ nodeId) "stop subject";;
  log LInfo "NATS execution engine awaiting commands"
    [("id", nodeId); ("version", VERSION)];;
  mret None.

(** The summary of the VM behind [p]. *)
Definition summary (p : nat) (v : runningFirecracker) (now : Z)
  : controlapi.MachineSummary :=
  let desc := match spec_Description p with Some d => d | None => "" end in
  let workloadType := match spec_WorkloadType p with Some t => t | None => "" end in
  controlapi.mkMachineSummary (vmmID v) true
    (myUptime (time_Sub now (machineStarted p)))
    (controlapi.mkWorkloadSummary (claims_Subject (DecodedClaims v)) desc
       (myUptime (time_Sub now (workloadStarted v))) workloadType).

(** [summarizeMachines(&api.mgr.allVms, namespace)]; [now] is
    [time.Now().UTC()].  The registry is walked in the order of its
    keys. *)
Definition summarizeMachines (namespace0 : string) (now : Z)
  : M World (list controlapi.MachineSummary) :=
  w ← get;
  range_fold (map snd (map_to_list (allVMs w))) [] (fun machines p =>
    v ← load p;
    if String.eqb (namespace v) namespace0
    then mret (machines ++ [summary p v now])
    else mret machines).

Definition set_DecodedClaims (c : Claims) (r : controlapi.RunRequest)
  : controlapi.RunRequest :=
  controlapi.mkRunRequest (controlapi.Description r) (controlapi.WorkloadType r)
    (controlapi.TriggerSubjects r) c.

(** The end of [handleRun], once a warm VM was taken from the pool. *)
Definition submit (m : Msg) (namespace0 : string) (request : controlapi.RunRequest)
    (p : nat) (wt : string) : M World unit :=
  let workloadName := claims_Subject (controlapi.DecodedClaims request) in
  runningVm ← load p;
  log LInfo "Submitting workload to VM"
    [("vmid", vmmID runningVm); ("namespace", namespace0);
     ("workload", workloadName); ("type", wt)];;
  err ← mgr_DeployWorkload p workloadName namespace0 request;
  match err with
  | Some e =>
      log LError "Failed to start workload in VM" [("error", Error e)];;
      respondFail RunResponseType m ("Unable to start workload: " +:+ Error e)
  | None =>
      runningVm ← load p;
      log LInfo "Work accepted"
        [("workload", workloadName); ("vmid", vmmID runningVm)];;
      let res := controlapi.mkRunResponse true workloadName
                   (claims_Issuer (DecodedClaims runningVm)) (vmmID runningVm) in
      match json_Marshal_RunEnvelope RunResponseType res with
      | inr e => log LError "Failed to marshal run response" [("error", Error e)]
      | inl raw => emit (EvRespond m raw)
      end
  end.

(** The middle of [handleRun], from the issuer check on. *)
Definition check_issuer (m : Msg) (namespace0 : string)
    (request : controlapi.RunRequest) (wt : string) : M World unit :=
  w ← get;
  let issuer := claims_Issuer (controlapi.DecodedClaims request) in
  (if negb (validateIssuer issuer (ValidIssuers (config w)))
   then let err := errors_New ("invalid workload issuer: " +:+ issuer) in
        log LError "Workload validation failed" [("error", Error err)];;
        respondFail RunResponseType m (Error err)
   else mret tt);;
  err ← mgr_CacheWorkload request;
  match err with
  | Some e =>
      log LError "Failed to cache workload bytes" [("error", Error e)];;
      respondFail RunResponseType m ("Failed to cache workload bytes: " +:+ Error e)
  | None =>
      taken ← mgr_TakeFromPool;
      match taken with
      | inr e =>
          log LError "Failed to get warm VM from pool" [("error", Error e)];;
          respondFail RunResponseType m
            ("Failed to pull warm VM from ready pool: " +:+ Error e)
      | inl p => submit m namespace0 request p wt
      end
  end.

Definition handleRun (m : Msg) : M World unit :=
  match extractNamespace (Subject m) with
  | inr err =>
      log LError "Invalid subject for workload run" [("error", Error err)];;
      respondFail RunResponseType m "Invalid subject for workload run"
  | inl namespace0 =>
      match json_Unmarshal_RunRequest (Data m) with
      | inr err =>
          log LError "Failed to deserialize run request" [("error", Error err)];;
          respondFail RunResponseType m
            ("Unable to deserialize run request: " +:+ Error err)
      | inl request =>
          wt ← deref (controlapi.WorkloadType request);
          if negb (slices_Contains (WorkloadTypes api_config) wt) then
            log LError "This node does not support the given workload type"
              [("workload_type", wt)];;
            respondFail RunResponseType m
              ("Unsupported workload type on this node: " +:+ wt)
          else if (0 <? length (controlapi.TriggerSubjects request))%nat
                  && (negb (EqualFold wt "v8") && negb (EqualFold wt "wasm")) then
            log LError "Workload type does not support trigger subject registration"
              [("trigger_subjects", wt)];;
            respondFail RunResponseType m
              ("Unsupported workload type for trigger subject registration: " +:+ wt)
          else
            match RunRequest_Validate request with
            | inr err =>
                log LError "Invalid run request" [("error", Error err)];;
                respondFail RunResponseType m ("Invalid run request: " +:+ Error err)
            | inl decodedClaims =>
                check_issuer m namespace0 (set_DecodedClaims decodedClaims request) wt
            end
      end
  end.

End Listener.
End Api.

(** The records of the namespace among those behind [ps], summarized. *)
Definition summaries (spec_Description spec_WorkloadType : nat -> option string)
    (machineStarted : nat -> Z) (w : World) (ns : string) (now : Z)
    (ps : list nat) : list controlapi.MachineSummary :=
  flat_map (fun p =>
    match heap w !! p with
    | Some v =>
        if String.eqb (namespace v) ns
        then [Api.summary spec_Description spec_WorkloadType machineStarted p v now]
        else []
    | None => []
    end) ps.

(** The failure envelope of the stop handler with a reason, and its
    success envelope for a VM. *)
Definition stop_failure (E : Env) (reason : string) : Envelope :=
  NewEnvelope (StopResponseType E) EmptyBytes (Some reason).
Definition stop_success (E : Env) (vm : runningFirecracker) : Envelope :=
  NewEnvelope (StopResponseType E)
    (StopPayload (mkStopResponse true (claims_Subject (DecodedClaims vm))
                    (claims_Issuer (DecodedClaims vm)) (vmmID vm)))
    None.

(** The failure envelope of the run handler with a reason. *)
Definition run_failure (RunResponseType reason : string) : Envelope :=
  NewEnvelope RunResponseType EmptyBytes (Some reason).

(** The text of the run handler for an issuer outside the allow-list. *)
Definition invalid_issuer (issuer : string) : string :=
  "invalid workload issuer: " +:+ issuer.

(** What the run handler logs and answers for such an issuer. *)
Definition issuer_refusal (RunResponseType : string) (m : Msg) (issuer : string)
  : list Event :=
  [EvLog LError "Workload validation failed" [("error", invalid_issuer issuer)];
   EvReply m (run_failure RunResponseType (invalid_issuer issuer))].

(** What one subscription of the listener's [Start] adds to the trace:
    the subscription and, when it fails, the error line. *)
Definition subscription_events (E : Env) (nodeId subject what : string)
  : list Event :=
  EvSubscribe nc subject
  :: match Subscribe E nc subject with
     | Some err =>
         [EvLog LError ("Failed to subscribe to " +:+ what +:+ ": " +:+ Error err)
            [("id", nodeId)]]
     | None => []
     end.


(** ** More sample surroundings *)

Module More.

(** A bus on which draining fails and the agent answers no request. *)
Definition env_deaf : Env :=
  mkEnv
    (SupportsTriggerSubjects Sample.env_ok)
    (json_Marshal_DeployRequest Sample.env_ok)
    (json_Unmarshal_DeployResponse Sample.env_ok)
    (json_Unmarshal_HandshakeRequest Sample.env_ok)
    (json_Marshal_HandshakeResponse Sample.env_ok)
    (ncInternal_Status Sample.env_ok)
    (fun _ _ _ => inr nats_ErrTimeout)
    (Subscribe Sample.env_ok)
    (fun _ => Some (errors_New "nats: connection closed"))
    (Respond Sample.env_ok)
    (tracer_Start Sample.env_ok)
    (Inject Sample.env_ok)
    (ParseInt Sample.env_ok)
    (Validate Sample.env_ok)
    (hostServices_init Sample.env_ok)
    (DefaultRunloopSleepTimeoutMillis Sample.env_ok)
    (runloopSleepInterval Sample.env_ok)
    (json_Unmarshal_StopRequest Sample.env_ok)
    (StopRequest_Validate Sample.env_ok)
    (StopResponseType Sample.env_ok).

(** [vm1] deployed, with its two trigger subscriptions. *)
Definition node_subscribed : World :=
  set_vmsubz (fun _ => {[ "vm1" := [mkSub "t.a"; mkSub "t.b"] ]}) Sample.node_deployed.

(** The sample node after [vm1] has shaken hands. *)
Definition node_greeted : World :=
  set_handshakes (fun _ => {[ "vm1" := "2024-01-01T00:00:00Z" ]}) Sample.node.

(** A handshake of [vm1]. *)
Definition hello : Msg := mkMsg "agentint.handshake" "_INBOX.7" None (Sample.bytes "{}").

(** A decoder that finds no machine id in the handshake. *)
Definition env_anonymous : Env :=
  mkEnv
    (SupportsTriggerSubjects Sample.env_ok)
    (json_Marshal_DeployRequest Sample.env_ok)
    (json_Unmarshal_DeployResponse Sample.env_ok)
    (fun _ => (mkHandshakeRequest None None,
               Some (errors_New "unexpected end of JSON input")))
    (json_Marshal_HandshakeResponse Sample.env_ok)
    (ncInternal_Status Sample.env_ok)
    (Request Sample.env_ok)
    (Subscribe Sample.env_ok)
    (Drain Sample.env_ok)
    (Respond Sample.env_ok)
    (tracer_Start Sample.env_ok)
    (Inject Sample.env_ok)
    (ParseInt Sample.env_ok)
    (Validate Sample.env_ok)
    (hostServices_init Sample.env_ok)
    (DefaultRunloopSleepTimeoutMillis Sample.env_ok)
    (runloopSleepInterval Sample.env_ok)
    (json_Unmarshal_StopRequest Sample.env_ok)
    (StopRequest_Validate Sample.env_ok)
    (StopResponseType Sample.env_ok).

(** A trigger on [t.a], with an empty header map and with none. *)
Definition ping : Msg := mkMsg "t.a" "_INBOX.3" (Some ∅) (Sample.bytes "ping").
Definition bare_ping : Msg := mkMsg "t.a" "_INBOX.3" None (Sample.bytes "ping").

(** The sample node with an allow-list of one issuer. *)
Definition node_strict : World :=
  mkWorld 0 (mkConfig 1 false ["issuerA"] ["v8"]) {[ "vm1" := 0%nat ]}
    (mkChan [0%nat] 1 false) ∅ (defaultHandshakeTimeoutMillis * Millisecond)
    {[ "vm1" := false ]} ∅ {[ 0%nat := Sample.vm1 ]} [] [] Sample.machine.

(** A run request for a [v8] workload signed by another issuer, and the
    listener's surroundings: the cache takes everything, the pool hands
    out what it holds, the deploy goes through. *)
Definition run_request : controlapi.RunRequest :=
  controlapi.mkRunRequest None (Some "v8") [] (mkClaims "" "").
Definition run_claims : Claims := mkClaims "echo" "issuerB".
Definition run_msg : Msg :=
  mkMsg "$NEX.RUN.default.NODE1" "_INBOX.5" None (Sample.bytes "{}").
Definition cache (r : controlapi.RunRequest) : M World (option error) := mret None.
Definition take : M World (nat + error) :=
  p ← pool_receive;
  match p with
  | Some p => mret (inl p)
  | None => mret (inr (errors_New "no warm VM"))
  end.
Definition deploy (p : nat) (name ns : string) (r : controlapi.RunRequest)
  : M World (option error) := mret None.
Definition run_raw (t : string) (r : controlapi.RunResponse) : Bytes + error :=
  inl (Sample.bytes (controlapi.MachineId r)).

(** A node without tracing: the propagator has nothing to inject. *)
Definition env_untraced : Env :=
  mkEnv
    (SupportsTriggerSubjects Sample.env_ok)
    (json_Marshal_DeployRequest Sample.env_ok)
    (json_Unmarshal_DeployResponse Sample.env_ok)
    (json_Unmarshal_HandshakeRequest Sample.env_ok)
    (json_Marshal_HandshakeResponse Sample.env_ok)
    (ncInternal_Status Sample.env_ok)
    (Request Sample.env_ok)
    (Subscribe Sample.env_ok)
    (Drain Sample.env_ok)
    (Respond Sample.env_ok)
    (tracer_Start Sample.env_ok)
    (fun _ => [])
    (ParseInt Sample.env_ok)
    (Validate Sample.env_ok)
    (hostServices_init Sample.env_ok)
    (DefaultRunloopSleepTimeoutMillis Sample.env_ok)
    (runloopSleepInterval Sample.env_ok)
    (json_Unmarshal_StopRequest Sample.env_ok)
    (StopRequest_Validate Sample.env_ok)
    (StopResponseType Sample.env_ok).

(** The agent's reply is no JSON. *)
Definition env_garbled : Env :=
  Sample.env Sample.ack (fun _ => false)
    (inr (errors_New "unexpected end of JSON input")).

End More.

(** * Properties *)

(** ** Running the monad *)

Section Run.
Context {S : Type}.

Lemma run_bind {A B} (c : M S A) (k : A -> M S B) s :
  (c ≫= k) s = match c s with
               | (s', Ret a) => k a s'
               | (s', Panic why) => (s', Panic why)
               | (s', Blocked on) => (s', Blocked on)
               end.
Proof. reflexivity. Qed.

Lemma run_ret {A} (a : A) (s : S) : mret (M := M S) a s = (s, Ret a).
Proof. reflexivity. Qed.

Lemma run_get (s : S) : get s = (s, Ret s).
Proof. reflexivity. Qed.

Lemma run_modify (f : S -> S) s : modify f s = (f s, Ret tt).
Proof. reflexivity. Qed.

Lemma run_panic {A} why (s : S) : panic (A := A) why s = (s, Panic why).
Proof. reflexivity. Qed.

Lemma run_block {A} on (s : S) : block (A := A) on s = (s, Blocked on).
Proof. reflexivity. Qed.

Lemma run_deref {A} (o : option A) (s : S) :
  deref o s = match o with
              | Some a => (s, Ret a)
              | None => (s, Panic "invalid memory address or nil pointer dereference")
              end.
Proof. destruct o; reflexivity. Qed.
End Run.

Lemma run_emit e w : emit e w = (set_trace (fun t => t ++ [e]) w, Ret tt).
Proof. reflexivity. Qed.

Lemma run_log l m f w :
  log l m f w = (set_trace (fun t => t ++ [EvLog l m f]) w, Ret tt).
Proof. reflexivity. Qed.

Lemma run_counter_Add i n o w :
  counter_Add i n o w
  = (set_metrics (fun ms => ms ++ [mkMeasure i n (merge_attrs o)]) w, Ret tt).
Proof. reflexivity. Qed.

Lemma run_load p w :
  load p w = match heap w !! p with
             | Some vm => (w, Ret vm)
             | None => (w, Panic "invalid memory address or nil pointer dereference")
             end.
Proof. unfold load. rewrite run_bind, run_get. by destruct (heap w !! p). Qed.

Ltac run :=
  repeat (rewrite ?run_bind, ?run_ret, ?run_get, ?run_modify, ?run_panic,
            ?run_block, ?run_emit, ?run_log, ?run_counter_Add, ?run_load,
            ?run_deref;
          cbn beta iota).

(** The same by unfolding, for long bodies. *)
Ltac exec :=
  repeat (progress
            (unfold log, counter_Add, load, emit, deref, mbind, M_bind, mret,
               M_ret, bind, ret, get, modify, panic, block;
             cbn beta iota)).

Lemma set_trace_app l1 l2 w :
  set_trace (fun t => t ++ l2) (set_trace (fun t => t ++ l1) w)
  = set_trace (fun t => t ++ (l1 ++ l2)) w.
Proof. destruct w; unfold set_trace; cbn. by rewrite <- app_assoc. Qed.

Lemma set_trace_nil w : set_trace (fun t => t ++ []) w = w.
Proof. destruct w; unfold set_trace; cbn. by rewrite app_nil_r. Qed.

Lemma for_each_drain E vmID subs w :
  for_each subs (drain_one E vmID) w
  = (set_trace (fun t => t ++ drain_events E vmID subs) w, Ret tt).
Proof.
  unfold for_each. rewrite run_bind.
  assert (H : for_range (R := Empty_set) subs
                (λ x, drain_one E vmID x;; mret None) w
              = (set_trace (fun t => t ++ drain_events E vmID subs) w, Ret None)).
  { revert w. induction subs as [|s subs IH]; intros w;
      cbn [for_range drain_events flat_map].
    - unfold Go.ret. by rewrite set_trace_nil.
    - change (bind ?c ?k) with (c ≫= k). unfold drain_one. run.
      destruct (Drain E s); run; rewrite IH, !set_trace_app; reflexivity. }
  rewrite H. reflexivity.
Qed.

(** ** Issuer validation *)

Lemma slices_Contains_In s v : slices_Contains s v = true ↔ In v s.
Proof.
  induction s as [|x s IH]; cbn; [intuition discriminate|].
  destruct (String.eqb_spec v x) as [->|Hne]; [intuition|].
  rewrite IH. intuition congruence.
Qed.

(** C10. With an empty allow-list [validateIssuer] accepts every issuer;
    with a non-empty one it accepts exactly the issuers in the list. *)
Theorem validateIssuer_allow_list (issuer : string) (validIssuers : list string) :
  validateIssuer issuer validIssuers = true
  ↔ validIssuers = [] ∨ In issuer validIssuers.
Proof.
  unfold validateIssuer. destruct validIssuers as [|v vs]; cbn [length Nat.eqb].
  - intuition.
  - rewrite slices_Contains_In. intuition discriminate.
Qed.

(** ** Stopping a machine *)

Lemma StopMachine_not_found E w vmID undeploy :
  allVMs w !! vmID = None →
  StopMachine E vmID undeploy w = (w, Ret (Some (NotFound vmID))).
Proof. intros H. unfold StopMachine. run. by rewrite H. Qed.

Lemma StopMachine_ok_gone E w vmID undeploy w1 :
  StopMachine E vmID undeploy w = (w1, Ret None) → allVMs w1 !! vmID = None.
Proof.
  unfold StopMachine, mutex_Lock, defer, request_undeploy. exec.
  destruct (allVMs w !! vmID) as [p|] eqn:Hp; [|by intros [= <- ?]].
  destruct (stopMutex w !! vmID) as [[|]|]; try (intros [= ]; fail).
  cbn beta iota. rewrite for_each_drain. cbn [heap set_trace set_stopMutex].
  destruct (heap w !! p) as [vm|]; [|intros [=]].
  destruct (bool_decide (deployRequest vm ≠ None) && undeploy); cbn beta iota;
    try destruct (Request E ncInternal _ _); cbn beta iota;
    destruct (deployRequest vm) as [req|]; cbn beta iota;
    try destruct (WorkloadType req); cbn beta iota; try (intros [=]; fail);
    destruct (VcpuCount vm); cbn beta iota; try (intros [=]; fail);
    destruct (MemSizeMib vm); cbn beta iota; try (intros [=]; fail);
    intros [= <-]; cbn; apply lookup_delete_eq.
Qed.

(** C2. [StopMachine] on an id that is not registered returns the
    not-found error and leaves the manager, its telemetry and its trace
    as they were; so once a first stop of an id has returned without
    error, a second stop of that id returns the not-found error and
    changes nothing. *)
Theorem StopMachine_idempotent (E : Env) (w : World) (vmID : string)
    (undeploy : bool) :
  (allVMs w !! vmID = None →
   StopMachine E vmID undeploy w = (w, Ret (Some (NotFound vmID))))
  ∧ (∀ w1 again,
       StopMachine E vmID undeploy w = (w1, Ret None) →
       StopMachine E vmID again w1 = (w1, Ret (Some (NotFound vmID)))).
Proof.
  split.
  - apply StopMachine_not_found.
  - intros w1 again H. apply StopMachine_not_found.
    by apply StopMachine_ok_gone in H.
Qed.

(** A first stop of [vm1] goes through; the second finds nothing. *)
Lemma StopMachine_idempotent_witness :
  let w1 := (StopMachine Sample.env_ok "vm1" true Sample.node).1 in
  StopMachine Sample.env_ok "vm1" true Sample.node = (w1, Ret None)
  ∧ StopMachine Sample.env_ok "vm1" false w1 = (w1, Ret (Some (NotFound "vm1")))
  ∧ StopMachine Sample.env_ok "vm9" true Sample.node
    = (Sample.node, Ret (Some (NotFound "vm9"))).
Proof.
  intros w1.
  assert (H : StopMachine Sample.env_ok "vm1" true Sample.node = (w1, Ret None))
    by (vm_compute; reflexivity).
  split; [exact H|]. split.
  - exact (proj2 (StopMachine_idempotent Sample.env_ok Sample.node "vm1" true)
             w1 false H).
  - apply (proj1 (StopMachine_idempotent Sample.env_ok Sample.node "vm9" true)).
    vm_compute; reflexivity.
Defined.

(** ** The handshake watchdog *)

Lemma awaitHandshake_loop_waiting E deadline vmid pre rest :
  Forall (fun o => stopping o.2 = false ∧ waiting deadline vmid o) pre →
  awaitHandshake_loop E deadline vmid false (pre ++ rest)
  = (replicate (length pre) (poll_sleep E)
       ++ (awaitHandshake_loop E deadline vmid false rest).1,
     (awaitHandshake_loop E deadline vmid false rest).2).
Proof.
  induction 1 as [|[now w] pre (Hs & Hn & Hv) _ IH]; cbn [app length replicate].
  - by destruct (awaitHandshake_loop _ _ _ _ rest).
  - cbn [awaitHandshake_loop]. cbn in Hs, Hn, Hv. rewrite Hs.
    destruct (Z.gtb_spec now deadline) as [?|_]; [lia|].
    rewrite Hv, bool_decide_eq_false_2 by (by intros [? ?]).
    rewrite IH. reflexivity.
Qed.




(** The watchdog of a new manager waits five seconds. *)
Lemma NewMachineManager_handshakeTimeout E config o m :
  NewMachineManager E config o = Ret (inl m) → handshakeTimeout m = 5 * Second.
Proof.
  unfold NewMachineManager. destruct (negb _); [done|].
  destruct (make_chan _); try done.
  repeat (destruct (Subscribe E ncInternal _); [done|]).
  destruct (hostServices_init E); [done|]. by intros [= <-].
Qed.

(** ** The handshake receiver *)

Lemma replies_app t1 t2 : replies (t1 ++ t2) = replies t1 ++ replies t2.
Proof. unfold replies. by rewrite flat_map_app. Qed.

(** C9. A handshake whose machine id is not registered is ignored: no
    reply is sent and the handshake table stays as it is.  The table
    changes only by the entry of a registered machine whose empty reply
    went out without error. *)
Theorem handleHandshake_registered_only (E : Env) (w : World) (msg : Msg)
    (now : string) :
  let req := (json_Unmarshal_HandshakeRequest E (Data msg)).1 in
  let w' := (handleHandshake E msg now w).1 in
  ((∀ id, MachineID req = Some id → allVMs w !! id = None) →
   handshakes w' = handshakes w ∧ replies (trace w') = replies (trace w))
  ∧ (handshakes w' = handshakes w
     ∨ ∃ id, MachineID req = Some id
             ∧ is_Some (allVMs w !! id)
             ∧ Respond E msg (json_Marshal_HandshakeResponse E) = None
             ∧ replies (trace w')
               = replies (trace w) ++ [(msg, json_Marshal_HandshakeResponse E)]
             ∧ handshakes w' = <[id := now]> (handshakes w)).
Proof.
  cbn zeta. unfold handleHandshake.
  destruct (json_Unmarshal_HandshakeRequest E (Data msg)) as [req err].
  cbn [fst]. destruct err as [e|]; run.
  - destruct (MachineID req) as [id|]; run; [|by split; [|left]].
    destruct (hs_Message req); run; cbn; rewrite ?replies_app, ?app_nil_r;
      by split; [|left].
  - destruct (MachineID req) as [id|]; run; [|by split; [|left]].
    destruct (hs_Message req) as [text|]; run; [|by split; [|left]].
    cbn [allVMs set_trace].
    destruct (allVMs w !! id) as [p|] eqn:Hp; run.
    + split; [intros Hno; specialize (Hno id eq_refl); congruence|].
      destruct (Respond E msg _) eqn:Hr; run; cbn.
      * by left.
      * right. exists id. rewrite !replies_app. cbn. rewrite app_nil_r.
        by eauto 10.
    + cbn. rewrite !replies_app. cbn. rewrite !app_nil_r. by split; [|left].
Qed.

(** A hello from [vm1] on a node that only knows [vm7]. *)
Lemma handleHandshake_registered_only_witness :
  let E := Sample.env (fun _ => inr (errors_New "unused")) (fun _ => false)
             Sample.accepted in
  let msg := mkMsg "agentint.handshake" "_INBOX.7" None (Sample.bytes "{}") in
  let w := set_allVMs (fun _ => {[ "vm7" := 0%nat ]}) Sample.node in
  let w' := (handleHandshake E msg "2024-01-01T00:00:00Z" w).1 in
  handshakes w' = handshakes w ∧ replies (trace w') = replies (trace w).
Proof.
  intros E msg w w'.
  apply (proj1 (handleHandshake_registered_only E w msg "2024-01-01T00:00:00Z")).
  intros id [= <-]. vm_compute. reflexivity.
Defined.

(** ** Namespace isolation of the stop handler *)

(** C6. A stop request that arrives under another namespace than the one
    the VM is bound to is answered with the same "No such workload"
    failure envelope as a request for an id that is not registered, and it
    leaves the manager as it was but for the trace: the VM record stays
    registered and deployed. *)
Theorem handleStop_namespace_isolation (E : Env)
    (stop : string -> M World (option error)) (w : World) (m : Msg)
    (ns : string) (request : StopRequest) (p : nat) (vm : runningFirecracker) :
  extractNamespace (Subject m) = inl ns →
  json_Unmarshal_StopRequest E (Data m) = inl request →
  allVMs w !! WorkloadId request = Some p →
  heap w !! p = Some vm →
  namespace vm ≠ ns →
  (∃ evs, handleStop E stop m w = (set_trace (fun t => t ++ evs) w, Ret tt)
          ∧ envelopes evs = [(m, no_such_workload E)])
  ∧ (∀ w0, allVMs w0 !! WorkloadId request = None →
       ∃ evs, handleStop E stop m w0 = (set_trace (fun t => t ++ evs) w0, Ret tt)
              ∧ envelopes evs = [(m, no_such_workload E)]).
Proof.
  intros Hns Hreq Hp Hvm Hne. split.
  - unfold handleStop, LookupMachine, respondFail. rewrite Hns, Hreq. run.
    rewrite Hp. run. rewrite Hvm. run.
    destruct (String.eqb_spec (namespace vm) ns) as [?|_]; [done|].
    cbn [negb]. run. rewrite set_trace_app. eauto.
  - intros w0 H0. unfold handleStop, LookupMachine, respondFail.
    rewrite Hns, Hreq. run. rewrite H0. run. rewrite set_trace_app. eauto.
Qed.

(** [vm1] is deployed in namespace [A]; the stop request comes in on the
    subject of namespace [B]. *)
Lemma handleStop_namespace_isolation_witness :
  let m := mkMsg "$NEX.STOP.B.NODE1" "_INBOX.2" None (Sample.bytes "{}") in
  ∃ evs, handleStop Sample.env_ok (fun id => StopMachine Sample.env_ok id true)
           m Sample.node_deployed
         = (set_trace (fun t => t ++ evs) Sample.node_deployed, Ret tt)
         ∧ envelopes evs = [(m, no_such_workload Sample.env_ok)].
Proof.
  intros m.
  refine (proj1 (handleStop_namespace_isolation Sample.env_ok _
                   Sample.node_deployed m "B" (mkStopRequest "vm1") 0%nat
                   Sample.vm1_deployed _ _ _ _ _)).
  - vm_compute; reflexivity.
  - reflexivity.
  - vm_compute; reflexivity.
  - vm_compute; reflexivity.
  - cbn. discriminate.
Defined.

(** ** The pool bound *)

Section Preserves.
Context (P : World -> Prop).

Lemma preserves_bind {A B} (c : M World A) (k : A -> M World B) :
  preserves P c → (∀ a, preserves P (k a)) → preserves P (c ≫= k).
Proof.
  intros Hc Hk w w' r. rewrite run_bind.
  destruct (c w) as [w1 [a| |]] eqn:Hcw; intros Hr Hw.
  - eapply Hk; eauto.
  - injection Hr as <- _. eauto.
  - injection Hr as <- _. eauto.
Qed.

Lemma preserves_ret {A} (a : A) : preserves P (mret a).
Proof. intros w w' r [= <- _]. done. Qed.

Lemma preserves_get : preserves P get.
Proof. intros w w' r [= <- _]. done. Qed.

Lemma preserves_panic {A} why : preserves P (panic (A := A) why).
Proof. intros w w' r [= <- _]. done. Qed.

Lemma preserves_block {A} on : preserves P (block (A := A) on).
Proof. intros w w' r [= <- _]. done. Qed.

Lemma preserves_deref {A} (o : option A) : preserves P (deref o).
Proof. destruct o; [apply preserves_ret | apply preserves_panic]. Qed.

Lemma preserves_modify (f : World -> World) :
  (∀ w, P w → P (f w)) → preserves P (modify f).
Proof. intros Hf w w' r [= <- _]. auto. Qed.

Lemma preserves_for_range {A R} (xs : list A) (body : A -> M World (option R)) :
  (∀ x, preserves P (body x)) → preserves P (for_range xs body).
Proof.
  intros Hb. induction xs as [|x xs IH]; cbn [for_range].
  - apply (preserves_ret (A := option R)).
  - change (bind ?c ?k) with (c ≫= k). apply preserves_bind; [apply Hb|].
    intros [v|]; [apply (preserves_ret (A := option R))|apply IH].
Qed.

Lemma preserves_for_each {A} (xs : list A) (body : A -> M World unit) :
  (∀ x, preserves P (body x)) → preserves P (for_each xs body).
Proof.
  intros Hb. unfold for_each. apply preserves_bind.
  - apply preserves_for_range. intros x. apply preserves_bind; [apply Hb|].
    intros _. apply preserves_ret.
  - intros _. apply preserves_ret.
Qed.

Lemma preserves_defer {A} (cleanup : World -> World) (body : M World A) :
  (∀ w, P w → P (cleanup w)) → preserves P body → preserves P (defer cleanup body).
Proof.
  intros Hc Hb w w' r. unfold defer.
  destruct (body w) as [w1 [a| |]] eqn:Hbw; intros [= <- _] Hw; eauto.
Qed.
End Preserves.

Lemma pool_bounded_framed f w : framed f → pool_bounded w → pool_bounded (f w).
Proof. intros Hf. unfold pool_bounded. by destruct (Hf w) as [-> ->]. Qed.

Ltac keep_pool := intros ? ?; apply pool_bounded_framed; [by intros ?|assumption].

Ltac preserve_by tac :=
  repeat first
    [ simple apply preserves_ret | simple apply preserves_get
    | simple apply preserves_panic | simple apply preserves_block
    | simple apply preserves_deref
    | simple apply preserves_modify; tac
    | simple apply preserves_defer; [tac|]
    | simple apply preserves_for_each; intros ?
    | simple apply preserves_for_range; intros ?
    | simple apply preserves_bind; [|intros ?]
    | match goal with
      | |- preserves _ (match ?x with _ => _ end) => destruct x
      end
    | progress unfold emit, log, counter_Add, load, store ].

Ltac preserve := preserve_by keep_pool.

Lemma StopMachine_pool E vmID undeploy :
  preserves pool_bounded (StopMachine E vmID undeploy).
Proof.
  unfold StopMachine, mutex_Lock, mutex_Unlock, drain_one, request_undeploy.
  preserve.
Qed.

Lemma DeployWorkload_pool E p request now :
  preserves pool_bounded (DeployWorkload E p request now).
Proof.
  unfold DeployWorkload, interpret_reply, deploy_counters, subscribe_one.
  preserve; apply StopMachine_pool.
Qed.

Lemma handleHandshake_pool E msg now :
  preserves pool_bounded (handleHandshake E msg now).
Proof. unfold handleHandshake. preserve. Qed.

Lemma inject_pool fields h : preserves pool_bounded (inject fields h).
Proof.
  revert h. induction fields as [|kv fields IH]; intros h; cbn [inject].
  - preserve.
  - unfold carrier_Set. preserve; apply IH.
Qed.

Lemma generateTriggerHandler_pool E p tsub request msg :
  preserves pool_bounded (generateTriggerHandler E p tsub request msg).
Proof.
  unfold generateTriggerHandler, relay_answer, Msg_Header_Add.
  preserve; apply inject_pool.
Qed.

Lemma handleStop_pool E msg :
  preserves pool_bounded (handleStop E (fun id => StopMachine E id true) msg).
Proof. unfold handleStop, respondFail. preserve; apply StopMachine_pool. Qed.

(** The channel operations keep the buffer within the capacity. *)
Lemma pool_send_pool p : preserves pool_bounded (pool_send p).
Proof.
  intros w w' r. unfold pool_send, chan_send. run.
  destruct (ch_closed (warmVMs w)); run; [by intros [= <- _]|].
  destruct (Nat.ltb_spec (length (ch_buf (warmVMs w))) (ch_cap (warmVMs w)));
    run; intros [= <- _]; [|done].
  unfold pool_bounded. cbn. rewrite length_app. cbn. lia.
Qed.

Lemma pool_receive_pool : preserves pool_bounded pool_receive.
Proof.
  intros w w' r. unfold pool_receive, chan_recv. run.
  destruct (ch_buf (warmVMs w)) as [|x rest] eqn:Hb; run.
  - destruct (ch_closed (warmVMs w)); run; intros [= <- _]; [|done].
    destruct w as [? ? ? []]; done.
  - intros [= <- _]. unfold pool_bounded. cbn. rewrite Hb. cbn. lia.
Qed.

Lemma close_pool_pool : preserves pool_bounded close_pool.
Proof.
  intros w w' r. unfold close_pool, chan_close. run.
  destruct (ch_closed (warmVMs w)); run; by intros [= <- _].
Qed.

Lemma cleanSockets_pool : preserves pool_bounded cleanSockets.
Proof. unfold cleanSockets. preserve. Qed.

Lemma Stop_pool E : preserves pool_bounded (Stop E).
Proof.
  unfold Stop. preserve;
    first [apply close_pool_pool | apply cleanSockets_pool | apply StopMachine_pool].
Qed.

Lemma Start_round_pool E r : preserves pool_bounded (Start_round E r).
Proof. unfold Start_round. preserve; apply pool_send_pool. Qed.

Lemma preserves_recover (P : World -> Prop) {A}
    (handler : string -> M World A) (body : M World A) :
  (∀ why, preserves P (handler why)) → preserves P body →
  preserves P (recover handler body).
Proof.
  intros Hh Hb w w' r. unfold recover.
  destruct (body w) as [w1 [a|why|on]] eqn:Hbw; intros Hr Hw.
  - injection Hr as <- _. eauto.
  - eapply Hh; eauto.
  - injection Hr as <- _. eauto.
Qed.

Lemma Start_loop_pool E rounds : preserves pool_bounded (Start_loop E rounds).
Proof.
  induction rounds as [|r rounds IH]; cbn [Start_loop].
  - apply preserves_ret.
  - apply preserves_bind; [apply Start_round_pool|].
    intros [|]; [apply preserves_ret|apply IH].
Qed.

Lemma Start_pool E reset rounds : preserves pool_bounded (Start E reset rounds).
Proof.
  unfold Start, resetCNI.
  apply preserves_bind; [preserve|]. intros _.
  apply preserves_recover; [intros why; preserve|].
  preserve; apply Start_loop_pool.
Qed.

Lemma perform_pool E o w : pool_bounded w → pool_bounded (perform E o w).
Proof.
  intros Hw.
  destruct o; cbn [perform];
    match goal with |- pool_bounded (?c w).1 =>
      destruct (c w) as [w1 out] eqn:Hc; cbn [fst]; revert Hc Hw
    end.
  - apply Start_pool.
  - apply Start_round_pool.
  - apply pool_send_pool.
  - apply pool_receive_pool.
  - apply Stop_pool.
  - apply StopMachine_pool.
  - apply DeployWorkload_pool.
  - apply handleHandshake_pool.
  - apply generateTriggerHandler_pool.
  - apply handleStop_pool.
Qed.

Lemma NewMachineManager_pool E config o m :
  NewMachineManager E config o = Ret (inl m) → pool_bounded m.
Proof.
  unfold NewMachineManager, make_chan. destruct (negb _); [done|].
  destruct (Z.ltb_spec (MachinePoolSize config) 0); [done|].
  repeat (destruct (Subscribe E ncInternal _); [done|]).
  destruct (hostServices_init E); [done|]. intros [= <-].
  unfold pool_bounded. cbn. lia.
Qed.

(** C5. The pool of a manager made by [NewMachineManager] never holds
    more records than the configured [MachinePoolSize], whatever
    operations run; at capacity a pass of the maintainer only sleeps and
    creates no VM; a send into the full (open) pool waits and leaves the
    pool as it is. *)
Theorem warm_pool_bound (E : Env) (cfg : NodeConfiguration) (o : OS)
    (m w : World) :
  NewMachineManager E cfg o = Ret (inl m) →
  reachable E m w →
  chan_len (warmVMs w) ≤ MachinePoolSize (config w)
  ∧ (∀ r, stopping w = false → ctx_done r = false →
          chan_len (warmVMs w) = MachinePoolSize (config w) →
          Start_round E r w
          = (set_trace (fun t => t ++ [EvSleep (runloopSleepInterval E)]) w,
             Ret Again))
  ∧ (∀ p, ch_closed (warmVMs w) = false →
          chan_len (warmVMs w) = MachinePoolSize (config w) →
          pool_send p w = (w, Blocked "chan send")).
Proof.
  intros Hm Hr.
  assert (Hb : pool_bounded w).
  { induction Hr; [by eapply NewMachineManager_pool|by apply perform_pool]. }
  destruct Hb as [Hlen Hcap]. unfold chan_len. split; [lia|]. split.
  - intros r Hs Hd Hfull. unfold Start_round. run. rewrite Hs, Hd.
    unfold chan_len. rewrite Hfull, Z.eqb_refl. by run.
  - intros p Hopen Hfull. unfold pool_send, chan_send. run. rewrite Hopen.
    destruct (Nat.ltb_spec (length (ch_buf (warmVMs w))) (ch_cap (warmVMs w)));
      [lia|by run].
Qed.

(** A new manager with room for one VM, after the pass of the maintainer
    that puts [vm1] into the pool. *)
Lemma warm_pool_bound_witness :
  let w := perform Sample.env_ok (OpStartRound Sample.round1) Sample.new_node in
  chan_len (warmVMs w) ≤ MachinePoolSize (config w)
  ∧ Start_round Sample.env_ok Sample.round1 w
    = (set_trace (fun t => t ++ [EvSleep (runloopSleepInterval Sample.env_ok)]) w,
       Ret Again)
  ∧ pool_send 1%nat w = (w, Blocked "chan send").
Proof.
  intros w.
  assert (Hnew : NewMachineManager Sample.env_ok Sample.config1 Sample.machine
                 = Ret (inl Sample.new_node)) by (vm_compute; reflexivity).
  destruct (warm_pool_bound Sample.env_ok Sample.config1 Sample.machine
              Sample.new_node w Hnew (reach_step _ _ _ _ (reach_start _ _)))
    as (Hle & Hsleep & Hblock).
  split; [exact Hle|]. split.
  - apply Hsleep; vm_compute; reflexivity.
  - apply Hblock; vm_compute; reflexivity.
Defined.


(** ** A stop that goes through, and the first half of a deploy *)

Lemma StopMachine_found E w vmID undeploy p vm wt vcpu mem :
  stoppable w vmID p vm wt vcpu mem →
  ∃ w', StopMachine E vmID undeploy w = (w', Ret None)
        ∧ allVMs w' = delete vmID (allVMs w)
        ∧ heap w' = heap w
        ∧ metrics w' = metrics w ++ stop_measures vm wt vcpu mem
        ∧ trace w' = trace w
                     ++ stop_events E vmID undeploy (default [] (vmsubz w !! vmID)) vm.
Proof.
  intros [Hp Hl Hh Hwt Hv Hm].
  unfold StopMachine, mutex_Lock, defer, request_undeploy. exec.
  rewrite Hp, Hl. cbn beta iota. rewrite for_each_drain.
  cbn [heap set_trace set_stopMutex]. rewrite Hh. cbn beta iota.
  unfold stop_events, stop_measures, undeploy_request.
  rewrite Hv, Hm.
  destruct (bool_decide (deployRequest vm ≠ None) && undeploy); cbn beta iota;
    try destruct (Request E ncInternal _ _); cbn beta iota;
    destruct (deployRequest vm) as [req|] eqn:Hreq; cbn beta iota;
    try rewrite (Hwt req eq_refl); cbn beta iota;
    (eexists; split; [reflexivity|]); cbn;
    rewrite <- ?app_assoc; cbn; done.
Qed.

Lemma set_heap_thrice p a b c e1 e2 w :
  set_trace (fun t => t ++ [e2])
    (set_heap (<[p := c]>) (set_heap (<[p := b]>) (set_heap (<[p := a]>)
       (set_trace (fun t => t ++ [e1]) w))))
  = set_trace (fun t => t ++ [e1; e2]) (set_heap (<[p := c]>) w).
Proof.
  destruct w; unfold set_trace, set_heap; cbn.
  by rewrite !insert_insert_eq, <- app_assoc.
Qed.

Lemma DeployWorkload_submit E w p request now vm payload ns :
  json_Marshal_DeployRequest E request = inl payload →
  heap w !! p = Some vm →
  Namespace request = Some ns →
  DeployWorkload E p request now w
  = interpret_reply E p (vmmID vm) request
      (Request E ncInternal (deploy_request (vmmID vm) payload) (1 * Second))
      (submitted E p request ns now vm payload w).
Proof.
  intros Hm Hh Hns. unfold DeployWorkload, store. rewrite Hm, Hns. exec.
  rewrite Hh. cbn [heap set_trace set_heap]. rewrite Hh. cbn beta iota.
  cbn [heap set_trace set_heap]. rewrite !lookup_insert_eq. cbn beta iota.
  cbn [heap set_trace set_heap]. rewrite !lookup_insert_eq. cbn beta iota.
  rewrite set_heap_thrice. reflexivity.
Qed.

(** ** Telemetry *)

Lemma counter_value_app i a ms1 ms2 :
  counter_value i a (ms1 ++ ms2) = counter_value i a ms1 + counter_value i a ms2.
Proof.
  unfold counter_value. induction ms1 as [|m ms1 IH]; cbn [app foldr]; [lia|].
  rewrite IH. destruct (decide _); lia.
Qed.

(** The attribute sets of the calls on the workload counter are told
    apart by their keys. *)
Lemma merge_attrs_type_ns_lookup wt ns :
  merge_attrs [[("workload_type", wt)]; [("namespace", ns)]] !! "namespace" = Some ns
  ∧ merge_attrs [[("workload_type", wt)]; [("namespace", ns)]] !! "workload_type"
    = Some wt.
Proof.
  unfold merge_attrs. cbn. split.
  - apply lookup_union_Some_l. by rewrite lookup_insert_eq.
  - rewrite lookup_union_r by (by rewrite lookup_insert_ne).
    apply lookup_union_Some_l. by rewrite lookup_insert_eq.
Qed.

Lemma merge_attrs_type_lookup wt :
  merge_attrs [[("workload_type", wt)]] !! "namespace" = None.
Proof.
  unfold merge_attrs. cbn. apply lookup_union_None. by split.
Qed.

Lemma counter_value_hit i a d ms :
  counter_value i a (mkMeasure i d a :: ms) = d + counter_value i a ms.
Proof. unfold counter_value. cbn. by rewrite decide_True. Qed.

Lemma counter_value_other_instr i j a b d ms :
  j ≠ i → counter_value i a (mkMeasure j d b :: ms) = counter_value i a ms.
Proof. intros H. unfold counter_value. cbn. by rewrite decide_False by (by intros [? _]). Qed.

Lemma counter_value_other_attrs i j a b d ms :
  b ≠ a → counter_value i a (mkMeasure j d b :: ms) = counter_value i a ms.
Proof. intros H. unfold counter_value. cbn. by rewrite decide_False by (by intros [_ ?]). Qed.

(** A stop of a deployed VM takes one off the workload counter of its
    type and namespace. *)
Lemma stop_measures_workload vm req wt vcpu mem :
  deployRequest vm = Some req →
  counter_value workloadCounter
    (merge_attrs [[("workload_type", wt)]; [("namespace", namespace vm)]])
    (stop_measures vm wt vcpu mem) = -1.
Proof.
  intros Hreq. unfold stop_measures. rewrite Hreq. cbn [app].
  rewrite counter_value_other_attrs.
  2:{ intros H. pose proof (merge_attrs_type_lookup wt) as H1. rewrite H in H1.
      by rewrite (proj1 (merge_attrs_type_ns_lookup wt (namespace vm))) in H1. }
  rewrite counter_value_hit.
  rewrite !counter_value_other_instr by discriminate. reflexivity.
Qed.

(** ** Deploying a workload *)

Lemma subscribed_fields vmid wt subs w :
  allVMs (subscribed vmid wt subs w) = allVMs w
  ∧ stopMutex (subscribed vmid wt subs w) = stopMutex w
  ∧ heap (subscribed vmid wt subs w) = heap w
  ∧ metrics (subscribed vmid wt subs w) = metrics w
  ∧ ∃ evs, trace (subscribed vmid wt subs w) = trace w ++ evs.
Proof.
  revert w. induction subs as [|s subs IH]; intros w; cbn [subscribed].
  - repeat split; try done. exists []. by rewrite app_nil_r.
  - destruct (IH (set_vmsubz
                    (fun m => <[vmid := default [] (m !! vmid) ++ [mkSub s]]> m)
                    (set_trace (fun t => t ++ subscribed_events vmid wt s) w)))
      as (-> & -> & -> & -> & evs & ->).
    repeat split; try done. cbn. rewrite <- app_assoc. eauto.
Qed.

Lemma for_range_subscribed E vmid request wt subs w :
  WorkloadType request = Some wt →
  Forall (fun s => Subscribe E nc s = None) subs →
  for_range subs (subscribe_one E vmid request) w
  = (subscribed vmid wt subs w, Ret None).
Proof.
  intros Hwt Hok. revert w.
  induction Hok as [|s subs Hs _ IH]; intros w; cbn [for_range subscribed].
  - reflexivity.
  - unfold subscribe_one at 1. rewrite Hs, Hwt. exec.
    rewrite set_trace_app. apply IH.
Qed.

Lemma for_range_refused E vmid request wt pre tsub post err w :
  WorkloadType request = Some wt →
  Forall (fun s => Subscribe E nc s = None) pre →
  Subscribe E nc tsub = Some err →
  for_range (pre ++ tsub :: post) (subscribe_one E vmid request) w
  = match StopMachine E vmid true
            (set_trace (fun t => t ++ refused_events vmid wt tsub err)
               (subscribed vmid wt pre w)) with
    | (w', Ret _) => (w', Ret (Some err))
    | (w', Panic why) => (w', Panic why)
    | (w', Blocked on) => (w', Blocked on)
    end.
Proof.
  intros Hwt Hok Hno. revert w.
  induction Hok as [|s subs Hs _ IH]; intros w;
    cbn [for_range subscribed app].
  - unfold subscribe_one at 1. rewrite Hno, Hwt. exec.
    rewrite set_trace_app.
    by destruct (StopMachine E vmid true _) as [w' [r| |]].
  - unfold subscribe_one at 1. rewrite Hs, Hwt. exec.
    rewrite set_trace_app. apply IH.
Qed.

Lemma submitted_stoppable E w p vm request ns now payload wt vcpu mem :
  allVMs w !! vmmID vm = Some p →
  stopMutex w !! vmmID vm = Some false →
  WorkloadType request = Some wt →
  VcpuCount vm = Some vcpu →
  MemSizeMib vm = Some mem →
  stoppable (submitted E p request ns now vm payload w) (vmmID vm) p
    (bound_vm request ns now vm) wt vcpu mem.
Proof.
  intros Hp Hl Hwt Hv Hm. split; cbn; try done.
  - apply lookup_insert_eq.
  - by intros req [= <-].
Qed.

Lemma stoppable_frame w w' vmID p vm wt vcpu mem :
  allVMs w' = allVMs w → stopMutex w' = stopMutex w → heap w' = heap w →
  stoppable w vmID p vm wt vcpu mem → stoppable w' vmID p vm wt vcpu mem.
Proof.
  intros H1 H2 H3 [? ? ? ? ? ?]. split; try done.
  - by rewrite H1.
  - by rewrite H2.
  - by rewrite H3.
Qed.

(** C3 (the code departs from it). A deploy that the agent accepted and in
    which the subscription to a trigger subject fails stops the VM with
    undeploy and returns the error of the subscription, and the stop
    takes one off the workload counter of the workload's type and
    namespace, to which the deploy has not added yet: the counter ends
    one below its value before the deploy. *)
Theorem DeployWorkload_failed_subscription (E : Env) (w : World) (p : nat)
    (vm : runningFirecracker) (request : DeployRequest) (now : Z)
    (payload : Bytes) (ns wt : string) (vcpu mem : Z) (resp : Msg)
    (reply : DeployResponse) (pre post : list string) (tsub : string)
    (err : error) :
  json_Marshal_DeployRequest E request = inl payload →
  heap w !! p = Some vm →
  allVMs w !! vmmID vm = Some p →
  stopMutex w !! vmmID vm = Some false →
  VcpuCount vm = Some vcpu →
  MemSizeMib vm = Some mem →
  Namespace request = Some ns →
  WorkloadType request = Some wt →
  Request E ncInternal (deploy_request (vmmID vm) payload) (1 * Second) = inl resp →
  json_Unmarshal_DeployResponse E (Data resp) = inl reply →
  Accepted reply = true →
  SupportsTriggerSubjects E request = true →
  TriggerSubjects request = pre ++ tsub :: post →
  Forall (fun s => Subscribe E nc s = None) pre →
  Subscribe E nc tsub = Some err →
  ∃ w', DeployWorkload E p request now w = (w', Ret (Some err))
        ∧ allVMs w' !! vmmID vm = None
        ∧ In (undeploy_request (vmmID vm)) (trace w')
        ∧ counter_value workloadCounter
            (merge_attrs [[("workload_type", wt)]; [("namespace", ns)]]) (metrics w')
          = counter_value workloadCounter
              (merge_attrs [[("workload_type", wt)]; [("namespace", ns)]]) (metrics w)
            - 1.
Proof.
  intros Hm Hh Hp Hl Hv Hmem Hns Hwt Hans Hun Hacc Hsup Hsubs Hpre Herr.
  rewrite (DeployWorkload_submit E w p request now vm payload ns) by done.
  unfold interpret_reply. rewrite Hans, Hun, Hacc, Hsup, Hsubs. exec.
  rewrite (for_range_refused E (vmmID vm) request wt pre tsub post err) by done.
  set (w1 := submitted E p request ns now vm payload w).
  set (w2 := set_trace _ (subscribed (vmmID vm) wt pre w1)).
  destruct (subscribed_fields (vmmID vm) wt pre w1) as (Ha & Hs & Hhp & Hme & _).
  assert (Hstop : stoppable w2 (vmmID vm) p (bound_vm request ns now vm) wt vcpu mem).
  { eapply stoppable_frame; [..|by apply (submitted_stoppable E w p vm request ns now payload)];
      subst w2; cbn; done. }
  destruct (StopMachine_found E w2 (vmmID vm) true p _ wt vcpu mem Hstop)
    as (w' & -> & Hall & _ & Hmet & Htr).
  exists w'. split; [done|]. split; [|split].
  - rewrite Hall. apply lookup_delete_eq.
  - rewrite Htr. apply in_or_app. right. unfold stop_events. right.
    apply in_or_app. right. apply in_or_app. left. cbn. by left.
  - rewrite Hmet. subst w2. cbn [metrics set_trace]. rewrite Hme. subst w1.
    cbn [metrics submitted set_trace set_heap].
    rewrite counter_value_app.
    pose proof (stop_measures_workload (bound_vm request ns now vm) request
                  wt vcpu mem eq_refl) as Hone.
    change (namespace (bound_vm request ns now vm)) with ns in Hone.
    rewrite Hone. lia.
Qed.

(** Scenario S4: the subscription to [t.b] fails on the sample node. *)
Lemma DeployWorkload_failed_subscription_witness :
  ∃ w', DeployWorkload Sample.env_tb 0%nat Sample.request 7 Sample.node_taken
        = (w', Ret (Some (errors_New "nats: invalid subject")))
        ∧ allVMs w' !! "vm1" = None
        ∧ In (undeploy_request "vm1") (trace w')
        ∧ counter_value workloadCounter
            (merge_attrs [[("workload_type", "v8")]; [("namespace", "ns")]])
            (metrics w')
          = counter_value workloadCounter
              (merge_attrs [[("workload_type", "v8")]; [("namespace", "ns")]])
              (metrics Sample.node_taken)
            - 1.
Proof.
  apply (DeployWorkload_failed_subscription Sample.env_tb Sample.node_taken 0%nat
           Sample.vm1 Sample.request 7 (Sample.bytes "{}") "ns" "v8" 1 256
           (mkMsg "_INBOX.1" "" None (Sample.bytes "{}"))
           (mkDeployResponse true None) ["t.a"] [] "t.b"
           (errors_New "nats: invalid subject"));
    try (vm_compute; reflexivity).
  repeat constructor.
Defined.

Lemma set_metrics_app l1 l2 w :
  set_metrics (fun ms => ms ++ l2) (set_metrics (fun ms => ms ++ l1) w)
  = set_metrics (fun ms => ms ++ (l1 ++ l2)) w.
Proof. destruct w; unfold set_metrics; cbn. by rewrite <- app_assoc. Qed.

Lemma deploy_counters_run p request w vm req wt vcpu mem :
  heap w !! p = Some vm →
  deployRequest vm = Some req →
  WorkloadType req = Some wt →
  VcpuCount vm = Some vcpu →
  MemSizeMib vm = Some mem →
  deploy_counters p request w
  = (set_metrics (fun ms => ms ++ deploy_measures request (namespace vm) wt vcpu mem) w,
     Ret tt).
Proof.
  intros Hh Hreq Hwt Hv Hm. unfold deploy_counters. exec.
  rewrite Hh. cbn beta iota. rewrite Hreq. cbn beta iota. rewrite Hwt, Hv, Hm.
  cbn beta iota. rewrite !set_metrics_app. reflexivity.
Qed.

Lemma drain_events_no_request E vmID subs c m t :
  ¬ In (EvRequest c m t) (drain_events E vmID subs).
Proof.
  unfold drain_events. induction subs as [|s subs IH]; cbn [flat_map]; [by intros []|].
  intros [H|H]; [discriminate|]. apply in_app_or in H as [H|H]; [|done].
  apply in_app_or in H as [H|H].
  - destruct (Drain E s); [destruct H as [H|[]]; discriminate|destruct H].
  - destruct H as [H|[]]; discriminate.
Qed.

(** A stop without undeploy sends no request to the agent. *)
Lemma stop_events_no_request E vmID subs vm c m t :
  ¬ In (EvRequest c m t) (stop_events E vmID false subs vm).
Proof.
  unfold stop_events. rewrite andb_false_r. cbn [app].
  intros [H|H]; [discriminate|]. apply in_app_or in H as [H|H].
  - by apply drain_events_no_request in H.
  - destruct H as [H|[H|[]]]; discriminate.
Qed.

(** C4 (as amended). How [DeployWorkload] reads the reply of the agent,
    for a VM that is registered with a free lock and a request with
    namespace and type.  A reply with [accepted=false] that carries a
    message stops the VM without undeploy (no request goes to the agent)
    and returns an error that quotes the agent's message.  A reply with
    [accepted=true] whose trigger subscriptions (if the workload supports
    triggers) all go through returns nil and leaves the VM registered
    with the request bound to its record.  What a deploy request without
    reply returns is not part of this statement. *)
Theorem DeployWorkload_interprets_reply (E : Env) (w : World) (p : nat)
    (vm : runningFirecracker) (request : DeployRequest) (now : Z)
    (payload : Bytes) (ns wt : string) (vcpu mem : Z) :
  json_Marshal_DeployRequest E request = inl payload →
  heap w !! p = Some vm →
  allVMs w !! vmmID vm = Some p →
  stopMutex w !! vmmID vm = Some false →
  VcpuCount vm = Some vcpu →
  MemSizeMib vm = Some mem →
  Namespace request = Some ns →
  WorkloadType request = Some wt →
  let answer := Request E ncInternal (deploy_request (vmmID vm) payload) (1 * Second) in
  let w1 := submitted E p request ns now vm payload w in
  (∀ resp reply text,
       answer = inl resp →
       json_Unmarshal_DeployResponse E (Data resp) = inl reply →
       Accepted reply = false →
       Message reply = Some text →
       ∃ w2, StopMachine E (vmmID vm) false w1 = (w2, Ret None)
             ∧ DeployWorkload E p request now w
               = (w2, Ret (Some (errors_New ("workload rejected by agent: " +:+ text))))
             ∧ allVMs w2 !! vmmID vm = None
             ∧ ∃ evs, trace w2 = trace w1 ++ evs
                      ∧ ∀ c m t, ¬ In (EvRequest c m t) evs)
  ∧ (∀ resp reply,
       answer = inl resp →
       json_Unmarshal_DeployResponse E (Data resp) = inl reply →
       Accepted reply = true →
       (SupportsTriggerSubjects E request = true →
        Forall (fun s => Subscribe E nc s = None) (TriggerSubjects request)) →
       ∃ w', DeployWorkload E p request now w = (w', Ret None)
             ∧ allVMs w' = allVMs w
             ∧ heap w' = <[p := bound_vm request ns now vm]> (heap w)).
Proof.
  intros Hm Hh Hp Hl Hv Hmem Hns Hwt answer w1.
  rewrite (DeployWorkload_submit E w p request now vm payload ns) by done.
  fold answer w1. unfold interpret_reply.
  assert (Hstop : stoppable w1 (vmmID vm) p (bound_vm request ns now vm) wt vcpu mem)
    by (by apply submitted_stoppable).
  split.
  - intros resp reply text -> Hun Hacc Htext. rewrite Hun, Hacc, Htext.
    destruct (StopMachine_found E w1 (vmmID vm) false p _ wt vcpu mem Hstop)
      as (w2 & Hrun & Hall & _ & _ & Htr).
    exists w2. split; [done|]. exec. rewrite Hrun. cbn beta iota.
    split; [done|]. split; [rewrite Hall; apply lookup_delete_eq|].
    eexists. split; [exact Htr|]. intros c m t. apply stop_events_no_request.
  - intros resp reply -> Hun Hacc Hsub. rewrite Hun, Hacc. exec.
    set (w3 := if SupportsTriggerSubjects E request
               then subscribed (vmmID vm) wt (TriggerSubjects request) w1 else w1).
    assert (Hloop : (if SupportsTriggerSubjects E request
                     then for_range (TriggerSubjects request)
                            (subscribe_one E (vmmID vm) request)
                     else fun s => (s, Ret None)) w1 = (w3, Ret None)).
    { subst w3. destruct (SupportsTriggerSubjects E request); [|done].
      apply for_range_subscribed; auto. }
    assert (Hsame : allVMs w3 = allVMs w1 ∧ heap w3 = heap w1).
    { subst w3. destruct (SupportsTriggerSubjects E request); [|done].
      by destruct (subscribed_fields (vmmID vm) wt (TriggerSubjects request) w1)
        as (? & _ & ? & _). }
    destruct Hsame as [Ha3 Hh3]. rewrite Hloop. cbn beta iota.
    rewrite (deploy_counters_run p request w3 (bound_vm request ns now vm)
               request wt vcpu mem); try done.
    + eexists. split; [reflexivity|]. cbn. by rewrite Hh3, Ha3.
    + rewrite Hh3. cbn. apply lookup_insert_eq.
Qed.

(** The agent rejects the workload on the sample node. *)
Lemma DeployWorkload_interprets_reply_witness :
  ∃ w2, DeployWorkload Sample.env_rejected 0%nat Sample.request 7 Sample.node_taken
        = (w2, Ret (Some (errors_New "workload rejected by agent: bad workload")))
        ∧ allVMs w2 !! "vm1" = None.
Proof.
  destruct (DeployWorkload_interprets_reply Sample.env_rejected Sample.node_taken
              0%nat Sample.vm1 Sample.request 7 (Sample.bytes "{}") "ns" "v8" 1 256)
    as (Hrejected & _); try (vm_compute; reflexivity).
  destruct (Hrejected (mkMsg "_INBOX.1" "" None (Sample.bytes "{}"))
              (mkDeployResponse false (Some "bad workload")) "bad workload")
    as (w2 & _ & Hrun & Hgone & _); try (vm_compute; reflexivity).
  exists w2. split; [exact Hrun|exact Hgone].
Defined.

(** C4 as stated fails: a reply with [accepted=true] does not leave the
    VM deployed when a trigger subscription fails afterwards.  On the
    sample node the agent accepts, the subscription to [t.b] is refused,
    and the deploy returns the error of the subscription with the VM gone
    from the registry. *)
Lemma DeployWorkload_reply_counterexample :
  Request Sample.env_tb ncInternal (deploy_request "vm1" (Sample.bytes "{}"))
    (1 * Second)
  = inl (mkMsg "_INBOX.1" "" None (Sample.bytes "{}"))
  ∧ json_Unmarshal_DeployResponse Sample.env_tb (Sample.bytes "{}")
    = inl (mkDeployResponse true None)
  ∧ (DeployWorkload Sample.env_tb 0%nat Sample.request 7 Sample.node_taken).2
    = Ret (Some (errors_New "nats: invalid subject"))
  ∧ allVMs (DeployWorkload Sample.env_tb 0%nat Sample.request 7 Sample.node_taken).1
      !! "vm1" = None.
Proof. vm_compute. repeat split. Qed.

(** ** The trigger router *)

Lemma requests_app t1 t2 : requests (t1 ++ t2) = requests t1 ++ requests t2.
Proof. unfold requests. by rewrite flat_map_app. Qed.

Ltac quiet :=
  intros ? Hq; cbn; rewrite ?requests_app; cbn; rewrite ?app_nil_r; exact Hq.

Lemma relay_answer_quiet E p tsub request msg answer L :
  preserves (fun w => requests (trace w) = L) (relay_answer E p tsub request msg answer).
Proof. unfold relay_answer. preserve_by quiet. Qed.

Lemma inject_run fields h (w : World) :
  inject fields (Some h) w = (w, Ret (Some (injected fields h))).
Proof.
  revert h. induction fields as [|kv fields IH]; intros h; cbn [inject injected foldl].
  - reflexivity.
  - unfold carrier_Set. exec. apply IH.
Qed.

Lemma yields_bind {A B} (c : M World A) (k : A -> M World B) Q :
  (∀ a, yields (k a) Q) → yields (c ≫= k) Q.
Proof.
  intros Hk w w' b. rewrite run_bind.
  destruct (c w) as [w1 [a| |]]; [apply Hk|done|done].
Qed.

Lemma yields_ret {A} (a : A) (Q : A -> Prop) : Q a → yields (mret a) Q.
Proof. by intros Ha w w' b [= _ <-]. Qed.

Lemma relay_answer_yields E p tsub request msg answer :
  yields (relay_answer E p tsub request msg answer) (fun left => left = msg).
Proof.
  unfold relay_answer.
  repeat first
    [ simple apply yields_ret; reflexivity
    | simple apply yields_bind; intros ?
    | match goal with
      | |- yields (match ?x with _ => _ end) _ => destruct x
      end ].
Qed.

(** C7 (the code departs from it). The internal request of the trigger
    handler carries the payload of the inbound message and the header
    [x-nex-trigger-subject] with its subject, and nothing else: what the
    propagator injects for the span goes into the header map of the
    inbound message, not into the internal one. *)
Theorem generateTriggerHandler_forwards (E : Env) (w : World) (p : nat)
    (vm : runningFirecracker) (tsub name : string) (request : DeployRequest)
    (msg : Msg) (h : Header) :
  heap w !! p = Some vm →
  WorkloadName request = Some name →
  Header_of msg = Some h →
  let w' := (generateTriggerHandler E p tsub request msg w).1 in
  let r := (generateTriggerHandler E p tsub request msg w).2 in
  requests (trace w')
  = requests (trace w)
    ++ [(ncInternal, trigger_request (vmmID vm) msg, Millisecond * 10000)]
  ∧ ∀ left, r = Ret left →
      Header_of left = Some (injected (Inject E (child_span E)) h)
      ∧ Data left = Data msg.
Proof.
  intros Hh Hname Hhdr. cbn zeta.
  unfold generateTriggerHandler, defer, Msg_Header_Add. rewrite Hname. exec.
  rewrite Hh. cbn beta iota. cbn [Header_of NewMsg set_Data]. cbn beta iota.
  rewrite Hhdr, inject_run. cbn beta iota.
  destruct (relay_answer E p tsub request _ _ _) as [w2 r2] eqn:Hrel.
  pose proof (relay_answer_quiet E p tsub request _ _ _ _ _ _ Hrel eq_refl) as Hq.
  cbn in Hq. rewrite !requests_app in Hq. cbn in Hq. rewrite !app_nil_r in Hq.
  assert (Hmsg : trigger_request (vmmID vm) msg
                 = set_Header (Some (Header_Add ∅ nexTriggerSubject (Subject msg)))
                     (set_Data (Data msg)
                        (NewMsg ("agentint." +:+ vmmID vm +:+ ".trigger")))).
  { unfold trigger_request, set_Header, set_Data, NewMsg, Header_Add. cbn.
    by rewrite lookup_empty, insert_empty. }
  rewrite Hmsg. split.
  - destruct r2; cbn; rewrite ?requests_app; cbn; rewrite ?app_nil_r; exact Hq.
  - intros left Hleft. destruct r2 as [m| |]; cbn in Hleft; try discriminate.
    injection Hleft as ->.
    apply (relay_answer_yields E p tsub request) in Hrel as ->. by cbn.
Qed.

(** A trigger on [t.a] for the deployed [vm1]; the propagator of the
    sample writes a [Traceparent] field. *)
Lemma generateTriggerHandler_forwards_witness :
  let msg := mkMsg "t.a" "_INBOX.3" (Some ∅) (Sample.bytes "ping") in
  let run := generateTriggerHandler Sample.env_ok 0%nat "t.a" Sample.request msg
               Sample.node_deployed in
  requests (trace run.1)
  = [(ncInternal,
      mkMsg "agentint.vm1.trigger" ""
        (Some {[ "x-nex-trigger-subject" := ["t.a"] ]}) (Sample.bytes "ping"),
      Millisecond * 10000)]
  ∧ ∀ left, run.2 = Ret left →
      Header_of left
      = Some {[ "Traceparent" := ["00-4bf92f3577b34da6a3ce929d0e0e4736-01"] ]}
      ∧ Data left = Sample.bytes "ping".
Proof.
  intros msg run.
  apply (generateTriggerHandler_forwards Sample.env_ok Sample.node_deployed 0%nat
           Sample.vm1_deployed "t.a" "echo" Sample.request msg ∅);
    vm_compute; reflexivity.
Defined.

(** An inbound message without a header map: the propagator's write hits
    the nil map and the handler panics before anything is sent to the
    agent. *)
Example generateTriggerHandler_nil_header :
  let msg := mkMsg "t.a" "_INBOX.3" None (Sample.bytes "ping") in
  let run := generateTriggerHandler Sample.env_ok 0%nat "t.a" Sample.request msg
               Sample.node_deployed in
  run.2 = Panic "assignment to entry in nil map" ∧ requests (trace run.1) = [].
Proof. vm_compute. split; reflexivity. Qed.

(** ** Manager shutdown and socket cleanup *)

(** The second and later calls of [Stop] do nothing but count: as long as
    the 32-bit counter has not wrapped, the body is skipped and nil is
    returned. *)
Lemma Stop_again_noop E w :
  1 ≤ closing w < 2 ^ 32 - 1 →
  Stop E w = (set_closing (fun c => wrapu32 (c + 1)) w, Ret None).
Proof.
  intros Hc. unfold Stop. run. cbn [closing set_closing]. unfold wrapu32.
  rewrite Z.mod_small by lia.
  destruct (Z.eqb_spec (closing w + 1) 1) as [?|_]; [lia|]. by run.
Qed.

(** The first call runs the body: the pool is closed and every registered
    VM is stopped. *)
Example Stop_first_runs_body :
  let w' := (Stop Sample.env_ok Sample.node).1 in
  closing w' = 1 ∧ ch_closed (warmVMs w') = true ∧ allVMs w' = ∅
  ∧ In (EvShutdown "vm1") (trace w').
Proof. vm_compute. repeat split; auto 10. Qed.

(** The sample process has pid 42, works in [/root] and has its socket in
    the temp directory [/tmp].  [cleanSockets] finds the socket by its
    name and then removes the relative path [tmp/<name>], which names
    nothing under [/root]: the socket is still in [/tmp] afterwards.  When
    the working directory is the root, the relative path does reach
    [/tmp], and then a file whose name only contains the pattern is
    removed as well. *)
Example cleanSockets_on_sample :
  let socket := ".firecracker.sock-42-abc" in
  let w := Sample.node in
  let w' := (cleanSockets w).1 in
  let at_root :=
    set_os (fun _ => mkOS {[ "/tmp" := ["keep.firecracker.sock-42-x"; socket] ]}
                       "/" "/tmp" 42) w in
  TempDir (os w) = "/tmp" ∧ Getpid (os w) = 42
  ∧ fs (os w) !! "/tmp" = Some [socket; "other.txt"]
  ∧ fs (os w') !! "/tmp" = Some [socket; "other.txt"]
  ∧ fs (os (cleanSockets at_root).1) !! "/tmp" = Some [].
Proof. vm_compute. repeat split. Qed.

Lemma path_split_plain d :
  Contains d "/" = false → path_split d = (None, d).
Proof.
  induction d as [|c d IH]; [done|]. cbn [Contains HasPrefix].
  destruct (Ascii.eqb_spec "/" c) as [<-|Hc].
  - by destruct d.
  - intros Hd. cbn [path_split]. rewrite (IH Hd).
    destruct (Ascii.eqb_spec c "/") as [->|_]; [done|reflexivity].
Qed.

Lemma path_split_cons a rest :
  path_split (String a rest)
  = match path_split rest with
    | (Some d, base) => (Some (String a d), base)
    | (None, base) =>
        if Ascii.eqb a "/"%char then (Some "", base) else (None, String a base)
    end.
Proof. reflexivity. Qed.

Lemma path_split_tmp d :
  d ≠ "" → Contains d "/" = false →
  path_split (path_Join ["tmp"; d]) = (Some "tmp", d).
Proof.
  intros Hne Hd. destruct d as [|c d]; [done|].
  change (path_Join ["tmp"; String c d]) with ("tmp/" +:+ String c d).
  pose proof (path_split_plain (String c d) Hd) as Hplain.
  set (name := String c d) in *. cbv [String.append].
  rewrite !path_split_cons, Hplain. reflexivity.
Qed.

Lemma os_Remove_other name o dir :
  resolve_dir o (path_split name).1 ≠ dir →
  fs (os_Remove name o) !! dir = fs o !! dir
  ∧ cwd (os_Remove name o) = cwd o
  ∧ TempDir (os_Remove name o) = TempDir o
  ∧ Getpid (os_Remove name o) = Getpid o.
Proof.
  intros Hne. unfold os_Remove. destruct (path_split name) as [d base]. cbn in *.
  by rewrite lookup_alter_ne.
Qed.

Lemma preserves_for_each_Forall (P : World -> Prop) {A} (xs : list A)
    (body : A -> M World unit) :
  Forall (fun x => preserves P (body x)) xs → preserves P (for_each xs body).
Proof.
  intros Hb. unfold for_each. apply preserves_bind; [|intros _; apply preserves_ret].
  induction Hb as [|x xs Hx _ IH]; cbn [for_range].
  - apply (preserves_ret P (A := option Empty_set)).
  - change (bind ?c ?k) with (c ≫= k). apply preserves_bind.
    + apply preserves_bind; [exact Hx|]. intros _. apply preserves_ret.
    + intros [[]|]. apply IH.
Qed.

(** C8 (the code departs from it). [cleanSockets] removes nothing from
    the temp directory unless the relative directory [tmp] of the working
    directory happens to be the temp directory: otherwise the sockets of
    the process stay where they are. *)
Theorem cleanSockets_misses_temp_dir (w : World) (names : list string) :
  fs (os w) !! TempDir (os w) = Some names →
  Forall (fun d => Contains d "/" = false) names →
  relative_tmp (os w) ≠ TempDir (os w) →
  fs (os (cleanSockets w).1) !! TempDir (os w) = Some names.
Proof.
  intros Hdir Hnames Hrel.
  set (P := fun w0 : World =>
              fs (os w0) !! TempDir (os w) = Some names
              ∧ relative_tmp (os w0) = relative_tmp (os w)).
  unfold cleanSockets, ReadDir. rewrite run_bind, run_get. cbn beta iota.
  rewrite Hdir, run_bind, run_ret. cbn beta iota.
  match goal with
  | |- fs (os (?c w).1) !! _ = _ =>
      destruct (c w) as [w' r] eqn:Hrun;
      assert (Hkeep : preserves P c); [|by destruct (Hkeep w w' r Hrun)]
  end.
  clear Hrun. apply preserves_for_each_Forall.
  eapply Forall_impl; [exact Hnames|]. intros d Hd. cbn beta.
  apply preserves_bind; [apply preserves_get|]. intros w0.
  destruct (Contains d _) eqn:Hmatch; [|apply preserves_ret].
  apply preserves_modify. intros w1 [Hfs Hsame].
  assert (Hd0 : d ≠ "") by (by intros ->).
  unfold P. cbn [os set_os].
  destruct (os_Remove_other (path_Join ["tmp"; d]) (os w1) (TempDir (os w)))
    as (-> & Hcwd & _).
  { rewrite path_split_tmp by done. cbn [fst]. fold (relative_tmp (os w1)).
    by rewrite Hsame. }
  split; [done|]. unfold relative_tmp, resolve_dir in *. by rewrite Hcwd.
Qed.

(** The sample process works in [/root]; its socket is in [/tmp]. *)
Lemma cleanSockets_misses_temp_dir_witness :
  fs (os (cleanSockets Sample.node).1) !! "/tmp"
  = Some [".firecracker.sock-42-abc"; "other.txt"].
Proof.
  apply (cleanSockets_misses_temp_dir Sample.node
           [".firecracker.sock-42-abc"; "other.txt"]).
  - vm_compute; reflexivity.
  - repeat constructor.
  - vm_compute. discriminate.
Defined.

(** * Further properties *)

(** ** What a stop does *)

Lemma drained_app t1 t2 : drained (t1 ++ t2) = drained t1 ++ drained t2.
Proof. unfold drained. by rewrite flat_map_app. Qed.

Lemma shutdowns_app t1 t2 : shutdowns (t1 ++ t2) = shutdowns t1 ++ shutdowns t2.
Proof. unfold shutdowns. by rewrite flat_map_app. Qed.

Lemma machine_stops_app t1 t2 :
  machine_stops (t1 ++ t2) = machine_stops t1 ++ machine_stops t2.
Proof. unfold machine_stops. by rewrite flat_map_app. Qed.

Lemma drain_events_readings E vmID subs :
  drained (drain_events E vmID subs) = subs
  ∧ shutdowns (drain_events E vmID subs) = []
  ∧ machine_stops (drain_events E vmID subs) = []
  ∧ requests (drain_events E vmID subs) = [].
Proof.
  induction subs as [|s subs (IH1 & IH2 & IH3 & IH4)]; [done|].
  change (drain_events E vmID (s :: subs))
    with ((EvDrain s
           :: match Drain E s with
              | Some err =>
                  [EvLog LWarn
                     ("failed to drain subscription to subject " +:+ sub_Subject s
                      +:+ " associated with vm " +:+ vmID +:+ ": " +:+ Error err) []]
              | None => []
              end
           ++ [EvLog LDebug ("drained subscription to subject " +:+ sub_Subject s
                             +:+ " associated with vm " +:+ vmID) []])
          ++ drain_events E vmID subs).
  rewrite drained_app, shutdowns_app, machine_stops_app, requests_app.
  rewrite IH1, IH2, IH3, IH4. by destruct (Drain E s).
Qed.

Lemma stop_events_readings E vmID undeploy subs vm :
  drained (stop_events E vmID undeploy subs vm) = subs
  ∧ shutdowns (stop_events E vmID undeploy subs vm) = [vmmID vm]
  ∧ machine_stops (stop_events E vmID undeploy subs vm) = [vmmID vm]
  ∧ requests (stop_events E vmID undeploy subs vm)
    = if bool_decide (deployRequest vm ≠ None) && undeploy
      then [(ncInternal, mkMsg ("agentint." +:+ vmmID vm +:+ ".undeploy") "" None [],
             500 * Millisecond)]
      else [].
Proof.
  destruct (drain_events_readings E vmID subs) as (H1 & H2 & H3 & H4).
  unfold stop_events.
  change (?e :: ?l1 ++ ?l2 ++ ?l3) with ([e] ++ l1 ++ l2 ++ l3).
  rewrite !drained_app, !shutdowns_app, !machine_stops_app, !requests_app.
  rewrite H1, H2, H3, H4.
  destruct (bool_decide (deployRequest vm ≠ None) && undeploy);
    [destruct (Request E ncInternal _ _)|]; cbn; by rewrite ?app_nil_r.
Qed.

Lemma envelopes_app t1 t2 : envelopes (t1 ++ t2) = envelopes t1 ++ envelopes t2.
Proof. apply flat_map_app. Qed.

(** A stop sends no envelope of the control API. *)
Lemma stop_events_envelopes E vmID undeploy subs vm :
  envelopes (stop_events E vmID undeploy subs vm) = [].
Proof.
  assert (Hd : envelopes (drain_events E vmID subs) = []).
  { induction subs as [|s subs IH]; [done|].
    change (drain_events E vmID (s :: subs))
      with ((EvDrain s
             :: match Drain E s with
                | Some err =>
                    [EvLog LWarn
                       ("failed to drain subscription to subject " +:+ sub_Subject s
                        +:+ " associated with vm " +:+ vmID +:+ ": " +:+ Error err) []]
                | None => []
                end
             ++ [EvLog LDebug ("drained subscription to subject " +:+ sub_Subject s
                               +:+ " associated with vm " +:+ vmID) []])
            ++ drain_events E vmID subs).
    rewrite envelopes_app, IH. by destruct (Drain E s). }
  unfold stop_events.
  change (?e :: ?l1 ++ ?l2 ++ ?l3) with ([e] ++ l1 ++ l2 ++ l3).
  rewrite !envelopes_app, Hd.
  destruct (bool_decide (deployRequest vm ≠ None) && undeploy);
    [destruct (Request E ncInternal _ _)|]; done.
Qed.

Lemma alter_delete_insert {A} (f : A -> A) (k : string) (x : A) (m : gmap string A) :
  alter f k (delete k (<[k := x]> m)) = delete k m.
Proof.
  apply map_eq. intros i. destruct (decide (i = k)) as [->|Hne].
  - by rewrite lookup_alter_eq, !lookup_delete_eq.
  - by rewrite lookup_alter_ne, !lookup_delete_ne, lookup_insert_ne.
Qed.

Lemma world_eq (w1 w2 : World) :
  closing w1 = closing w2 → config w1 = config w2 → allVMs w1 = allVMs w2 →
  warmVMs w1 = warmVMs w2 → handshakes w1 = handshakes w2 →
  handshakeTimeout w1 = handshakeTimeout w2 → stopMutex w1 = stopMutex w2 →
  vmsubz w1 = vmsubz w2 → heap w1 = heap w2 → metrics w1 = metrics w2 →
  trace w1 = trace w2 → os w1 = os w2 → w1 = w2.
Proof. destruct w1, w2; cbn; intros; by subst. Qed.

Lemma StopMachine_stopped E w vmID undeploy p vm wt vcpu mem :
  stoppable w vmID p vm wt vcpu mem →
  StopMachine E vmID undeploy w
  = (stopped E vmID undeploy vm wt vcpu mem w, Ret None).
Proof.
  intros [Hp Hl Hh Hwt Hv Hm].
  unfold StopMachine, mutex_Lock, defer, request_undeploy. exec.
  rewrite Hp, Hl. cbn beta iota. rewrite for_each_drain.
  cbn [heap set_trace set_stopMutex]. rewrite Hh. cbn beta iota.
  unfold stopped, stop_events, stop_measures, undeploy_request, mutex_Unlock.
  rewrite Hv, Hm.
  destruct (bool_decide (deployRequest vm ≠ None) && undeploy); cbn beta iota;
    try destruct (Request E ncInternal _ _); cbn beta iota;
    destruct (deployRequest vm) as [req|] eqn:Hreq; cbn beta iota;
    try rewrite (Hwt req eq_refl); cbn beta iota;
    (f_equal; apply world_eq;
     cbn [closing config allVMs warmVMs handshakes handshakeTimeout stopMutex
            vmsubz heap metrics trace os set_stopMutex set_metrics set_trace
            set_allVMs set_vmsubz];
     rewrite ?alter_delete_insert, <- ?app_assoc; reflexivity).
Qed.

(** X1. A stop of a registered VM goes through whatever the drains and
    the undeploy request answer: it returns nil, the VM is gone from the
    registry, the lock map and the subscription map, each of its
    subscriptions has been drained once, in the order they were made, and
    the hypervisor shutdown and the "machine stopped" event have happened
    once. *)
Theorem StopMachine_teardown (E : Env) (w : World) (vmID : string)
    (undeploy : bool) (p : nat) (vm : runningFirecracker) (wt : string)
    (vcpu mem : Z) :
  stoppable w vmID p vm wt vcpu mem →
  ∃ w', StopMachine E vmID undeploy w = (w', Ret None)
        ∧ allVMs w' = delete vmID (allVMs w)
        ∧ stopMutex w' = delete vmID (stopMutex w)
        ∧ vmsubz w' = delete vmID (vmsubz w)
        ∧ heap w' = heap w
        ∧ drained (trace w') = drained (trace w) ++ default [] (vmsubz w !! vmID)
        ∧ shutdowns (trace w') = shutdowns (trace w) ++ [vmmID vm]
        ∧ machine_stops (trace w') = machine_stops (trace w) ++ [vmmID vm].
Proof.
  intros Hs. eexists. split; [by apply (StopMachine_stopped E w vmID undeploy p)|].
  destruct (stop_events_readings E vmID undeploy (default [] (vmsubz w !! vmID)) vm)
    as (H1 & H2 & H3 & _).
  cbn [stopped allVMs stopMutex vmsubz heap trace].
  rewrite drained_app, shutdowns_app, machine_stops_app, H1, H2, H3. done.
Qed.

(** [vm1] of the sample node, with a subscription whose drain fails and an
    agent that does not answer the undeploy request. *)
Lemma StopMachine_teardown_witness :
  ∃ w', StopMachine More.env_deaf "vm1" true More.node_subscribed = (w', Ret None)
        ∧ allVMs w' = delete "vm1" (allVMs More.node_subscribed)
        ∧ stopMutex w' = delete "vm1" (stopMutex More.node_subscribed)
        ∧ vmsubz w' = delete "vm1" (vmsubz More.node_subscribed)
        ∧ heap w' = heap More.node_subscribed
        ∧ drained (trace w') = [mkSub "t.a"; mkSub "t.b"]
        ∧ shutdowns (trace w') = ["vm1"]
        ∧ machine_stops (trace w') = ["vm1"].
Proof.
  apply (StopMachine_teardown More.env_deaf More.node_subscribed "vm1" true 0%nat
           Sample.vm1_deployed "v8" 1 256).
  split; try (vm_compute; reflexivity).
  intros req [= <-]. reflexivity.
Defined.

(** X2. A stop sends the undeploy request, once, with an empty body on
    [agentint.<vmid>.undeploy], exactly when it is asked to undeploy and
    the VM has a request bound; a warm VM is never sent one. *)
Theorem StopMachine_undeploy_request (E : Env) (w : World) (vmID : string)
    (undeploy : bool) (p : nat) (vm : runningFirecracker) (wt : string)
    (vcpu mem : Z) :
  stoppable w vmID p vm wt vcpu mem →
  requests (trace (StopMachine E vmID undeploy w).1)
  = requests (trace w)
    ++ (if bool_decide (deployRequest vm ≠ None) && undeploy
        then [(ncInternal,
               mkMsg ("agentint." +:+ vmmID vm +:+ ".undeploy") "" None [],
               500 * Millisecond)]
        else []).
Proof.
  intros Hs. rewrite (StopMachine_stopped E w vmID undeploy p vm wt vcpu mem Hs).
  destruct (stop_events_readings E vmID undeploy (default [] (vmsubz w !! vmID)) vm)
    as (_ & _ & _ & H4).
  cbn [fst stopped trace]. by rewrite requests_app, H4.
Qed.

(** The warm [vm1] of the sample node is stopped with undeploy asked for:
    nothing is sent to the agent. *)
Lemma StopMachine_undeploy_request_witness :
  requests (trace (StopMachine Sample.env_ok "vm1" true Sample.node).1) = [].
Proof.
  rewrite (StopMachine_undeploy_request Sample.env_ok Sample.node "vm1" true 0%nat
             Sample.vm1 "" 1 256).
  - reflexivity.
  - split; try (vm_compute; reflexivity). intros req [=].
Defined.

(** ** Telemetry over a deploy and a stop *)

Lemma counter_value_cons i a m ms :
  counter_value i a (m :: ms)
  = (if decide (instr m = i ∧ attrs m = a) then delta m else 0) + counter_value i a ms.
Proof. unfold counter_value. cbn [foldr]. destruct (decide _); lia. Qed.

Lemma wrap64_neg z : negatable z → wrap64 (z * -1) = - z.
Proof.
  unfold negatable, wrap64. intros Hz.
  rewrite Z.mod_small by lia. lia.
Qed.

(** The two orders in which the deploy and the stop give the namespace
    and the workload type make the same attribute set. *)
Lemma merge_attrs_swap ns wt :
  merge_attrs [[("namespace", ns)]; [("workload_type", wt)]]
  = merge_attrs [[("workload_type", wt)]; [("namespace", ns)]].
Proof.
  unfold merge_attrs. cbn [foldl].
  change (list_to_map [("namespace", ns)]) with (<["namespace" := ns]> (∅ : gmap string string)).
  change (list_to_map [("workload_type", wt)])
    with (<["workload_type" := wt]> (∅ : gmap string string)).
  rewrite !(right_id_L ∅ (∪)).
  apply map_union_comm. apply map_disjoint_insert_l_2; [|apply map_disjoint_empty_l].
  by apply lookup_insert_None.
Qed.

Lemma DeployWorkload_deployed E w p vm request now payload ns wt vcpu mem resp reply :
  json_Marshal_DeployRequest E request = inl payload →
  heap w !! p = Some vm →
  VcpuCount vm = Some vcpu →
  MemSizeMib vm = Some mem →
  Namespace request = Some ns →
  WorkloadType request = Some wt →
  Request E ncInternal (deploy_request (vmmID vm) payload) (1 * Second) = inl resp →
  json_Unmarshal_DeployResponse E (Data resp) = inl reply →
  Accepted reply = true →
  (SupportsTriggerSubjects E request = true →
   Forall (fun s => Subscribe E nc s = None) (TriggerSubjects request)) →
  DeployWorkload E p request now w
  = (deployed E p request ns now vm payload wt vcpu mem w, Ret None).
Proof.
  intros Hm Hh Hv Hmem Hns Hwt Hans Hun Hacc Hsub.
  rewrite (DeployWorkload_submit E w p request now vm payload ns) by done.
  unfold interpret_reply, deployed. rewrite Hans, Hun, Hacc. exec.
  set (w1 := submitted E p request ns now vm payload w).
  set (w3 := if SupportsTriggerSubjects E request
             then subscribed (vmmID vm) wt (TriggerSubjects request) w1 else w1).
  assert (Hloop : (if SupportsTriggerSubjects E request
                   then for_range (TriggerSubjects request)
                          (subscribe_one E (vmmID vm) request)
                   else fun s => (s, Ret None)) w1 = (w3, Ret None)).
  { subst w3. destruct (SupportsTriggerSubjects E request); [|done].
    apply for_range_subscribed; auto. }
  assert (Hh3 : heap w3 = heap w1).
  { subst w3. destruct (SupportsTriggerSubjects E request); [|done].
    by destruct (subscribed_fields (vmmID vm) wt (TriggerSubjects request) w1)
      as (_ & _ & ? & _). }
  rewrite Hloop. cbn beta iota.
  rewrite (deploy_counters_run p request w3 (bound_vm request ns now vm)
             request wt vcpu mem); try done.
  rewrite Hh3. cbn. apply lookup_insert_eq.
Qed.

Lemma deployed_fields E p request ns now vm payload wt vcpu mem w :
  allVMs (deployed E p request ns now vm payload wt vcpu mem w) = allVMs w
  ∧ stopMutex (deployed E p request ns now vm payload wt vcpu mem w) = stopMutex w
  ∧ heap (deployed E p request ns now vm payload wt vcpu mem w)
    = <[p := bound_vm request ns now vm]> (heap w)
  ∧ metrics (deployed E p request ns now vm payload wt vcpu mem w)
    = metrics w ++ deploy_measures request ns wt vcpu mem.
Proof.
  unfold deployed. destruct (SupportsTriggerSubjects E request); [|done].
  destruct (subscribed_fields (vmmID vm) wt (TriggerSubjects request)
              (submitted E p request ns now vm payload w)) as (Ha & Hs & Hh & Hm & _).
  cbn [allVMs stopMutex heap metrics set_metrics]. by rewrite Ha, Hs, Hh, Hm.
Qed.

(** What a deploy and the stop after it add up to on every instrument
    but the VM counter. *)
Lemma deploy_stop_measures_cancel request ns now vm wt vcpu mem i a :
  i ≠ vmCounter →
  negatable (TotalBytes request) → negatable vcpu → negatable mem →
  counter_value i a
    (deploy_measures request ns wt vcpu mem
     ++ stop_measures (bound_vm request ns now vm) wt vcpu mem) = 0.
Proof.
  intros Hi Hb Hv Hm. unfold deploy_measures, stop_measures.
  cbn [deployRequest namespace bound_vm set_workloadStarted set_namespace
         set_deployRequest app].
  rewrite !wrap64_neg by done. rewrite merge_attrs_swap.
  rewrite !counter_value_cons. cbn [instr attrs delta counter_value foldr].
  rewrite (decide_False (P := vmCounter = i ∧ _)) by (by intros [? _]).
  repeat match goal with
         | |- context [decide ?P] => destruct (decide P)
         end; lia.
Qed.

(** X3. A deploy that succeeds and the stop of the VM after it cancel
    on the telemetry: both return no error, every instrument but the VM
    counter is, under every attribute set, back at its value before the
    deploy, and the VM counter is one below.  The stop negates the byte,
    vCPU and memory figures in 64 bits, so they must not be the least
    64-bit integer. *)
Theorem deploy_then_stop_balances E w p vm request now payload ns wt vcpu mem
    resp reply undeploy :
  json_Marshal_DeployRequest E request = inl payload →
  allVMs w !! vmmID vm = Some p →
  stopMutex w !! vmmID vm = Some false →
  heap w !! p = Some vm →
  VcpuCount vm = Some vcpu →
  MemSizeMib vm = Some mem →
  Namespace request = Some ns →
  WorkloadType request = Some wt →
  Request E ncInternal (deploy_request (vmmID vm) payload) (1 * Second) = inl resp →
  json_Unmarshal_DeployResponse E (Data resp) = inl reply →
  Accepted reply = true →
  (SupportsTriggerSubjects E request = true →
   Forall (fun s => Subscribe E nc s = None) (TriggerSubjects request)) →
  negatable (TotalBytes request) → negatable vcpu → negatable mem →
  let w1 := (DeployWorkload E p request now w).1 in
  let w2 := (StopMachine E (vmmID vm) undeploy w1).1 in
  (DeployWorkload E p request now w).2 = Ret None
  ∧ (StopMachine E (vmmID vm) undeploy w1).2 = Ret None
  ∧ (∀ i a, i ≠ vmCounter →
            counter_value i a (metrics w2) = counter_value i a (metrics w))
  ∧ counter_value vmCounter (merge_attrs []) (metrics w2)
    = counter_value vmCounter (merge_attrs []) (metrics w) - 1.
Proof.
  intros Hm Hp Hl Hh Hv Hmem Hns Hwt Hans Hun Hacc Hsub Hb Hnv Hnm.
  rewrite (DeployWorkload_deployed E w p vm request now payload ns wt vcpu mem
             resp reply) by done.
  cbn [fst snd].
  destruct (deployed_fields E p request ns now vm payload wt vcpu mem w)
    as (Ha & Hs & Hhp & Hms).
  assert (Hstop : stoppable (deployed E p request ns now vm payload wt vcpu mem w)
                    (vmmID vm) p (bound_vm request ns now vm) wt vcpu mem).
  { split; try done.
    - by rewrite Ha.
    - by rewrite Hs.
    - rewrite Hhp. apply lookup_insert_eq.
    - by intros req [= <-]. }
  rewrite (StopMachine_stopped E _ (vmmID vm) undeploy p
             (bound_vm request ns now vm) wt vcpu mem Hstop).
  cbn [fst snd stopped metrics]. rewrite Hms, <- app_assoc.
  repeat split; try done.
  - intros i a Hi. rewrite counter_value_app.
    rewrite (deploy_stop_measures_cancel request ns now vm wt vcpu mem i a) by done.
    lia.
  - rewrite !counter_value_app. unfold deploy_measures, stop_measures.
    cbn [deployRequest bound_vm set_workloadStarted set_namespace
           set_deployRequest app].
    repeat first
      [ rewrite counter_value_other_instr by done
      | rewrite counter_value_hit ].
    cbn [counter_value foldr]. lia.
Qed.

Lemma deploy_then_stop_balances_witness :
  counter_value allocatedVCPUCounter (merge_attrs [[("namespace", "ns")]])
    (metrics (StopMachine Sample.env_ok "vm1" true
                (DeployWorkload Sample.env_ok 0%nat Sample.request 7
                   Sample.node_taken).1).1) = 0.
Proof.
  refine (proj1 (proj2 (proj2
    (deploy_then_stop_balances Sample.env_ok Sample.node_taken 0%nat Sample.vm1
       Sample.request 7 (Sample.bytes "{}") "ns" "v8" 1 256
       (mkMsg "_INBOX.1" "" None (Sample.bytes "{}")) (mkDeployResponse true None)
       true eq_refl eq_refl eq_refl eq_refl eq_refl eq_refl eq_refl eq_refl
       eq_refl eq_refl eq_refl _ _ _ _))) allocatedVCPUCounter _ _).
  - intros _. repeat constructor.
  - unfold negatable. cbn. lia.
  - unfold negatable. lia.
  - unfold negatable. lia.
  - done.
Defined.

(** X4. The stop of a VM to which no workload was deployed leaves the
    workload and byte counters as they are, and takes the VM's vCPUs and
    memory off the allocation counters, to which only a deploy adds. *)
Theorem StopMachine_warm_counters E w vmID undeploy p vm wt vcpu mem :
  stoppable w vmID p vm wt vcpu mem →
  deployRequest vm = None →
  negatable vcpu → negatable mem →
  let w' := (StopMachine E vmID undeploy w).1 in
  (∀ a, counter_value workloadCounter a (metrics w')
        = counter_value workloadCounter a (metrics w))
  ∧ (∀ a, counter_value deployedByteCounter a (metrics w')
          = counter_value deployedByteCounter a (metrics w))
  ∧ counter_value vmCounter (merge_attrs []) (metrics w')
    = counter_value vmCounter (merge_attrs []) (metrics w) - 1
  ∧ counter_value allocatedVCPUCounter (merge_attrs []) (metrics w')
    = counter_value allocatedVCPUCounter (merge_attrs []) (metrics w) - vcpu
  ∧ counter_value allocatedMemoryCounter (merge_attrs []) (metrics w')
    = counter_value allocatedMemoryCounter (merge_attrs []) (metrics w) - mem.
Proof.
  intros Hs Hd Hv Hm.
  rewrite (StopMachine_stopped E w vmID undeploy p vm wt vcpu mem Hs).
  cbn [fst stopped metrics]. unfold stop_measures. rewrite Hd.
  cbn [app]. rewrite !wrap64_neg by done.
  assert (Hne : merge_attrs [[("namespace", namespace vm)]] ≠ merge_attrs []).
  { unfold merge_attrs. cbn [foldl].
    change (list_to_map [("namespace", namespace vm)])
      with (<["namespace" := namespace vm]> (∅ : gmap string string)).
    rewrite (right_id_L ∅ (∪)). apply insert_non_empty. }
  repeat split; intros; rewrite counter_value_app;
    repeat first
      [ rewrite counter_value_other_instr by done
      | rewrite counter_value_other_attrs by done
      | rewrite counter_value_hit ];
    cbn [counter_value foldr]; lia.
Qed.

Lemma StopMachine_warm_counters_witness :
  counter_value allocatedVCPUCounter (merge_attrs [])
    (metrics (StopMachine Sample.env_ok "vm1" false Sample.node).1) = -1.
Proof.
  refine (proj1 (proj2 (proj2 (proj2
    (StopMachine_warm_counters Sample.env_ok Sample.node "vm1" false 0%nat
       Sample.vm1 "v8" 1 256 _ eq_refl _ _))))).
  - split; try done. 
  - unfold negatable. lia.
  - unfold negatable. lia.
Defined.

(** ** Trigger subscriptions of a deploy *)

Lemma subscriptions_app t1 t2 :
  subscriptions (t1 ++ t2) = subscriptions t1 ++ subscriptions t2.
Proof. apply flat_map_app. Qed.

Lemma subscribed_vmsubz vmid wt subs w :
  default [] (vmsubz (subscribed vmid wt subs w) !! vmid)
  = default [] (vmsubz w !! vmid) ++ map mkSub subs
  ∧ (∀ k, k ≠ vmid → vmsubz (subscribed vmid wt subs w) !! k = vmsubz w !! k)
  ∧ subscriptions (trace (subscribed vmid wt subs w))
    = subscriptions (trace w) ++ map (pair nc) subs
  ∧ drained (trace (subscribed vmid wt subs w)) = drained (trace w).
Proof.
  revert w. induction subs as [|s subs IH]; intros w; cbn [subscribed map].
  - by rewrite !app_nil_r.
  - destruct (IH (set_vmsubz
                    (fun m => <[vmid := default [] (m !! vmid) ++ [mkSub s]]> m)
                    (set_trace (fun t => t ++ subscribed_events vmid wt s) w)))
      as (-> & Hk & -> & ->).
    cbn [vmsubz trace set_vmsubz set_trace].
    rewrite lookup_insert_eq, subscriptions_app, drained_app. cbn [default].
    change (id ?x) with x. rewrite <- !app_assoc. split; [done|]. split; [|split].
    + intros k Hne. rewrite Hk by done. cbn [vmsubz set_vmsubz set_trace].
      by rewrite lookup_insert_ne.
    + done.
    + cbn. by rewrite app_nil_r.
Qed.

Lemma deployed_vmsubz E p request ns now vm payload wt vcpu mem w :
  let w' := deployed E p request ns now vm payload wt vcpu mem w in
  default [] (vmsubz w' !! vmmID vm)
  = default [] (vmsubz w !! vmmID vm) ++ map mkSub (triggers E request)
  ∧ (∀ k, k ≠ vmmID vm → vmsubz w' !! k = vmsubz w !! k)
  ∧ subscriptions (trace w')
    = subscriptions (trace w) ++ map (pair nc) (triggers E request)
  ∧ drained (trace w') = drained (trace w).
Proof.
  unfold deployed, triggers.
  destruct (SupportsTriggerSubjects E request).
  - destruct (subscribed_vmsubz (vmmID vm) wt (TriggerSubjects request)
                (submitted E p request ns now vm payload w)) as (H1 & H2 & H3 & H4).
    cbn [vmsubz trace set_metrics]. rewrite H1, H3, H4.
    unfold submitted. cbn [vmsubz trace set_trace set_heap].
    rewrite subscriptions_app, drained_app. cbn. rewrite !app_nil_r.
    repeat split; try done.
  - unfold submitted. cbn [vmsubz trace set_metrics set_trace set_heap map].
    rewrite subscriptions_app, drained_app. cbn. by rewrite !app_nil_r.
Qed.

(** X5. A deploy that succeeds subscribes on the public bus to the
    trigger subjects of the request, in their order and to nothing else,
    and appends the subscriptions to those kept for the VM; a workload
    that does not support triggers gets none.  The subscriptions kept for
    other VMs stay as they are. *)
Theorem DeployWorkload_registers_triggers E w p vm request now payload ns wt
    vcpu mem resp reply :
  json_Marshal_DeployRequest E request = inl payload →
  heap w !! p = Some vm →
  VcpuCount vm = Some vcpu →
  MemSizeMib vm = Some mem →
  Namespace request = Some ns →
  WorkloadType request = Some wt →
  Request E ncInternal (deploy_request (vmmID vm) payload) (1 * Second) = inl resp →
  json_Unmarshal_DeployResponse E (Data resp) = inl reply →
  Accepted reply = true →
  (SupportsTriggerSubjects E request = true →
   Forall (fun s => Subscribe E nc s = None) (TriggerSubjects request)) →
  let w' := (DeployWorkload E p request now w).1 in
  default [] (vmsubz w' !! vmmID vm)
  = default [] (vmsubz w !! vmmID vm) ++ map mkSub (triggers E request)
  ∧ (∀ k, k ≠ vmmID vm → vmsubz w' !! k = vmsubz w !! k)
  ∧ subscriptions (trace w')
    = subscriptions (trace w) ++ map (pair nc) (triggers E request).
Proof.
  intros Hm Hh Hv Hmem Hns Hwt Hans Hun Hacc Hsub.
  rewrite (DeployWorkload_deployed E w p vm request now payload ns wt vcpu mem
             resp reply) by done.
  cbn [fst].
  destruct (deployed_vmsubz E p request ns now vm payload wt vcpu mem w)
    as (H1 & H2 & H3 & _).
  done.
Qed.

Lemma DeployWorkload_registers_triggers_witness :
  default [] (vmsubz (DeployWorkload Sample.env_ok 0%nat Sample.request 7
                        Sample.node_taken).1 !! "vm1")
  = [mkSub "t.a"; mkSub "t.b"].
Proof.
  exact (proj1
    (DeployWorkload_registers_triggers Sample.env_ok Sample.node_taken 0%nat
       Sample.vm1 Sample.request 7 (Sample.bytes "{}") "ns" "v8" 1 256
       (mkMsg "_INBOX.1" "" None (Sample.bytes "{}")) (mkDeployResponse true None)
       eq_refl eq_refl eq_refl eq_refl eq_refl eq_refl eq_refl eq_refl eq_refl
       (fun _ => ltac:(repeat constructor)))).
Defined.

(** X6. Every trigger subscription that a deploy made is drained by the
    stop of the VM: after a deploy that succeeds and the stop after it,
    the subscriptions drained are those the VM had before the deploy and
    then those of the deploy, in order, and none is kept for the VM. *)
Theorem deploy_then_stop_drains E w p vm request now payload ns wt vcpu mem
    resp reply undeploy :
  json_Marshal_DeployRequest E request = inl payload →
  allVMs w !! vmmID vm = Some p →
  stopMutex w !! vmmID vm = Some false →
  heap w !! p = Some vm →
  VcpuCount vm = Some vcpu →
  MemSizeMib vm = Some mem →
  Namespace request = Some ns →
  WorkloadType request = Some wt →
  Request E ncInternal (deploy_request (vmmID vm) payload) (1 * Second) = inl resp →
  json_Unmarshal_DeployResponse E (Data resp) = inl reply →
  Accepted reply = true →
  (SupportsTriggerSubjects E request = true →
   Forall (fun s => Subscribe E nc s = None) (TriggerSubjects request)) →
  let w1 := (DeployWorkload E p request now w).1 in
  let w2 := (StopMachine E (vmmID vm) undeploy w1).1 in
  drained (trace w2)
  = drained (trace w) ++ default [] (vmsubz w !! vmmID vm)
    ++ map mkSub (triggers E request)
  ∧ vmsubz w2 !! vmmID vm = None.
Proof.
  intros Hm Hp Hl Hh Hv Hmem Hns Hwt Hans Hun Hacc Hsub.
  rewrite (DeployWorkload_deployed E w p vm request now payload ns wt vcpu mem
             resp reply) by done.
  cbn [fst].
  destruct (deployed_fields E p request ns now vm payload wt vcpu mem w)
    as (Ha & Hs & Hhp & Hms).
  destruct (deployed_vmsubz E p request ns now vm payload wt vcpu mem w)
    as (H1 & _ & _ & H4).
  assert (Hstop : stoppable (deployed E p request ns now vm payload wt vcpu mem w)
                    (vmmID vm) p (bound_vm request ns now vm) wt vcpu mem).
  { split; try done.
    - by rewrite Ha.
    - by rewrite Hs.
    - rewrite Hhp. apply lookup_insert_eq.
    - by intros req [= <-]. }
  rewrite (StopMachine_stopped E _ (vmmID vm) undeploy p
             (bound_vm request ns now vm) wt vcpu mem Hstop).
  cbn [fst stopped trace vmsubz]. split; [|apply lookup_delete_eq].
  rewrite drained_app.
  rewrite (proj1 (stop_events_readings E (vmmID vm) undeploy _ _)).
  cbv zeta in H1, H4. by rewrite H1, H4.
Qed.

Lemma deploy_then_stop_drains_witness :
  drained (trace (StopMachine Sample.env_ok "vm1" true
                    (DeployWorkload Sample.env_ok 0%nat Sample.request 7
                       Sample.node_taken).1).1)
  = [mkSub "t.a"; mkSub "t.b"].
Proof.
  exact (proj1
    (deploy_then_stop_drains Sample.env_ok Sample.node_taken 0%nat
       Sample.vm1 Sample.request 7 (Sample.bytes "{}") "ns" "v8" 1 256
       (mkMsg "_INBOX.1" "" None (Sample.bytes "{}")) (mkDeployResponse true None)
       true eq_refl eq_refl eq_refl eq_refl eq_refl eq_refl eq_refl eq_refl
       eq_refl eq_refl eq_refl (fun _ => ltac:(repeat constructor)))).
Defined.

(** ** Deploys that end early *)

(** X7. The nil pointers of a deploy.  A request without namespace makes
    the deploy panic after it has bound the request to the VM record and
    before anything is sent to the agent.  A rejection that carries no
    message makes it panic after the VM was stopped: the VM is gone from
    the registry and its hypervisor shut down, and the caller gets no
    error value. *)
Theorem DeployWorkload_nil_pointers E w p vm request now payload :
  json_Marshal_DeployRequest E request = inl payload →
  heap w !! p = Some vm →
  (Namespace request = None →
   ∃ w', DeployWorkload E p request now w = (w', Panic nil_dereference)
         ∧ heap w' !! p = Some (set_deployRequest (Some request) vm)
         ∧ requests (trace w') = requests (trace w))
  ∧ (∀ ns wt vcpu mem resp reply,
       Namespace request = Some ns →
       WorkloadType request = Some wt →
       allVMs w !! vmmID vm = Some p →
       stopMutex w !! vmmID vm = Some false →
       VcpuCount vm = Some vcpu →
       MemSizeMib vm = Some mem →
       Request E ncInternal (deploy_request (vmmID vm) payload) (1 * Second)
       = inl resp →
       json_Unmarshal_DeployResponse E (Data resp) = inl reply →
       Accepted reply = false →
       Message reply = None →
       ∃ w', DeployWorkload E p request now w = (w', Panic nil_dereference)
             ∧ allVMs w' !! vmmID vm = None
             ∧ shutdowns (trace w') = shutdowns (trace w) ++ [vmmID vm]).
Proof.
  intros Hm Hh. split.
  - intros Hns. unfold DeployWorkload, store. rewrite Hm, Hns. exec.
    rewrite Hh. cbn [heap set_trace set_heap]. rewrite Hh. cbn beta iota.
    eexists. split; [reflexivity|]. cbn [heap trace set_trace set_heap].
    split; [apply lookup_insert_eq|].
    rewrite requests_app. cbn. by rewrite app_nil_r.
  - intros ns wt vcpu mem resp reply Hns Hwt Hp Hl Hv Hmem Hans Hun Hacc Hmsg.
    rewrite (DeployWorkload_submit E w p request now vm payload ns) by done.
    unfold interpret_reply. rewrite Hans, Hun, Hacc.
    pose proof (submitted_stoppable E w p vm request ns now payload wt vcpu mem
                  Hp Hl Hwt Hv Hmem) as Hstop.
    rewrite !run_bind.
    rewrite (StopMachine_stopped E _ (vmmID vm) false p
               (bound_vm request ns now vm) wt vcpu mem Hstop).
    rewrite Hmsg. exec. eexists. split; [reflexivity|].
    cbn [allVMs trace stopped]. split; [apply lookup_delete_eq|].
    rewrite shutdowns_app, (proj1 (proj2 (stop_events_readings E _ _ _ _))).
    unfold submitted. cbn [trace set_trace set_heap bound_vm vmmID
                             set_workloadStarted set_namespace set_deployRequest].
    rewrite shutdowns_app. cbn. by rewrite app_nil_r.
Qed.

Lemma DeployWorkload_nil_pointers_witness :
  ∃ w', DeployWorkload Sample.env_ok 0%nat
          (mkDeployRequest None (Some "v8") (Some "echo") [] 1024) 7 Sample.node_taken
        = (w', Panic nil_dereference)
        ∧ heap w' !! 0%nat
          = Some (set_deployRequest
                    (Some (mkDeployRequest None (Some "v8") (Some "echo") [] 1024))
                    Sample.vm1)
        ∧ requests (trace w') = requests (trace Sample.node_taken).
Proof.
  exact (proj1 (DeployWorkload_nil_pointers Sample.env_ok Sample.node_taken 0%nat
                  Sample.vm1 (mkDeployRequest None (Some "v8") (Some "echo") [] 1024)
                  7 (Sample.bytes "{}") eq_refl eq_refl) eq_refl).
Defined.

(** X8. A reply of the agent that cannot be decoded makes the deploy
    return the decoder's error and nothing more: the VM stays registered
    with the request bound to its record, no hypervisor is shut down, no
    trigger subject subscribed, and the telemetry is as before. *)
Theorem DeployWorkload_undecodable_reply E w p vm request now payload ns resp err :
  json_Marshal_DeployRequest E request = inl payload →
  heap w !! p = Some vm →
  Namespace request = Some ns →
  Request E ncInternal (deploy_request (vmmID vm) payload) (1 * Second) = inl resp →
  json_Unmarshal_DeployResponse E (Data resp) = inr err →
  let w' := (DeployWorkload E p request now w).1 in
  (DeployWorkload E p request now w).2 = Ret (Some err)
  ∧ allVMs w' = allVMs w
  ∧ heap w' !! p = Some (bound_vm request ns now vm)
  ∧ shutdowns (trace w') = shutdowns (trace w)
  ∧ subscriptions (trace w') = subscriptions (trace w)
  ∧ metrics w' = metrics w.
Proof.
  intros Hm Hh Hns Hans Hun.
  rewrite (DeployWorkload_submit E w p request now vm payload ns) by done.
  unfold interpret_reply. rewrite Hans, Hun. exec. cbn [fst snd].
  unfold submitted. cbn [allVMs heap trace metrics set_trace set_heap].
  rewrite shutdowns_app, subscriptions_app. cbn. rewrite !app_nil_r.
  repeat split; try done. apply lookup_insert_eq.
Qed.

Lemma DeployWorkload_undecodable_reply_witness :
  (DeployWorkload More.env_garbled 0%nat Sample.request 7 Sample.node_taken).2
  = Ret (Some (errors_New "unexpected end of JSON input")).
Proof.
  exact (proj1
    (DeployWorkload_undecodable_reply More.env_garbled Sample.node_taken 0%nat
       Sample.vm1 Sample.request 7 (Sample.bytes "{}") "ns"
       (mkMsg "_INBOX.1" "" None (Sample.bytes "{}"))
       (errors_New "unexpected end of JSON input")
       eq_refl eq_refl eq_refl eq_refl eq_refl)).
Defined.

(** X31. A deploy request that fails.  [DeployWorkload] returns the
    timeout text only for an error that is the deadline error of the
    operating system; every other error of the request gets the text
    that quotes it.  The error that the bus returns when no reply came
    in time, [nats.ErrTimeout], is not that deadline error: a deploy
    whose request times out returns "failed to submit request for
    workload deployment: nats: timeout", as for any other failure of the
    transport.  In each case the VM stays registered with the request
    bound to its record, and nothing is stopped. *)
Theorem DeployWorkload_request_error E w p vm request now payload ns err :
  json_Marshal_DeployRequest E request = inl payload →
  heap w !! p = Some vm →
  Namespace request = Some ns →
  Request E ncInternal (deploy_request (vmmID vm) payload) (1 * Second) = inr err →
  let w' := (DeployWorkload E p request now w).1 in
  let out := (DeployWorkload E p request now w).2 in
  (IsDeadlineExceeded err = true → out = Ret (Some (errors_New deploy_timeout_text)))
  ∧ (IsDeadlineExceeded err = false →
     out = Ret (Some (errors_New (deploy_transport_text err))))
  ∧ (err = nats_ErrTimeout →
     out = Ret (Some (errors_New
            "failed to submit request for workload deployment: nats: timeout")))
  ∧ deploy_timeout_text ≠ deploy_transport_text err
  ∧ allVMs w' = allVMs w
  ∧ heap w' !! p = Some (bound_vm request ns now vm)
  ∧ shutdowns (trace w') = shutdowns (trace w).
Proof.
  intros Hm Hh Hns Hans.
  rewrite (DeployWorkload_submit E w p request now vm payload ns) by done.
  unfold interpret_reply. rewrite Hans. cbn zeta.
  assert (Hout : (if IsDeadlineExceeded err
                  then mret (M := M World) (Some (errors_New deploy_timeout_text))
                  else mret (Some (errors_New (deploy_transport_text err))))
                   (submitted E p request ns now vm payload w)
                 = (submitted E p request ns now vm payload w,
                    Ret (Some (errors_New (if IsDeadlineExceeded err
                                           then deploy_timeout_text
                                           else deploy_transport_text err)))))
    by (by destruct (IsDeadlineExceeded err)).
  unfold deploy_timeout_text, deploy_transport_text in Hout.
  rewrite Hout. cbn [fst snd].
  unfold submitted. cbn [allVMs heap trace set_trace set_heap].
  rewrite shutdowns_app. cbn. rewrite app_nil_r.
  repeat split; try done.
  - by intros ->.
  - by intros ->.
  - by intros ->.
  - apply lookup_insert_eq.
Qed.

Lemma DeployWorkload_request_error_witness :
  (DeployWorkload More.env_deaf 0%nat Sample.request 7 Sample.node_taken).2
  = Ret (Some (errors_New
          "failed to submit request for workload deployment: nats: timeout")).
Proof.
  exact (proj1 (proj2 (proj2
    (DeployWorkload_request_error More.env_deaf Sample.node_taken 0%nat Sample.vm1
       Sample.request 7 (Sample.bytes "{}") "ns" nats_ErrTimeout
       eq_refl eq_refl eq_refl eq_refl))) eq_refl).
Defined.

(** ** The handshake table *)

Lemma remembers_refl w : remembers w w.
Proof. by intros id. Qed.

Lemma remembers_insert w0 w id now :
  remembers w0 w → remembers w0 (set_handshakes (<[id := now]>) w).
Proof.
  intros H k Hk. cbn. apply lookup_insert_is_Some.
  destruct (decide (id = k)); [by left|right; auto].
Qed.

Ltac keep_hands :=
  intros ? ?;
  first [ assumption
        | simple apply remembers_insert; assumption
        | match goal with H : remembers _ _ |- _ => exact H end ].

Ltac remember_hands := preserve_by keep_hands.

Lemma StopMachine_hands E w0 vmID undeploy :
  preserves (remembers w0) (StopMachine E vmID undeploy).
Proof.
  unfold StopMachine, mutex_Lock, mutex_Unlock, drain_one, request_undeploy.
  remember_hands.
Qed.

Lemma DeployWorkload_hands E w0 p request now :
  preserves (remembers w0) (DeployWorkload E p request now).
Proof.
  unfold DeployWorkload, interpret_reply, deploy_counters, subscribe_one.
  remember_hands; apply StopMachine_hands.
Qed.

Lemma handleHandshake_hands E w0 msg now :
  preserves (remembers w0) (handleHandshake E msg now).
Proof. unfold handleHandshake. remember_hands. Qed.

Lemma inject_hands w0 fields h : preserves (remembers w0) (inject fields h).
Proof.
  revert h. induction fields as [|kv fields IH]; intros h; cbn [inject].
  - remember_hands.
  - unfold carrier_Set. remember_hands; apply IH.
Qed.

Lemma generateTriggerHandler_hands E w0 p tsub request msg :
  preserves (remembers w0) (generateTriggerHandler E p tsub request msg).
Proof.
  unfold generateTriggerHandler, relay_answer, Msg_Header_Add.
  remember_hands; apply inject_hands.
Qed.

Lemma handleStop_hands E w0 msg :
  preserves (remembers w0) (handleStop E (fun id => StopMachine E id true) msg).
Proof. unfold handleStop, respondFail. remember_hands; apply StopMachine_hands. Qed.

Lemma pool_send_hands w0 p : preserves (remembers w0) (pool_send p).
Proof. unfold pool_send. remember_hands. Qed.

Lemma pool_receive_hands w0 : preserves (remembers w0) pool_receive.
Proof. unfold pool_receive. remember_hands. Qed.

Lemma close_pool_hands w0 : preserves (remembers w0) close_pool.
Proof. unfold close_pool. remember_hands. Qed.

Lemma cleanSockets_hands w0 : preserves (remembers w0) cleanSockets.
Proof. unfold cleanSockets. remember_hands. Qed.

Lemma Stop_hands E w0 : preserves (remembers w0) (Stop E).
Proof.
  unfold Stop. remember_hands;
    first [apply close_pool_hands | apply cleanSockets_hands | apply StopMachine_hands].
Qed.

Lemma Start_round_hands E w0 r : preserves (remembers w0) (Start_round E r).
Proof. unfold Start_round. remember_hands; apply pool_send_hands. Qed.

Lemma Start_loop_hands E w0 rounds : preserves (remembers w0) (Start_loop E rounds).
Proof.
  induction rounds as [|r rounds IH]; cbn [Start_loop].
  - apply preserves_ret.
  - apply preserves_bind; [apply Start_round_hands|].
    intros [|]; [apply preserves_ret|apply IH].
Qed.

Lemma Start_hands E w0 reset rounds : preserves (remembers w0) (Start E reset rounds).
Proof.
  unfold Start, resetCNI.
  apply preserves_bind; [remember_hands|]. intros _.
  apply preserves_recover; [intros why; remember_hands|].
  remember_hands; apply Start_loop_hands.
Qed.

Lemma perform_hands E w0 o w : remembers w0 w → remembers w0 (perform E o w).
Proof.
  intros Hw.
  destruct o; cbn [perform];
    match goal with |- remembers w0 (?c w).1 =>
      destruct (c w) as [w1 out] eqn:Hc; cbn [fst]; revert Hc Hw
    end.
  - apply Start_hands.
  - apply Start_round_hands.
  - apply pool_send_hands.
  - apply pool_receive_hands.
  - apply Stop_hands.
  - apply StopMachine_hands.
  - apply DeployWorkload_hands.
  - apply handleHandshake_hands.
  - apply generateTriggerHandler_hands.
  - apply handleStop_hands.
Qed.

Lemma reachable_remembers E w0 w : reachable E w0 w → remembers w0 w.
Proof.
  induction 1 as [|w o _ IH]; [apply remembers_refl|by apply perform_hands].
Qed.

(** X9. The handshake table never forgets: whatever operations run on a
    manager (deploys, stops of VMs, the shutdown of the manager itself,
    further handshakes), a VM that has shaken hands stays in the table. *)
Theorem handshakes_never_forgotten E w0 w id :
  reachable E w0 w →
  is_Some (handshakes w0 !! id) →
  is_Some (handshakes w !! id).
Proof. intros Hr. by apply (reachable_remembers E). Qed.

Lemma cancelled_app t1 t2 : cancelled (t1 ++ t2) = cancelled t1 || cancelled t2.
Proof. apply existsb_app. Qed.

Lemma awaitHandshake_loop_no_cancel E deadline vmid ok obs :
  Forall (fun o => handshakes o.2 ≠ ∅) obs →
  cancelled (awaitHandshake_loop E deadline vmid ok obs).1 = false.
Proof.
  intros Hobs. revert ok.
  induction Hobs as [|[now w] rest Hw _ IH]; intros ok;
    destruct ok; cbn [awaitHandshake_loop]; try done.
  destruct (stopping w); [done|].
  destruct (now >? deadline).
  - destruct (Nat.eqb_spec (size (handshakes w)) 0) as [Hz|_]; [|done].
    by apply map_size_empty_iff in Hz.
  - specialize (IH (bool_decide (is_Some (handshakes w !! vmid)))).
    destruct (awaitHandshake_loop _ _ _ _ rest) as [evs st]. exact IH.
Qed.

(** X10. Once one VM has shaken hands, no handshake timeout cancels the
    node any more: a watchdog whose passes see states that the manager
    reaches from then on never calls the cancel function, whenever it
    runs and for whichever VM, also one whose agent never answers. *)
Theorem awaitHandshake_cancels_only_before_first E w0 id timeout start vmid obs :
  is_Some (handshakes w0 !! id) →
  Forall (fun o => reachable E w0 o.2) obs →
  cancelled (awaitHandshake E timeout start vmid obs).1 = false.
Proof.
  intros Hid Hobs. unfold awaitHandshake.
  apply awaitHandshake_loop_no_cancel.
  eapply Forall_impl; [exact Hobs|]. intros [now w] Hr Hempty. cbn in *.
  apply (reachable_remembers E) in Hr. specialize (Hr id Hid).
  rewrite Hempty, lookup_empty in Hr. by destruct Hr.
Qed.

Lemma handshakes_never_forgotten_witness :
  is_Some (handshakes (perform Sample.env_ok OpStop
                         (perform Sample.env_ok (OpStopMachine "vm1" true)
                            More.node_greeted)) !! "vm1").
Proof.
  apply (handshakes_never_forgotten Sample.env_ok More.node_greeted).
  - apply reach_step, reach_step, reach_start.
  - by eexists.
Defined.

Lemma awaitHandshake_cancels_only_before_first_witness :
  cancelled (awaitHandshake Sample.env_ok (5 * Second) 0 "vm2"
               [(1 * Second, More.node_greeted);
                (6 * Second, perform Sample.env_ok (OpStopMachine "vm1" true)
                               More.node_greeted)]).1 = false.
Proof.
  apply (awaitHandshake_cancels_only_before_first Sample.env_ok More.node_greeted
           "vm1").
  - by eexists.
  - repeat constructor.
Defined.

(** ** The handshake receiver, further *)

Lemma handleHandshake_accepts E w msg stamp req id text p :
  json_Unmarshal_HandshakeRequest E (Data msg) = (req, None) →
  MachineID req = Some id →
  hs_Message req = Some text →
  allVMs w !! id = Some p →
  Respond E msg (json_Marshal_HandshakeResponse E) = None →
  handleHandshake E msg stamp w
  = (set_handshakes (<[id := stamp]>)
       (set_trace (fun t => t ++ [EvLog LInfo "Received agent handshake"
                                    [("vmid", id); ("message", text)];
                                  EvRespond msg (json_Marshal_HandshakeResponse E)])
          w),
     Ret tt).
Proof.
  intros Hreq Hid Htext Hp Hresp. unfold handleHandshake.
  rewrite Hreq, Hid, Htext. exec. cbn [allVMs set_trace]. rewrite Hp.
  cbn beta iota. rewrite Hresp. exec.
  f_equal. apply world_eq; try done.
  cbn [trace set_trace set_handshakes]. by rewrite <- app_assoc.
Qed.

(** X11. A handshake that the receiver accepted ends the watchdog of
    that VM in silence: when the passes of the watchdog see nothing
    until one pass, before the deadline and with the manager not
    stopping, sees a state reached from the one the receiver left, the
    watchdog sleeps once more and returns, with no log line and no
    cancel. *)
Theorem handshake_ends_watchdog E w0 msg stamp req vmid text p timeout start
    pre now w post :
  json_Unmarshal_HandshakeRequest E (Data msg) = (req, None) →
  MachineID req = Some vmid →
  hs_Message req = Some text →
  allVMs w0 !! vmid = Some p →
  Respond E msg (json_Marshal_HandshakeResponse E) = None →
  Forall (fun o => stopping o.2 = false ∧ waiting (start + timeout) vmid o) pre →
  reachable E (handleHandshake E msg stamp w0).1 w →
  stopping w = false →
  now ≤ start + timeout →
  awaitHandshake E timeout start vmid (pre ++ (now, w) :: post)
  = (replicate (S (length pre)) (poll_sleep E), Returned).
Proof.
  intros Hreq Hid Htext Hp Hresp Hpre Hr Hs Hnow. unfold awaitHandshake.
  rewrite awaitHandshake_loop_waiting by done.
  cbn [awaitHandshake_loop]. rewrite Hs.
  destruct (Z.gtb_spec now (start + timeout)) as [?|_]; [lia|].
  apply (reachable_remembers E) in Hr. specialize (Hr vmid).
  rewrite (handleHandshake_accepts E w0 msg stamp req vmid text p) in Hr by done.
  cbn [fst handshakes set_handshakes set_trace] in Hr.
  rewrite lookup_insert_eq in Hr. specialize (Hr (ltac:(by eexists))).
  rewrite bool_decide_eq_true_2 by done.
  destruct post as [|o post]; cbn [awaitHandshake_loop fst snd];
    by rewrite replicate_S_end.
Qed.

Lemma handshake_ends_watchdog_witness :
  awaitHandshake Sample.env_ok (5 * Second) 0 "vm1"
    ([(1 * Second, Sample.node)]
       ++ (2 * Second, (handleHandshake Sample.env_ok More.hello "2024-01-01T00:00:00Z"
                          Sample.node).1)
       :: [(9 * Second, Sample.node)])
  = ([poll_sleep Sample.env_ok; poll_sleep Sample.env_ok], Returned).
Proof.
  apply (handshake_ends_watchdog Sample.env_ok Sample.node More.hello
           "2024-01-01T00:00:00Z" (mkHandshakeRequest (Some "vm1") (Some "hello"))
           "vm1" "hello" 0%nat (5 * Second) 0 [(1 * Second, Sample.node)]
           (2 * Second) _ [(9 * Second, Sample.node)]);
    try reflexivity.
  - repeat constructor; vm_compute; congruence.
  - apply reach_start.
  - vm_compute; congruence.
Defined.

(** X12. A handshake that decodes, names a registered VM and whose empty
    reply goes out is recorded: the receiver returns, the table holds
    the VM under the time of the handshake (an older entry of that VM is
    overwritten, the other entries stay), and exactly one reply was
    sent, to the handshake message.  When the reply fails the handshake
    is not recorded. *)
Theorem handleHandshake_records E w msg stamp req id text p :
  json_Unmarshal_HandshakeRequest E (Data msg) = (req, None) →
  MachineID req = Some id →
  hs_Message req = Some text →
  allVMs w !! id = Some p →
  let w' := (handleHandshake E msg stamp w).1 in
  (handleHandshake E msg stamp w).2 = Ret tt
  ∧ replies (trace w')
    = replies (trace w) ++ [(msg, json_Marshal_HandshakeResponse E)]
  ∧ (Respond E msg (json_Marshal_HandshakeResponse E) = None →
     handshakes w' !! id = Some stamp
     ∧ ∀ k, k ≠ id → handshakes w' !! k = handshakes w !! k)
  ∧ (Respond E msg (json_Marshal_HandshakeResponse E) ≠ None →
     handshakes w' = handshakes w).
Proof.
  intros Hreq Hid Htext Hp. cbn zeta.
  destruct (Respond E msg (json_Marshal_HandshakeResponse E)) as [err|] eqn:Hresp.
  - unfold handleHandshake. rewrite Hreq, Hid, Htext. exec.
    cbn [allVMs set_trace]. rewrite Hp. cbn beta iota. rewrite Hresp. exec.
    cbn [fst snd trace handshakes set_trace]. rewrite !replies_app. cbn.
    rewrite !app_nil_r. repeat split; try done.
  - rewrite (handleHandshake_accepts E w msg stamp req id text p) by done.
    cbn [fst snd trace handshakes set_trace set_handshakes].
    rewrite replies_app. cbn. repeat split; try done.
    + apply lookup_insert_eq.
    + intros k Hk. by rewrite lookup_insert_ne.
Qed.

Lemma handleHandshake_records_witness :
  handshakes (handleHandshake Sample.env_ok More.hello "2024-01-01T00:00:00Z"
                Sample.node).1 !! "vm1"
  = Some "2024-01-01T00:00:00Z".
Proof.
  exact (proj1 (proj1 (proj2 (proj2
    (handleHandshake_records Sample.env_ok Sample.node More.hello
       "2024-01-01T00:00:00Z" (mkHandshakeRequest (Some "vm1") (Some "hello"))
       "vm1" "hello" 0%nat eq_refl eq_refl eq_refl eq_refl))) eq_refl)).
Defined.

(** X13. A handshake without machine id, or with one and without
    message, makes the receiver panic on the nil pointer when it logs,
    whether or not the handshake decoded: nothing is replied or logged
    and the table stays as it is.  A handshake that did not decode and
    has both fields is logged, with one error line that names them, and
    dropped: nothing is replied and the table stays as it is. *)
Theorem handleHandshake_nil_fields E w msg stamp :
  let req := (json_Unmarshal_HandshakeRequest E (Data msg)).1 in
  let err := (json_Unmarshal_HandshakeRequest E (Data msg)).2 in
  let w' := (handleHandshake E msg stamp w).1 in
  ((MachineID req = None ∨ hs_Message req = None) →
   handleHandshake E msg stamp w = (w, Panic nil_dereference))
  ∧ (∀ id text, MachineID req = Some id → hs_Message req = Some text →
       err ≠ None →
       (handleHandshake E msg stamp w).2 = Ret tt
       ∧ trace w'
         = trace w ++ [EvLog LError "Failed to handle agent handshake"
                         [("vmid", id); ("message", text)]]
       ∧ handshakes w' = handshakes w
       ∧ replies (trace w') = replies (trace w)).
Proof.
  cbn zeta. unfold handleHandshake.
  destruct (json_Unmarshal_HandshakeRequest E (Data msg)) as [req err].
  cbn [fst snd]. split.
  - intros [Hid|Htext].
    + rewrite Hid. by destruct err.
    + rewrite Htext. destruct err, (MachineID req); by exec.
  - intros id text Hid Htext Herr. rewrite Hid, Htext.
    destruct err as [e|]; [|done]. exec. cbn. rewrite replies_app. cbn.
    by rewrite app_nil_r.
Qed.

Lemma handleHandshake_nil_fields_witness :
  handleHandshake More.env_anonymous More.hello "2024-01-01T00:00:00Z" Sample.node
  = (Sample.node, Panic nil_dereference).
Proof.
  exact (proj1 (handleHandshake_nil_fields More.env_anonymous Sample.node More.hello
                  "2024-01-01T00:00:00Z") (or_introl eq_refl)).
Defined.

(** ** The trigger router, further *)

Lemma exec_failures_app t1 t2 :
  exec_failures (t1 ++ t2) = exec_failures t1 ++ exec_failures t2.
Proof. apply flat_map_app. Qed.

Lemma exec_successes_app t1 t2 :
  exec_successes (t1 ++ t2) = exec_successes t1 ++ exec_successes t2.
Proof. apply flat_map_app. Qed.

Lemma ended_app t1 t2 : ended (t1 ++ t2) = ended t1 ++ ended t2.
Proof. apply flat_map_app. Qed.

(** The handler up to the answer of the agent, on a message without
    header map for which the propagator has nothing to set. *)
Lemma generateTriggerHandler_sent_plain E w p vm tsub name request msg :
  heap w !! p = Some vm →
  WorkloadName request = Some name →
  Header_of msg = None →
  Inject E (child_span E) = [] →
  generateTriggerHandler E p tsub request msg w
  = defer (set_trace (fun t => t ++ [EvSpanEnd "workload-trigger"]))
      (relay_answer E p tsub request (set_Header None msg)
         (Request E ncInternal (trigger_request (vmmID vm) msg) (Millisecond * 10000)))
      (set_trace (fun t => t ++ trigger_events E vm name msg) w).
Proof.
  intros Hh Hname Hhdr Hinj.
  assert (Hmsg : trigger_request (vmmID vm) msg
                 = set_Header (Some (Header_Add ∅ nexTriggerSubject (Subject msg)))
                     (set_Data (Data msg)
                        (NewMsg ("agentint." +:+ vmmID vm +:+ ".trigger")))).
  { unfold trigger_request, set_Header, set_Data, NewMsg, Header_Add. cbn.
    by rewrite lookup_empty, insert_empty. }
  unfold child_span in Hinj.
  unfold generateTriggerHandler, defer, Msg_Header_Add. rewrite Hname. exec.
  rewrite Hh. cbn beta iota. cbn [Header_of NewMsg set_Data]. cbn beta iota.
  rewrite Hhdr, Hinj. cbn [inject]. exec. rewrite <- Hmsg.
  unfold trigger_events.
  repeat (rewrite set_trace_app; cbn [app]).
  reflexivity.
Qed.

(** The handler up to the answer of the agent. *)
Lemma generateTriggerHandler_sent E w p vm tsub name request msg h :
  heap w !! p = Some vm →
  WorkloadName request = Some name →
  Header_of msg = Some h →
  generateTriggerHandler E p tsub request msg w
  = defer (set_trace (fun t => t ++ [EvSpanEnd "workload-trigger"]))
      (relay_answer E p tsub request (traced E h msg)
         (Request E ncInternal (trigger_request (vmmID vm) msg) (Millisecond * 10000)))
      (set_trace (fun t => t ++ trigger_events E vm name msg) w).
Proof.
  intros Hh Hname Hhdr.
  assert (Hmsg : trigger_request (vmmID vm) msg
                 = set_Header (Some (Header_Add ∅ nexTriggerSubject (Subject msg)))
                     (set_Data (Data msg)
                        (NewMsg ("agentint." +:+ vmmID vm +:+ ".trigger")))).
  { unfold trigger_request, set_Header, set_Data, NewMsg, Header_Add. cbn.
    by rewrite lookup_empty, insert_empty. }
  unfold generateTriggerHandler, defer, Msg_Header_Add. rewrite Hname. exec.
  rewrite Hh. cbn beta iota. cbn [Header_of NewMsg set_Data]. cbn beta iota.
  rewrite Hhdr, inject_run. cbn beta iota. rewrite <- Hmsg.
  unfold traced, child_span, trigger_events.
  repeat (rewrite set_trace_app; cbn [app]).
  reflexivity.
Qed.

Lemma generateTriggerHandler_relays E w p vm tsub name request msg :
  heap w !! p = Some vm →
  WorkloadName request = Some name →
  injectable E msg →
  generateTriggerHandler E p tsub request msg w
  = defer (set_trace (fun t => t ++ [EvSpanEnd "workload-trigger"]))
      (relay_answer E p tsub request (relayed E msg)
         (Request E ncInternal (trigger_request (vmmID vm) msg) (Millisecond * 10000)))
      (set_trace (fun t => t ++ trigger_events E vm name msg) w).
Proof.
  intros Hh Hname Hinj. unfold relayed.
  destruct (Header_of msg) as [h|] eqn:Hhdr.
  - by apply generateTriggerHandler_sent.
  - apply generateTriggerHandler_sent_plain; auto.
Qed.

Lemma relay_answer_failed E w p vm tsub request msg err wt name dreq dname :
  heap w !! p = Some vm →
  WorkloadType request = Some wt →
  WorkloadName request = Some name →
  deployRequest vm = Some dreq →
  WorkloadName dreq = Some dname →
  relay_answer E p tsub request msg (inr err) w
  = (set_metrics (fun ms => ms ++ trigger_measures functionFailedTriggers 1 vm dname)
       (set_trace (fun t => t ++
          [EvSpanStatus false "Internal trigger request failed";
           EvSpanError err;
           EvLog LError "Failed to request agent execution via internal trigger subject"
             [("err", Error err); ("trigger_subject", tsub);
              ("workload_type", wt); ("vmid", vmmID vm)];
           EvFunctionExecFailed (vmmID vm) name tsub err]) w),
     Ret msg).
Proof.
  intros Hh Hwt Hname Hd Hdn. unfold relay_answer. rewrite Hwt, Hname. exec.
  cbn [heap set_trace set_metrics]. rewrite Hh. cbn beta iota.
  rewrite Hd. cbn beta iota. rewrite Hdn. cbn beta iota.
  f_equal. apply world_eq; try done.
  - cbn [metrics set_metrics set_trace trigger_measures]. by rewrite <- !app_assoc.
  - cbn [trace set_metrics set_trace]. by rewrite <- !app_assoc.
Qed.

(** X14. A trigger that the agent does not answer is not answered
    either.  For a request with name and type, a VM with a deploy
    request that has a name, and an inbound message on which the
    propagator does not write into a nil map (it has a header map, or
    there is nothing to inject; a plain message without headers is such
    a one when nothing is injected): the handler returns without
    replying to the inbound message, publishes one "function failed"
    event with the error, and adds one to the failed-trigger counter in
    total, for the namespace and for the workload name, and to no other
    instrument. *)
Theorem generateTriggerHandler_failure E w p vm tsub request msg err wt name
    dreq dname :
  heap w !! p = Some vm →
  WorkloadName request = Some name →
  WorkloadType request = Some wt →
  injectable E msg →
  deployRequest vm = Some dreq →
  WorkloadName dreq = Some dname →
  Request E ncInternal (trigger_request (vmmID vm) msg) (Millisecond * 10000)
  = inr err →
  let w' := (generateTriggerHandler E p tsub request msg w).1 in
  (generateTriggerHandler E p tsub request msg w).2 = Ret (relayed E msg)
  ∧ replies (trace w') = replies (trace w)
  ∧ exec_failures (trace w')
    = exec_failures (trace w) ++ [(vmmID vm, name, tsub, err)]
  ∧ exec_successes (trace w') = exec_successes (trace w)
  ∧ metrics w'
    = metrics w ++ trigger_measures functionFailedTriggers 1 vm dname.
Proof.
  intros Hh Hname Hwt Hhdr Hd Hdn Hans. cbn zeta.
  rewrite (generateTriggerHandler_relays E w p vm tsub name request msg) by done.
  rewrite Hans. unfold defer.
  rewrite (relay_answer_failed E _ p vm tsub request _ err wt name dreq dname)
    by done.
  cbn [fst snd trace metrics set_trace set_metrics].
  rewrite !replies_app, !exec_failures_app, !exec_successes_app. cbn.
  by rewrite !app_nil_r.
Qed.

Lemma relay_answer_succeeded E w p vm tsub request msg resp wt dreq dname :
  heap w !! p = Some vm →
  WorkloadType request = Some wt →
  deployRequest vm = Some dreq →
  WorkloadName dreq = Some dname →
  let runtimeNs := Header_Get (default ∅ (Header_of resp)) nexRuntimeNs in
  let parsed := ParseInt E runtimeNs in
  relay_answer E p tsub request msg (inl resp) w
  = (set_metrics (fun ms => ms ++ trigger_measures functionTriggers 1 vm dname
                               ++ trigger_measures functionRunTimeNano parsed.1 vm dname)
       (set_trace (fun t => t ++
          [EvSpanStatus true "Trigger succeeded";
           EvLog LDebug "Received response from execution via trigger subject"
             [("vmid", vmmID vm); ("trigger_subject", tsub); ("workload_type", wt);
              ("function_run_time_nanosec", runtimeNs);
              ("payload_size", pretty (length (Data resp)))]]
          ++ match parsed.2 with
             | Some e => [EvLog LWarn "failed to log function runtime" [("err", Error e)]]
             | None => []
             end
          ++ [EvFunctionExecSucceeded (vmmID vm) tsub parsed.1;
              EvSpanEvent "published success event";
              EvRespond msg (Data resp)]
          ++ match Respond E msg (Data resp) with
             | Some err =>
                 [EvSpanStatus false "Failed to respond to trigger subject";
                  EvSpanError err;
                  EvLog LError
                    "Failed to respond to trigger subject subscription request for deployed workload"
                    [("vmid", vmmID vm); ("trigger_subject", tsub);
                     ("workload_type", wt); ("err", Error err)]]
             | None => []
             end) w),
     Ret msg).
Proof.
  intros Hh Hwt Hd Hdn. cbn zeta. unfold relay_answer. rewrite Hwt. exec.
  cbn [heap set_trace set_metrics]. rewrite Hh. cbn beta iota.
  destruct (ParseInt E _) as [n perr]. cbn [fst snd].
  destruct perr as [e|]; exec; rewrite Hd; cbn beta iota; rewrite Hdn;
    cbn beta iota; destruct (Respond E msg (Data resp)); exec;
    f_equal; apply world_eq; try done;
    cbn [metrics trace set_metrics set_trace trigger_measures app];
    by rewrite <- ?app_assoc.
Qed.

(** X15. A trigger that the agent answers is answered with the agent's
    payload, unchanged and once, on the inbound message.  For a request
    with name and type, a VM with a deploy request that has a name, and
    an inbound message on which the propagator does not write into a nil
    map (it has a header map, or there is nothing to inject): the
    handler publishes one "function succeeded" event and adds one to the
    trigger counter and the run time that the agent reported (what
    [ParseInt] makes of the header, also when it fails) to the run-time
    counter, in total, for the namespace and for the workload name.  It
    does so whether or not the reply could be delivered. *)
Theorem generateTriggerHandler_success E w p vm tsub request msg resp wt name
    dreq dname :
  heap w !! p = Some vm →
  WorkloadName request = Some name →
  WorkloadType request = Some wt →
  injectable E msg →
  deployRequest vm = Some dreq →
  WorkloadName dreq = Some dname →
  Request E ncInternal (trigger_request (vmmID vm) msg) (Millisecond * 10000)
  = inl resp →
  let w' := (generateTriggerHandler E p tsub request msg w).1 in
  let ran := (ParseInt E (Header_Get (default ∅ (Header_of resp)) nexRuntimeNs)).1 in
  (generateTriggerHandler E p tsub request msg w).2 = Ret (relayed E msg)
  ∧ replies (trace w') = replies (trace w) ++ [(relayed E msg, Data resp)]
  ∧ exec_successes (trace w')
    = exec_successes (trace w) ++ [(vmmID vm, tsub, ran)]
  ∧ exec_failures (trace w') = exec_failures (trace w)
  ∧ metrics w'
    = metrics w ++ trigger_measures functionTriggers 1 vm dname
      ++ trigger_measures functionRunTimeNano ran vm dname.
Proof.
  intros Hh Hname Hwt Hhdr Hd Hdn Hans. cbn zeta.
  rewrite (generateTriggerHandler_relays E w p vm tsub name request msg) by done.
  rewrite Hans. unfold defer.
  rewrite (relay_answer_succeeded E _ p vm tsub request _ resp wt dreq dname)
    by done.
  cbn [fst snd trace metrics set_trace set_metrics].
  rewrite !replies_app, !exec_failures_app, !exec_successes_app.
  destruct (ParseInt E _) as [n [e|]]; destruct (Respond E _ _); cbn;
    by rewrite ?app_nil_r.
Qed.

(** A trigger with an empty header map on a node whose agent does not
    answer. *)
Lemma generateTriggerHandler_failure_witness :
  replies (trace (generateTriggerHandler More.env_deaf 0%nat "t.a" Sample.request
                    More.ping Sample.node_deployed).1) = [].
Proof.
  refine (proj1 (proj2
    (generateTriggerHandler_failure More.env_deaf Sample.node_deployed 0%nat
       Sample.vm1_deployed "t.a" Sample.request More.ping
       nats_ErrTimeout "v8" "echo" Sample.request "echo"
       eq_refl eq_refl eq_refl _ eq_refl eq_refl eq_refl))).
  intros Hnil. discriminate Hnil.
Defined.

(** A plain trigger, without header map, on a node without tracing. *)
Lemma generateTriggerHandler_success_witness :
  replies (trace (generateTriggerHandler More.env_untraced 0%nat "t.a"
                    Sample.request More.bare_ping Sample.node_deployed).1)
  = [(More.bare_ping, Sample.bytes "{}")].
Proof.
  refine (proj1 (proj2
    (generateTriggerHandler_success More.env_untraced Sample.node_deployed 0%nat
       Sample.vm1_deployed "t.a" Sample.request More.bare_ping
       (mkMsg "_INBOX.1" "" None (Sample.bytes "{}")) "v8" "echo" Sample.request
       "echo" eq_refl eq_refl eq_refl _ eq_refl eq_refl eq_refl))).
  intros _. reflexivity.
Defined.

Lemma extends_refl w : extends (trace w) w.
Proof. exists []. by rewrite app_nil_r. Qed.

Ltac keep_trace :=
  intros ? [? Hq]; unfold extends; cbn; rewrite Hq;
  first [ by eexists | rewrite <- app_assoc; by eexists ].

Lemma relay_answer_extends E t0 p tsub request msg answer :
  preserves (extends t0) (relay_answer E p tsub request msg answer).
Proof. unfold relay_answer. preserve_by keep_trace. Qed.

Section Unblocked.

Lemma unblocked_bind {A B} (c : M World A) (k : A -> M World B) :
  unblocked c → (∀ a, unblocked (k a)) → unblocked (c ≫= k).
Proof.
  intros Hc Hk w w' on. rewrite run_bind.
  destruct (c w) as [w1 [a| |]] eqn:Hcw; [apply Hk|done|].
  by apply Hc in Hcw.
Qed.

Lemma unblocked_ret {A} (a : A) : unblocked (mret a).
Proof. by intros w w' on. Qed.

Lemma unblocked_get : unblocked get.
Proof. by intros w w' on. Qed.

Lemma unblocked_panic {A} why : unblocked (panic (A := A) why).
Proof. by intros w w' on. Qed.

Lemma unblocked_deref {A} (o : option A) : unblocked (deref o).
Proof. destruct o; [apply unblocked_ret | apply unblocked_panic]. Qed.

Lemma unblocked_modify (f : World -> World) : unblocked (modify f).
Proof. by intros w w' on. Qed.

End Unblocked.

Ltac no_wait :=
  repeat first
    [ simple apply unblocked_ret | simple apply unblocked_get
    | simple apply unblocked_panic | simple apply unblocked_deref
    | simple apply unblocked_modify
    | simple apply unblocked_bind; [|intros ?]
    | match goal with
      | |- unblocked (match ?x with _ => _ end) => destruct x
      end
    | progress unfold emit, log, counter_Add, load, store ].

Lemma relay_answer_unblocked E p tsub request msg answer :
  unblocked (relay_answer E p tsub request msg answer).
Proof. unfold relay_answer. no_wait. Qed.

(** What the deferred end of the span makes of the rest of the handler. *)
Lemma relay_answer_span_end E w0 p tsub request msg answer :
  ∃ evs,
    trace (defer (set_trace (fun t => t ++ [EvSpanEnd "workload-trigger"]))
             (relay_answer E p tsub request msg answer) w0).1
    = trace w0 ++ evs ++ [EvSpanEnd "workload-trigger"].
Proof.
  unfold defer.
  destruct (relay_answer E p tsub request msg answer w0) as [w2 r2] eqn:Hrel.
  assert (Hext : extends (trace w0) w2).
  { eapply (relay_answer_extends E (trace w0)); [exact Hrel|apply extends_refl]. }
  destruct Hext as [evs Hevs]. exists evs.
  destruct r2 as [a|why|on]; cbn [fst trace set_trace];
    rewrite ?Hevs, <- ?app_assoc; try done.
  by apply relay_answer_unblocked in Hrel.
Qed.

Lemma inject_nil kv fields (w : World) :
  inject (kv :: fields) None w = (w, Panic "assignment to entry in nil map").
Proof. reflexivity. Qed.

(** X16. The span of a trigger is ended however the handler ends: the
    handler starts the span [workload-trigger] and its ending is the
    last thing it does, also when it panics.  On an inbound message
    without header map, when the propagator has a field to set, the
    handler panics on the nil map after it started the inner span: that
    span is never ended and nothing is sent to the agent. *)
Theorem generateTriggerHandler_ends_span E w p vm tsub request msg name :
  heap w !! p = Some vm →
  WorkloadName request = Some name →
  let w' := (generateTriggerHandler E p tsub request msg w).1 in
  ∃ evs,
    trace w'
    = trace w
      ++ EvSpanStart "workload-trigger" true
           [("name", name); ("namespace", namespace vm);
            ("trigger-subject", Subject msg)]
         :: evs ++ [EvSpanEnd "workload-trigger"]
    ∧ (Header_of msg = None → Inject E (child_span E) ≠ [] →
       (generateTriggerHandler E p tsub request msg w).2
       = Panic "assignment to entry in nil map"
       ∧ evs = [EvSpanStart "internal request" false []]).
Proof.
  intros Hh Hname. cbn zeta.
  destruct (Header_of msg) as [h|] eqn:Hhdr.
  - rewrite (generateTriggerHandler_sent E w p vm tsub name request msg h) by done.
    destruct (relay_answer_span_end E
                (set_trace (fun t => t ++ trigger_events E vm name msg) w)
                p tsub request (traced E h msg)
                (Request E ncInternal (trigger_request (vmmID vm) msg)
                   (Millisecond * 10000))) as [evs Hevs].
    exists ([EvSpanStart "internal request" false [];
             EvRequest ncInternal (trigger_request (vmmID vm) msg) (Millisecond * 10000);
             EvSpanEnd "internal request";
             EvSpanEvent "Completed internal request"] ++ evs).
    split; [|done]. rewrite Hevs. cbn [trace set_trace].
    unfold trigger_events. by rewrite <- !app_assoc.
  - unfold generateTriggerHandler, Msg_Header_Add. rewrite Hname. exec.
    rewrite Hh. cbn beta iota. cbn [Header_of NewMsg set_Data]. cbn beta iota.
    rewrite Hhdr. unfold child_span.
    destruct (Inject E _) as [|kv fields] eqn:Hinj.
    + cbn [inject]. unfold defer. exec.
      match goal with
      | |- context [relay_answer E p tsub request ?m ?a ?w0] =>
          destruct (relay_answer_span_end E w0 p tsub request m a) as [evs Hevs];
          unfold defer in Hevs
      end.
      rewrite Hevs. cbn [trace set_trace]. rewrite <- !app_assoc. cbn [app].
      eexists. split; [|done]. do 2 f_equal. rewrite !app_comm_cons. reflexivity.
    + unfold defer. exec. rewrite inject_nil. cbn beta iota.
      exists [EvSpanStart "internal request" false []].
      split; [|done]. cbn [fst trace set_trace]. by rewrite <- !app_assoc.
Qed.

Lemma generateTriggerHandler_ends_span_witness :
  ∃ evs,
    trace (generateTriggerHandler Sample.env_ok 0%nat "t.a" Sample.request
             More.bare_ping Sample.node_deployed).1
    = trace Sample.node_deployed
      ++ EvSpanStart "workload-trigger" true
           [("name", "echo"); ("namespace", "A"); ("trigger-subject", "t.a")]
         :: evs ++ [EvSpanEnd "workload-trigger"]
    ∧ (Header_of More.bare_ping = None →
       Inject Sample.env_ok (child_span Sample.env_ok) ≠ [] →
       (generateTriggerHandler Sample.env_ok 0%nat "t.a" Sample.request
          More.bare_ping Sample.node_deployed).2
       = Panic "assignment to entry in nil map"
       ∧ evs = [EvSpanStart "internal request" false []]).
Proof.
  exact (generateTriggerHandler_ends_span Sample.env_ok Sample.node_deployed 0%nat
           Sample.vm1_deployed "t.a" Sample.request More.bare_ping "echo"
           eq_refl eq_refl).
Defined.

(** ** The pool maintainer, further *)

(** X17. A pass of the maintainer that gets a VM from the driver and
    finds room in the pool warms it: the record goes behind a pointer
    that was not in use (the records of the other VMs stay as they
    are), the VM is registered under its id with a free stop lock, its
    watchdog is started, the VM counter goes up by one, and the pointer
    is queued behind those already in the pool; the loop goes on. *)
Theorem Start_round_warms E w r vm :
  stopping w = false →
  ctx_done r = false →
  created r = inl vm →
  metadata r = None →
  ch_closed (warmVMs w) = false →
  (length (ch_buf (warmVMs w)) < ch_cap (warmVMs w))%nat →
  Z.of_nat (ch_cap (warmVMs w)) = MachinePoolSize (config w) →
  let p := fresh (dom (heap w)) in
  let w' := (Start_round E r w).1 in
  (Start_round E r w).2 = Ret Again
  ∧ heap w !! p = None
  ∧ heap w' = <[p := vm]> (heap w)
  ∧ LookupMachine w' (vmmID vm) = Some p
  ∧ stopMutex w' !! vmmID vm = Some false
  ∧ ch_buf (warmVMs w') = ch_buf (warmVMs w) ++ [p]
  ∧ metrics w' = metrics w ++ [mkMeasure vmCounter 1 (merge_attrs [])]
  ∧ trace w'
    = trace w ++ [EvGo "awaitHandshake" (vmmID vm);
                  EvLog LInfo "Adding new VM to warm pool"
                    [("ip", ip vm); ("vmid", vmmID vm)]].
Proof.
  intros Hs Hc Hvm Hmd Hopen Hroom Hcap. cbn zeta.
  unfold Start_round, pool_send, chan_send, chan_len. exec.
  rewrite Hs, Hc. cbn beta iota.
  destruct (Z.eqb_spec (Z.of_nat (length (ch_buf (warmVMs w))))
              (MachinePoolSize (config w))) as [Hfull|_]; [lia|].
  rewrite Hvm, Hmd. exec.
  cbn [warmVMs set_trace set_heap set_allVMs set_stopMutex set_metrics].
  rewrite Hopen. cbn beta iota.
  destruct (Nat.ltb_spec (length (ch_buf (warmVMs w))) (ch_cap (warmVMs w)))
    as [_|?]; [|lia].
  exec. unfold LookupMachine.
  cbn [fst snd heap allVMs stopMutex warmVMs metrics trace
               set_warmVMs set_trace set_heap set_allVMs set_stopMutex set_metrics
               ch_buf].
  rewrite !lookup_insert_eq, <- !app_assoc.
  repeat split; try done.
  apply not_elem_of_dom, is_fresh.
Qed.

Lemma Start_round_warms_witness :
  LookupMachine (Start_round Sample.env_ok Sample.round1 Sample.new_node).1 "vm1"
  = Some (fresh (dom (heap Sample.new_node))).
Proof.
  exact (proj1 (proj2 (proj2 (proj2
    (Start_round_warms Sample.env_ok Sample.new_node Sample.round1 Sample.vm1
       eq_refl eq_refl eq_refl eq_refl eq_refl (le_n 1) eq_refl))))).
Defined.

(** X18. A pass of the maintainer in which the driver fails, at the
    creation of the VM or at its metadata, only logs a warning and lets
    the loop go on: nothing is registered, pooled or counted, no
    watchdog is started, and a VM that was created and whose metadata
    could not be set is not shut down. *)
Theorem Start_round_driver_failure E w r :
  stopping w = false →
  ctx_done r = false →
  chan_len (warmVMs w) ≠ MachinePoolSize (config w) →
  (∃ err, created r = inr err) ∨ (∃ err, metadata r = Some err) →
  let w' := (Start_round E r w).1 in
  (Start_round E r w).2 = Ret Again
  ∧ allVMs w' = allVMs w ∧ stopMutex w' = stopMutex w ∧ heap w' = heap w
  ∧ warmVMs w' = warmVMs w ∧ metrics w' = metrics w
  ∧ shutdowns (trace w') = shutdowns (trace w)
  ∧ ∃ text err, trace w' = trace w ++ [EvLog LWarn text [("err", Error err)]].
Proof.
  intros Hs Hc Hroom Hfail. cbn zeta. unfold Start_round. exec.
  rewrite Hs, Hc. cbn beta iota.
  destruct (Z.eqb_spec (chan_len (warmVMs w)) (MachinePoolSize (config w)))
    as [?|_]; [done|].
  destruct (created r) as [vm|err] eqn:Hvm.
  - destruct Hfail as [[err [=]]|[err Hmd]]. rewrite Hmd. exec.
    cbn [fst snd allVMs stopMutex heap warmVMs metrics trace set_trace].
    rewrite shutdowns_app. cbn. rewrite app_nil_r. repeat split; eauto.
  - exec. cbn [fst snd allVMs stopMutex heap warmVMs metrics trace set_trace].
    rewrite shutdowns_app. cbn. rewrite app_nil_r. repeat split; eauto.
Qed.

Lemma Start_round_driver_failure_witness :
  allVMs (Start_round Sample.env_ok
            (mkRound false (inl Sample.vm1) (Some (errors_New "mmds: put failed")))
            Sample.new_node).1 = allVMs Sample.new_node.
Proof.
  refine (proj1 (proj2
    (Start_round_driver_failure Sample.env_ok Sample.new_node
       (mkRound false (inl Sample.vm1) (Some (errors_New "mmds: put failed")))
       eq_refl eq_refl _ (or_intror (ex_intro _ _ eq_refl))))).
  vm_compute. discriminate.
Defined.

(** ** The shutdown of the manager, further *)

Lemma returns_bind {A B} (c : M World A) (k : A -> M World B) :
  returns c → (∀ a, returns (k a)) → returns (c ≫= k).
Proof.
  intros Hc Hk w. rewrite run_bind. destruct (Hc w) as (w1 & a & ->). apply Hk.
Qed.

Lemma returns_ret {A} (a : A) : returns (mret a).
Proof. intros w. by exists w, a. Qed.

Lemma returns_get : returns get.
Proof. intros w. by exists w, w. Qed.

Lemma returns_modify f : returns (modify f).
Proof. intros w. by exists (f w), tt. Qed.

Lemma returns_for_each {A} (xs : list A) (body : A -> M World unit) :
  (∀ x, returns (body x)) → returns (for_each xs body).
Proof.
  intros Hb. unfold for_each. apply returns_bind; [|intros _; apply returns_ret].
  induction xs as [|x xs IH]; cbn [for_range].
  - apply (returns_ret (A := option Empty_set)).
  - change (bind ?c ?k) with (c ≫= k). apply returns_bind.
    + apply returns_bind; [apply Hb|]. intros _. apply returns_ret.
    + intros [[]|]. apply IH.
Qed.

Lemma cleanSockets_returns : returns cleanSockets.
Proof.
  unfold cleanSockets. apply returns_bind; [apply returns_get|]. intros w.
  destruct (ReadDir (os w) (TempDir (os w))) as [dir err].
  apply returns_bind.
  - destruct err; [|apply returns_ret]. unfold log, emit. apply returns_modify.
  - intros _. apply returns_for_each. intros d.
    apply returns_bind; [apply returns_get|]. intros w0.
    destruct (Contains d _); [apply returns_modify|apply returns_ret].
Qed.

Lemma same_manager_refl w : same_manager w w.
Proof. by repeat split. Qed.

Ltac keep_manager :=
  intros ? (? & ? & ? & ? & ? & ? & ? & ? & ? & Hsh);
  unfold same_manager; cbn; rewrite ?shutdowns_app; cbn; rewrite ?app_nil_r;
  by repeat split.

Lemma cleanSockets_same_manager w0 : preserves (same_manager w0) cleanSockets.
Proof. unfold cleanSockets. preserve_by keep_manager. Qed.

Lemma for_each_cons {A} (x : A) xs (body : A -> M World unit) w :
  for_each (x :: xs) body w
  = match body x w with
    | (w1, Ret _) => for_each xs body w1
    | (w1, Panic why) => (w1, Panic why)
    | (w1, Blocked on) => (w1, Blocked on)
    end.
Proof.
  unfold for_each. cbn [for_range]. change (bind ?c ?k) with (c ≫= k).
  rewrite !run_bind. by destruct (body x w) as [w1 [[]| |]].
Qed.

Lemma for_each_nil {A} (body : A -> M World unit) (w : World) :
  for_each [] body w = (w, Ret tt).
Proof. reflexivity. Qed.

Lemma vmm_of_stoppable w id p vm wt vcpu mem :
  stoppable w id p vm wt vcpu mem → vmm_of w id = vmmID vm.
Proof. intros [Hp _ Hh _ _ _]. unfold vmm_of. by rewrite Hp, Hh. Qed.

(** The loop of [Stop] over VMs that can be stopped. *)
Lemma stop_loop E ids w :
  NoDup ids →
  all_stoppable w ids →
  ∃ w', for_each ids (stop_or_warn E) w = (w', Ret tt)
        ∧ (∀ k, allVMs w' !! k
                = if bool_decide (k ∈ ids) then None else allVMs w !! k)
        ∧ (∀ k, stopMutex w' !! k
                = if bool_decide (k ∈ ids) then None else stopMutex w !! k)
        ∧ closing w' = closing w ∧ config w' = config w
        ∧ warmVMs w' = warmVMs w ∧ handshakes w' = handshakes w
        ∧ heap w' = heap w ∧ os w' = os w
        ∧ shutdowns (trace w') = shutdowns (trace w) ++ map (vmm_of w) ids.
Proof.
  intros Hnd. revert w. induction Hnd as [|id ids Hin Hnd IH]; intros w Hall.
  - exists w. rewrite for_each_nil. cbn. rewrite app_nil_r. by repeat split.
  - destruct (Hall id) as (p & vm & wt & vcpu & mem & Hst); [by left|].
    rewrite for_each_cons. unfold stop_or_warn at 1. rewrite run_bind.
    rewrite (StopMachine_stopped E w id true p vm wt vcpu mem Hst).
    cbn beta iota. rewrite run_ret.
    set (w1 := stopped E id true vm wt vcpu mem w).
    assert (Hall1 : all_stoppable w1 ids).
    { intros k Hk. destruct (Hall k) as (q & vmk & wtk & vk & mk & Hk1);
        [by right|].
      assert (k ≠ id) by (by intros ->).
      exists q, vmk, wtk, vk, mk. destruct Hk1 as [? ? ? ? ? ?].
      split; try done; subst w1; cbn [stopped allVMs stopMutex heap];
        by rewrite lookup_delete_ne. }
    destruct (IH w1 Hall1)
      as (w' & -> & Ha & Hm & Hc & Hcfg & Hw & Hhs & Hh & Hos & Hsh).
    exists w'. split; [done|].
    assert (Hmap : map (vmm_of w1) ids = map (vmm_of w) ids).
    { apply map_ext_in. intros k Hk%list_elem_of_In. unfold vmm_of. subst w1.
      cbn [stopped allVMs heap]. rewrite lookup_delete_ne; [done|].
      by intros ->. }
    repeat split; try done.
    + intros k. rewrite Ha. subst w1. cbn [stopped allVMs].
      destruct (decide (k = id)) as [->|Hne].
      * rewrite lookup_delete_eq, (bool_decide_eq_true_2 (id ∈ id :: ids));
          [by destruct (bool_decide _)|by left].
      * rewrite lookup_delete_ne by done.
        destruct (decide (k ∈ ids)).
        -- rewrite !bool_decide_eq_true_2; [done|by right|done].
        -- rewrite !bool_decide_eq_false_2; [done| |done].
           by intros [?|?]%elem_of_cons.
    + intros k. rewrite Hm. subst w1. cbn [stopped stopMutex].
      destruct (decide (k = id)) as [->|Hne].
      * rewrite lookup_delete_eq, (bool_decide_eq_true_2 (id ∈ id :: ids));
          [by destruct (bool_decide _)|by left].
      * rewrite lookup_delete_ne by done.
        destruct (decide (k ∈ ids)).
        -- rewrite !bool_decide_eq_true_2; [done|by right|done].
        -- rewrite !bool_decide_eq_false_2; [done| |done].
           by intros [?|?]%elem_of_cons.
    + rewrite Hsh, Hmap. subst w1. cbn [stopped trace map].
      rewrite shutdowns_app, (proj1 (proj2 (stop_events_readings E id true _ vm))).
      rewrite (vmm_of_stoppable w id p vm wt vcpu mem Hst).
      by rewrite <- app_assoc.
Qed.

Lemma Stop_first E w :
  closing w = 0 →
  ch_closed (warmVMs w) = false →
  all_stoppable w (registered w) →
  ∃ w', Stop E w = (w', Ret None)
        ∧ closing w' = 1
        ∧ allVMs w' = ∅
        ∧ (∀ k, is_Some (allVMs w !! k) → stopMutex w' !! k = None)
        ∧ warmVMs w' = mkChan (ch_buf (warmVMs w)) (ch_cap (warmVMs w)) true
        ∧ heap w' = heap w
        ∧ shutdowns (trace w')
          = shutdowns (trace w) ++ map (vmm_of w) (registered w).
Proof.
  intros Hc Hopen Hall.
  unfold Stop, close_pool, chan_close.
  rewrite run_bind, run_modify. cbn beta iota. rewrite run_bind, run_get.
  cbn beta iota. cbn [closing set_closing allVMs]. rewrite Hc.
  change (wrapu32 (0 + 1) =? 1) with true. cbn beta iota.
  run. cbn [warmVMs set_closing set_trace]. rewrite Hopen. run.
  set (w0 := set_warmVMs _ _).
  assert (Hall0 : all_stoppable w0 (registered w)).
  { intros id Hid. destruct (Hall id Hid) as (p & vm & wt & vcpu & mem & Hst).
    exists p, vm, wt, vcpu, mem. by apply (stoppable_frame w). }
  destruct (stop_loop E (registered w) w0 (NoDup_fst_map_to_list _) Hall0)
    as (w1 & Hrun & Ha & Hm & Hcl & Hcfg & Hw & Hhs & Hh & Hos & Hsh).
  fold (registered w).
  change (for_each (registered w) _ w0)
    with (for_each (registered w) (stop_or_warn E) w0).
  rewrite Hrun. run.
  destruct (cleanSockets_returns w1) as (w2 & [] & Hclean). rewrite Hclean.
  run.
  destruct (cleanSockets_same_manager w1 w1 w2 _ Hclean (same_manager_refl w1))
    as (Hc2 & _ & Ha2 & Hw2 & _ & Hm2 & _ & Hh2 & _ & Hsh2).
  assert (Hreg : ∀ k, is_Some (allVMs w !! k) → k ∈ registered w).
  { intros k [p Hk]. unfold registered. apply list_elem_of_fmap.
    exists (k, p). split; [done|]. by apply elem_of_map_to_list. }
  exists w2. split; [done|]. repeat split.
  - rewrite Hc2, Hcl. subst w0. cbn [closing set_warmVMs set_trace set_closing].
    by rewrite Hc.
  - rewrite Ha2. apply map_eq. intros k. rewrite Ha, lookup_empty.
    destruct (bool_decide (k ∈ registered w)) eqn:Hk; [done|].
    apply bool_decide_eq_false in Hk.
    destruct (allVMs w0 !! k) as [p|] eqn:Hp; [|done].
    exfalso. apply Hk, Hreg. by exists p.
  - intros k Hk. rewrite Hm2, Hm. by rewrite bool_decide_eq_true_2 by auto.
  - by rewrite Hw2, Hw.
  - by rewrite Hh2, Hh.
  - rewrite Hsh2, Hsh. subst w0. cbn [trace set_warmVMs set_trace set_closing].
    rewrite shutdowns_app. cbn. rewrite app_nil_r. f_equal.
Qed.

(** X19. The first [Stop] of a manager whose pool is open and whose
    registered VMs can all be stopped returns nil and stops every one
    of them, each once, in the order of the walk: the hypervisors shut
    down are those of the registry, the registry and the stop locks are
    empty afterwards, the pool is closed with what it held, and the
    manager is marked stopping. *)
Theorem Stop_stops_every_VM E w :
  closing w = 0 →
  ch_closed (warmVMs w) = false →
  all_stoppable w (registered w) →
  let w' := (Stop E w).1 in
  (Stop E w).2 = Ret None
  ∧ stopping w' = true
  ∧ allVMs w' = ∅
  ∧ (∀ k, is_Some (allVMs w !! k) → stopMutex w' !! k = None)
  ∧ warmVMs w' = mkChan (ch_buf (warmVMs w)) (ch_cap (warmVMs w)) true
  ∧ heap w' = heap w
  ∧ shutdowns (trace w') = shutdowns (trace w) ++ map (vmm_of w) (registered w).
Proof.
  intros Hc Hopen Hall. cbn zeta.
  destruct (Stop_first E w Hc Hopen Hall) as (w' & -> & Hc' & H).
  cbn [fst snd]. split; [done|]. split; [|exact H].
  unfold stopping. by rewrite Hc'.
Qed.

Lemma Stop_stops_every_VM_witness :
  shutdowns (trace (Stop Sample.env_ok Sample.node).1) = ["vm1"].
Proof.
  refine (proj2 (proj2 (proj2 (proj2 (proj2 (proj2
    (Stop_stops_every_VM Sample.env_ok Sample.node eq_refl eq_refl _))))))).
  assert (Hreg : registered Sample.node = ["vm1"]) by (vm_compute; reflexivity).
  rewrite Hreg. intros id Hid. apply list_elem_of_singleton in Hid as ->.
  exists 0%nat, Sample.vm1, "v8", 1, 256. by split.
Defined.

Ltac keep_closing := intros ? Hq; cbn; exact Hq.

Lemma StopMachine_closing E c vmID undeploy :
  preserves (fun w => closing w = c) (StopMachine E vmID undeploy).
Proof.
  unfold StopMachine, mutex_Lock, mutex_Unlock, drain_one, request_undeploy.
  preserve_by keep_closing.
Qed.

Lemma Stop_closing E w :
  closing (Stop E w).1 = wrapu32 (closing w + 1).
Proof.
  destruct (Stop E w) as [w' r] eqn:Hrun. cbn [fst].
  unfold Stop in Hrun. rewrite run_bind, run_modify in Hrun. cbn beta iota in Hrun.
  revert Hrun.
  match goal with
  | |- ?c ?w0 = _ → _ =>
      intros Hrun;
      assert (Hkeep : preserves (fun w1 => closing w1 = wrapu32 (closing w + 1)) c);
        [|exact (Hkeep w0 w' r Hrun eq_refl)]
  end.
  clear Hrun. unfold close_pool, cleanSockets.
  preserve_by keep_closing; apply StopMachine_closing.
Qed.

(** X20. Once [Stop] was called the manager is stopping, however the
    call itself ended (returned, or panicked on the way), as long as the
    32-bit call counter has not wrapped: from the state it leaves, a
    pass of the pool maintainer leaves the loop without creating a VM,
    and a handshake watchdog returns at its next pass without log line
    or cancel, also past its deadline. *)
Theorem Stop_is_final E w r timeout start vmid now post :
  0 ≤ closing w < 2 ^ 32 - 1 →
  let w' := (Stop E w).1 in
  stopping w' = true
  ∧ Start_round E r w' = (w', Ret Leave)
  ∧ awaitHandshake E timeout start vmid ((now, w') :: post) = ([], Returned).
Proof.
  intros Hc. cbn zeta.
  assert (Hs : stopping (Stop E w).1 = true).
  { unfold stopping. rewrite Stop_closing. unfold wrapu32.
    rewrite Z.mod_small by lia. apply Z.gtb_lt. lia. }
  split; [done|]. split.
  - unfold Start_round. run. by rewrite Hs.
  - unfold awaitHandshake. cbn [awaitHandshake_loop]. by rewrite Hs.
Qed.

Lemma Stop_is_final_witness :
  Start_round Sample.env_ok Sample.round1 (Stop Sample.env_ok Sample.new_node).1
  = ((Stop Sample.env_ok Sample.new_node).1, Ret Leave).
Proof.
  refine (proj1 (proj2
    (Stop_is_final Sample.env_ok Sample.new_node Sample.round1 0 0 "vm1" 0 [] _))).
  cbn. lia.
Defined.

(** ** The namespace of a subject *)

Lemma Split_cons s sep : ∃ tok toks, Split s sep = tok :: toks.
Proof.
  induction s as [|c s (tok & toks & IH)]; cbn [Split]; [eauto|].
  destruct (Ascii.eqb c sep); [eauto|]. rewrite IH. eauto.
Qed.

Lemma Split_length s sep : length (Split s sep) = S (Count s sep).
Proof.
  induction s as [|c s IH]; cbn [Split Count]; [done|].
  destruct (Ascii.eqb c sep); cbn [length]; [by rewrite IH|].
  destruct (Split_cons s sep) as (tok & toks & Hs). rewrite Hs in *.
  cbn [length] in *. lia.
Qed.

Lemma Split_tokens s sep : Forall (fun tok => Count tok sep = 0%nat) (Split s sep).
Proof.
  induction s as [|c s IH]; cbn [Split].
  - by repeat constructor.
  - destruct (Ascii.eqb c sep) eqn:Hc; [by constructor|].
    destruct (Split_cons s sep) as (tok & toks & Hs). rewrite Hs in *.
    apply Forall_cons in IH as [Htok Htoks]. constructor; [|done].
    cbn [Count]. by rewrite Hc.
Qed.

Lemma Split_app tok rest sep :
  Count tok sep = 0%nat →
  Split (tok +:+ String sep rest) sep = tok :: Split rest sep.
Proof.
  intros Htok. induction tok as [|c tok IH]; cbv [String.append]; cbn [Split].
  - by rewrite Ascii.eqb_refl.
  - fold String.append. cbn [Count] in Htok.
    destruct (Ascii.eqb c sep); [done|]. cbn in Htok.
    change (String.append tok (String sep rest)) with (tok +:+ String sep rest).
    by rewrite IH.
Qed.

Lemma Split_plain tok sep : Count tok sep = 0%nat → Split tok sep = [tok].
Proof.
  induction tok as [|c tok IH]; cbn [Split Count]; [done|].
  destruct (Ascii.eqb c sep); [done|]. intros Htok. by rewrite IH.
Qed.

(** X22. [extractNamespace] refuses exactly the subjects with fewer than
    two dots, with the one error text, and otherwise returns a token
    without dot. *)
Theorem extractNamespace_needs_two_dots (subject : string) :
  ((Count subject "." < 2)%nat → extractNamespace subject = inr no_namespace)
  ∧ ((2 ≤ Count subject ".")%nat →
     ∃ ns, extractNamespace subject = inl ns ∧ Count ns "." = 0%nat).
Proof.
  unfold extractNamespace. rewrite Split_length.
  pose proof (Split_length subject ".") as Hlen.
  pose proof (Split_tokens subject ".") as Htok.
  split; intros Hn.
  - destruct (Nat.ltb_spec (S (Count subject ".")) 3); [done|lia].
  - destruct (Nat.ltb_spec (S (Count subject ".")) 3); [lia|].
    destruct (Split subject ".") as [|t0 [|t1 [|t2 toks]]]; cbn in Hlen; try lia.
    exists t2. split; [done|].
    by apply Forall_cons in Htok as [_ [_ [? _]%Forall_cons]%Forall_cons].
Qed.

Lemma extractNamespace_needs_two_dots_witness :
  extractNamespace "$NEX.STOP" = inr no_namespace.
Proof.
  apply (proj1 (extractNamespace_needs_two_dots "$NEX.STOP")). cbn. lia.
Defined.

(** X23. The namespace is read back from a subject as it was put in: on
    a subject made of a prefix, an operation and a namespace that hold no
    dot, joined by dots, with or without more tokens behind them,
    [extractNamespace] returns that namespace. *)
Theorem extractNamespace_reads_back (prefix op ns : string) :
  Count prefix "." = 0%nat →
  Count op "." = 0%nat →
  Count ns "." = 0%nat →
  extractNamespace (prefix +:+ "." +:+ op +:+ "." +:+ ns) = inl ns
  ∧ ∀ rest,
      extractNamespace (prefix +:+ "." +:+ op +:+ "." +:+ ns +:+ "." +:+ rest)
      = inl ns.
Proof.
  intros Hp Ho Hn. unfold extractNamespace.
  assert (Hdot : ∀ s, "." +:+ s = String "."%char s) by done.
  split; [|intros rest]; rewrite !Hdot, !Split_app by done.
  - by rewrite Split_plain.
  - destruct (Split_cons rest ".") as (tok & toks & ->). done.
Qed.

Lemma extractNamespace_reads_back_witness :
  extractNamespace ("$NEX" +:+ "." +:+ "STOP" +:+ "." +:+ "default" +:+ "." +:+ "NODE1")
  = inl "default".
Proof.
  apply (proj2 (extractNamespace_reads_back "$NEX" "STOP" "default"
                  eq_refl eq_refl eq_refl) "NODE1").
Defined.

(** ** Uptimes *)

(** X24. The uptime text is the exact breakdown of the whole seconds of
    the duration: for a duration that is not negative there are years,
    days below 365, hours below 24, minutes and seconds below 60 that
    add up to its whole seconds, and the text shows them from the first
    unit that is not zero on.  A negative duration is not broken down:
    its text is its whole seconds, with the sign. *)
Theorem myUptime_breakdown (d : Z) :
  (0 ≤ d →
   ∃ y dd h m s,
     0 ≤ y ∧ 0 ≤ dd < 365 ∧ 0 ≤ h < 24 ∧ 0 ≤ m < 60 ∧ 0 ≤ s < 60
     ∧ d ÷ Second = s + 60 * (m + 60 * (h + 24 * (dd + 365 * y)))
     ∧ myUptime d = uptime_text y dd h m s)
  ∧ (d < 0 → myUptime d = pretty (d ÷ Second) +:+ "s").
Proof.
  split; intros Hd.
  - assert (Hs : 0 ≤ d ÷ Second) by (apply Z.quot_pos; [lia|done]).
    set (tsecs := d ÷ Second) in *.
    assert (Hm : 0 ≤ tsecs ÷ 60) by (apply Z.quot_pos; lia).
    assert (Hh : 0 ≤ tsecs ÷ 60 ÷ 60) by (apply Z.quot_pos; lia).
    assert (Hdd : 0 ≤ tsecs ÷ 60 ÷ 60 ÷ 24) by (apply Z.quot_pos; lia).
    assert (Hy : 0 ≤ tsecs ÷ 60 ÷ 60 ÷ 24 ÷ 365) by (apply Z.quot_pos; lia).
    exists (tsecs ÷ 60 ÷ 60 ÷ 24 ÷ 365), (Z.rem (tsecs ÷ 60 ÷ 60 ÷ 24) 365),
      (Z.rem (tsecs ÷ 60 ÷ 60) 24), (Z.rem (tsecs ÷ 60) 60), (Z.rem tsecs 60).
    pose proof (Z.rem_bound_pos tsecs 60 Hs eq_refl).
    pose proof (Z.rem_bound_pos (tsecs ÷ 60) 60 Hm eq_refl).
    pose proof (Z.rem_bound_pos (tsecs ÷ 60 ÷ 60) 24 Hh eq_refl).
    pose proof (Z.rem_bound_pos (tsecs ÷ 60 ÷ 60 ÷ 24) 365 Hdd eq_refl).
    pose proof (Z.quot_rem' tsecs 60).
    pose proof (Z.quot_rem' (tsecs ÷ 60) 60).
    pose proof (Z.quot_rem' (tsecs ÷ 60 ÷ 60) 24).
    pose proof (Z.quot_rem' (tsecs ÷ 60 ÷ 60 ÷ 24) 365).
    repeat split; try lia.
    unfold myUptime, uptime_text. fold tsecs. cbv zeta.
    destruct (Z.gtb_spec (tsecs ÷ 60 ÷ 60 ÷ 24 ÷ 365) 0) as [_|Hy0]; [done|].
    assert (Hrd : Z.rem (tsecs ÷ 60 ÷ 60 ÷ 24) 365 = tsecs ÷ 60 ÷ 60 ÷ 24) by lia.
    rewrite Hrd.
    destruct (Z.gtb_spec (tsecs ÷ 60 ÷ 60 ÷ 24) 0) as [_|Hd0]; [done|].
    assert (Hrh : Z.rem (tsecs ÷ 60 ÷ 60) 24 = tsecs ÷ 60 ÷ 60) by lia.
    rewrite Hrh.
    destruct (Z.gtb_spec (tsecs ÷ 60 ÷ 60) 0) as [_|Hh0]; [done|].
    assert (Hrm : Z.rem (tsecs ÷ 60) 60 = tsecs ÷ 60) by lia.
    rewrite Hrm.
    destruct (Z.gtb_spec (tsecs ÷ 60) 0) as [_|Hm0]; [done|].
    assert (Hrs : Z.rem tsecs 60 = tsecs) by lia.
    by rewrite Hrs.
  - assert (Hs : d ÷ Second ≤ 0).
    { rewrite <- (Z.opp_involutive d), Z.quot_opp_l by done.
      assert (0 ≤ (- d) ÷ Second) by (apply Z.quot_pos; [lia|done]). lia. }
    set (tsecs := d ÷ Second) in *.
    assert (Hneg : ∀ a b, a ≤ 0 → 0 < b → a ÷ b ≤ 0).
    { intros a b Ha Hb. rewrite <- (Z.opp_involutive a), Z.quot_opp_l by lia.
      assert (0 ≤ (- a) ÷ b) by (apply Z.quot_pos; lia). lia. }
    pose proof (Hneg tsecs 60 Hs eq_refl) as Hm.
    pose proof (Hneg _ 60 Hm eq_refl) as Hh.
    pose proof (Hneg _ 24 Hh eq_refl) as Hdd.
    pose proof (Hneg _ 365 Hdd eq_refl) as Hy.
    unfold myUptime. fold tsecs. cbv zeta.
    repeat match goal with
           | |- context [?a >? 0] => destruct (Z.gtb_spec a 0); [lia|]
           end.
    done.
Qed.

Lemma myUptime_breakdown_witness :
  ∃ y dd h m s,
    0 ≤ y ∧ 0 ≤ dd < 365 ∧ 0 ≤ h < 24 ∧ 0 ≤ m < 60 ∧ 0 ≤ s < 60
    ∧ (90061 * Second) ÷ Second = s + 60 * (m + 60 * (h + 24 * (dd + 365 * y)))
    ∧ myUptime (90061 * Second) = uptime_text y dd h m s.
Proof.
  apply (proj1 (myUptime_breakdown (90061 * Second))). by vm_compute.
Defined.

(** ** Machine summaries *)

Lemma range_fold_summaries sd st ms w ns now ps acc :
  Forall (fun p => is_Some (heap w !! p)) ps →
  range_fold ps acc (fun machines p =>
    v ← load p;
    if String.eqb (namespace v) ns
    then mret (machines ++ [Api.summary sd st ms p v now])
    else mret machines) w
  = (w, Ret (acc ++ summaries sd st ms w ns now ps)).
Proof.
  intros Hps. revert acc.
  induction Hps as [|p ps [v Hv] _ IH]; intros acc; cbn [range_fold summaries flat_map].
  - by rewrite app_nil_r.
  - rewrite run_bind, run_bind, run_load, Hv. cbn beta iota.
    destruct (String.eqb (namespace v) ns); rewrite run_ret; cbn beta iota;
      rewrite IH; unfold summaries; by rewrite <- ?app_assoc.
Qed.

(** X25. The machine summaries of a namespace: on a registry whose
    pointers all lead to records, [summarizeMachines] returns, changes
    nothing, and lists exactly the registered VMs bound to the namespace
    asked for, each reported healthy; a VM of another namespace is never
    listed. *)
Theorem summarizeMachines_namespace sd st ms (w : World) (ns : string) (now : Z) :
  (∀ id p, allVMs w !! id = Some p → is_Some (heap w !! p)) →
  ∃ l, Api.summarizeMachines sd st ms ns now w = (w, Ret l)
       ∧ (∀ s, s ∈ l ↔ ∃ id p v, allVMs w !! id = Some p
                                  ∧ heap w !! p = Some v
                                  ∧ namespace v = ns
                                  ∧ s = Api.summary sd st ms p v now)
       ∧ Forall (fun s => controlapi.Healthy s = true) l.
Proof.
  intros Hvalid. unfold Api.summarizeMachines. rewrite run_bind, run_get.
  cbn beta iota. rewrite range_fold_summaries.
  2:{ apply Forall_forall. intros p Hp.
      apply list_elem_of_fmap in Hp as [[id q] [-> Hq]].
      apply elem_of_map_to_list in Hq. by apply (Hvalid id). }
  eexists. split; [reflexivity|]. cbn [app]. unfold summaries. split.
  - intros s. rewrite list_elem_of_In, in_flat_map. split.
    + intros (p & Hp%list_elem_of_In & Hs).
      apply list_elem_of_fmap in Hp as [[id q] [-> Hq]].
      apply elem_of_map_to_list in Hq. cbn [snd] in Hs.
      destruct (heap w !! q) as [v|] eqn:Hv; [|destruct Hs].
      destruct (String.eqb_spec (namespace v) ns) as [Hns|_]; [|destruct Hs].
      destruct Hs as [<-|[]]. by exists id, q, v.
    + intros (id & p & v & Hp & Hv & Hns & ->). exists p. split.
      * apply list_elem_of_In, list_elem_of_fmap. exists (id, p).
        split; [done|]. by apply elem_of_map_to_list.
      * rewrite Hv. subst ns. rewrite String.eqb_refl. by left.
  - apply Forall_forall. intros s (p & _ & Hs)%list_elem_of_In%in_flat_map.
    destruct (heap w !! p) as [v|]; [|destruct Hs].
    destruct (String.eqb (namespace v) ns); [|destruct Hs].
    by destruct Hs as [<-|[]].
Qed.

Lemma summarizeMachines_namespace_witness :
  ∃ l, Api.summarizeMachines (fun _ => None) (fun _ => Some "v8") (fun _ => 0)
         "B" (5 * Second) Sample.node_deployed
       = (Sample.node_deployed, Ret l)
       ∧ (∀ s, s ∈ l ↔ ∃ id p v, allVMs Sample.node_deployed !! id = Some p
                                  ∧ heap Sample.node_deployed !! p = Some v
                                  ∧ namespace v = "B"
                                  ∧ s = Api.summary (fun _ => None)
                                          (fun _ => Some "v8") (fun _ => 0) p v
                                          (5 * Second))
       ∧ Forall (fun s => controlapi.Healthy s = true) l.
Proof.
  apply (summarizeMachines_namespace (fun _ => None) (fun _ => Some "v8")
           (fun _ => 0) Sample.node_deployed "B" (5 * Second)).
  intros id p Hp.
  destruct (decide (id = "vm1")) as [->|Hne].
  - injection Hp as <-. by eexists.
  - exfalso. revert Hp.
    change (allVMs Sample.node_deployed) with ({[ "vm1" := 0%nat ]} : gmap string nat).
    by rewrite lookup_singleton_ne.
Defined.

(** ** The stop handler, further *)

(** X26. A stop request that the handler refuses before it reaches the
    manager (a subject without namespace, a body that does not decode, a
    request that fails validation against the claims of the VM) is
    answered with one failure envelope that names the reason, and
    nothing else happens: the stop function is not called, whatever it
    is, and the manager is as before but for the log. *)
Theorem handleStop_refusals E (stop : string -> M World (option error)) w m :
  let refused reason :=
    ∃ evs, handleStop E stop m w = (set_trace (fun t => t ++ evs) w, Ret tt)
           ∧ envelopes evs = [(m, stop_failure E reason)] in
  (∀ err, extractNamespace (Subject m) = inr err →
     refused "Invalid subject for workload stop")
  ∧ (∀ ns err, extractNamespace (Subject m) = inl ns →
       json_Unmarshal_StopRequest E (Data m) = inr err →
       refused ("Unable to deserialize stop request: " +:+ Error err))
  ∧ (∀ ns request p vm err,
       extractNamespace (Subject m) = inl ns →
       json_Unmarshal_StopRequest E (Data m) = inl request →
       allVMs w !! WorkloadId request = Some p →
       heap w !! p = Some vm →
       namespace vm = ns →
       StopRequest_Validate E request (DecodedClaims vm) = Some err →
       refused ("Invalid stop request: " +:+ Error err)).
Proof.
  cbn zeta. unfold handleStop, LookupMachine, respondFail, stop_failure.
  repeat split.
  - intros err ->. run. rewrite set_trace_app. eauto.
  - intros ns err -> ->. run. rewrite set_trace_app. eauto.
  - intros ns request p vm err -> -> Hp Hvm Hns Hval. run.
    rewrite Hp. run. rewrite Hvm. run. rewrite Hns, String.eqb_refl.
    cbn [negb]. rewrite Hval. run. rewrite set_trace_app. eauto.
Qed.

Lemma handleStop_refusals_witness :
  ∃ evs, handleStop Sample.env_ok (fun id => StopMachine Sample.env_ok id true)
           (mkMsg "$NEX.STOP" "_INBOX.2" None (Sample.bytes "{}"))
           Sample.node_deployed
         = (set_trace (fun t => t ++ evs) Sample.node_deployed, Ret tt)
         ∧ envelopes evs
           = [(mkMsg "$NEX.STOP" "_INBOX.2" None (Sample.bytes "{}"),
               stop_failure Sample.env_ok "Invalid subject for workload stop")].
Proof.
  exact (proj1 (handleStop_refusals Sample.env_ok
                  (fun id => StopMachine Sample.env_ok id true)
                  Sample.node_deployed
                  (mkMsg "$NEX.STOP" "_INBOX.2" None (Sample.bytes "{}")))
           no_namespace eq_refl).
Defined.

(** X27. A stop request for a VM of the namespace that passes
    validation.  With the manager's [StopMachine] and a VM that can be
    stopped, the VM is stopped with undeploy and one envelope goes out,
    which reports it stopped under the name and issuer of its claims.
    When the stop function returns an error, the handler sends the
    failure envelope with the error and then, all the same, the
    envelope that reports the VM stopped. *)
Theorem handleStop_answers E w m ns request p vm :
  extractNamespace (Subject m) = inl ns →
  json_Unmarshal_StopRequest E (Data m) = inl request →
  allVMs w !! WorkloadId request = Some p →
  heap w !! p = Some vm →
  namespace vm = ns →
  StopRequest_Validate E request (DecodedClaims vm) = None →
  (∀ wt vcpu mem,
     stoppable w (WorkloadId request) p vm wt vcpu mem →
     let w' := (handleStop E (fun id => StopMachine E id true) m w).1 in
     (handleStop E (fun id => StopMachine E id true) m w).2 = Ret tt
     ∧ allVMs w' !! WorkloadId request = None
     ∧ shutdowns (trace w') = shutdowns (trace w) ++ [vmmID vm]
     ∧ envelopes (trace w') = envelopes (trace w) ++ [(m, stop_success E vm)])
  ∧ (∀ (stop : string -> M World (option error)) w1 e,
       stop (WorkloadId request) w = (w1, Ret (Some e)) →
       heap w1 !! p = Some vm →
       let w' := (handleStop E stop m w).1 in
       (handleStop E stop m w).2 = Ret tt
       ∧ envelopes (trace w')
         = envelopes (trace w1)
           ++ [(m, stop_failure E ("Failed to stop workload: " +:+ Error e));
               (m, stop_success E vm)]).
Proof.
  intros Hns Hreq Hp Hvm Hnsv Hval. split.
  - intros wt vcpu mem Hst. cbn zeta.
    unfold handleStop, LookupMachine, respondFail. rewrite Hns, Hreq. run.
    rewrite Hp. run. rewrite Hvm. run. rewrite Hnsv, String.eqb_refl.
    cbn [negb]. rewrite Hval. run.
    rewrite (StopMachine_stopped E w (WorkloadId request) true p vm wt vcpu mem Hst).
    run. cbn [heap stopped]. rewrite Hvm. run.
    cbn [fst snd allVMs trace set_trace stopped].
    rewrite !shutdowns_app, !envelopes_app.
    destruct (stop_events_readings E (WorkloadId request) true
                (default [] (vmsubz w !! WorkloadId request)) vm) as (_ & -> & _).
    rewrite stop_events_envelopes. cbn. rewrite !app_nil_r.
    repeat split; try done. apply lookup_delete_eq.
  - intros stop w1 e Hstop Hvm1. cbn zeta.
    unfold handleStop, LookupMachine, respondFail. rewrite Hns, Hreq. run.
    rewrite Hp. run. rewrite Hvm. run. rewrite Hnsv, String.eqb_refl.
    cbn [negb]. rewrite Hval. run. rewrite Hstop. run.
    cbn [heap set_trace]. rewrite Hvm1. run.
    cbn [fst snd trace set_trace]. by rewrite <- !app_assoc, !envelopes_app.
Qed.

Lemma handleStop_answers_witness :
  envelopes (trace (handleStop Sample.env_ok
                      (fun id => StopMachine Sample.env_ok id true)
                      (mkMsg "$NEX.STOP.A.NODE1" "_INBOX.2" None (Sample.bytes "{}"))
                      Sample.node_deployed).1)
  = [(mkMsg "$NEX.STOP.A.NODE1" "_INBOX.2" None (Sample.bytes "{}"),
      stop_success Sample.env_ok Sample.vm1_deployed)].
Proof.
  refine (proj2 (proj2 (proj2 (proj1
    (handleStop_answers Sample.env_ok Sample.node_deployed
       (mkMsg "$NEX.STOP.A.NODE1" "_INBOX.2" None (Sample.bytes "{}"))
       "A" (mkStopRequest "vm1") 0%nat Sample.vm1_deployed
       eq_refl eq_refl eq_refl eq_refl eq_refl eq_refl) "v8" 1 256 _)))).
  split; try done. by intros req [= <-].
Defined.

(** ** The run handler and the subscriptions of the listener *)

Section RunHandler.

Context (api_config : NodeConfiguration) (RunResponseType : string).
Context (json_Unmarshal_RunRequest : Bytes -> controlapi.RunRequest + error)
  (RunRequest_Validate : controlapi.RunRequest -> Claims + error)
  (json_Marshal_RunEnvelope : string -> controlapi.RunResponse -> Bytes + error)
  (EqualFold : string -> string -> bool).
Context (mgr_CacheWorkload : controlapi.RunRequest -> M World (option error))
  (mgr_TakeFromPool : M World (nat + error))
  (mgr_DeployWorkload :
     nat -> string -> string -> controlapi.RunRequest -> M World (option error)).

Local Abbreviation handleRun :=
  (Api.handleRun api_config RunResponseType json_Unmarshal_RunRequest
     RunRequest_Validate json_Marshal_RunEnvelope EqualFold
     mgr_CacheWorkload mgr_TakeFromPool mgr_DeployWorkload).

(** X28. The workload type gates the run handler before anything else
    is looked at.  A type that the node does not list, and a type other
    than [v8] and [wasm] on a request with trigger subjects, are answered
    with one failure envelope that names the type, and nothing else
    happens: the claims are not validated, nothing is cached, no VM is
    taken from the pool.  A request without workload type makes the
    handler panic on the nil pointer. *)
Theorem handleRun_type_gates (w : World) (m : Msg) (ns : string)
    (request : controlapi.RunRequest) :
  extractNamespace (Subject m) = inl ns →
  json_Unmarshal_RunRequest (Data m) = inl request →
  let refused reason :=
    ∃ evs, handleRun m w = (set_trace (fun t => t ++ evs) w, Ret tt)
           ∧ envelopes evs = [(m, run_failure RunResponseType reason)] in
  (controlapi.WorkloadType request = None →
   handleRun m w = (w, Panic nil_dereference))
  ∧ (∀ wt, controlapi.WorkloadType request = Some wt →
       slices_Contains (WorkloadTypes api_config) wt = false →
       refused ("Unsupported workload type on this node: " +:+ wt))
  ∧ (∀ wt, controlapi.WorkloadType request = Some wt →
       slices_Contains (WorkloadTypes api_config) wt = true →
       controlapi.TriggerSubjects request ≠ [] →
       EqualFold wt "v8" = false →
       EqualFold wt "wasm" = false →
       refused ("Unsupported workload type for trigger subject registration: "
                +:+ wt)).
Proof.
  intros Hns Hreq. cbn zeta.
  unfold Api.handleRun, respondFail, run_failure. rewrite Hns, Hreq.
  repeat split.
  - intros ->. by run.
  - intros wt -> Hc. run. rewrite Hc. cbn [negb]. run.
    rewrite set_trace_app. eauto.
  - intros wt -> Hc Hsubs Hv8 Hwasm. run. rewrite Hc, Hv8, Hwasm. cbn [negb].
    destruct (controlapi.TriggerSubjects request); [done|]. cbn. run.
    rewrite set_trace_app. eauto.
Qed.

(** X29. The issuer allow-list does not stop a run.  For a request that
    passes the type gates and whose claims validate, with an issuer
    outside the allow-list, the handler logs and sends the
    invalid-issuer failure envelope and goes on as for any other
    request: the workload is cached, a VM is taken from the pool, the
    workload is deployed to it, and the reply that reports it started is
    sent. *)
Theorem handleRun_issuer_not_enforced (w : World) (m : Msg) (ns wt : string)
    (request : controlapi.RunRequest) (claims : Claims) (w1 w2 w3 : World)
    (p : nat) (vm vm' : runningFirecracker) (raw : Bytes) :
  extractNamespace (Subject m) = inl ns →
  json_Unmarshal_RunRequest (Data m) = inl request →
  controlapi.WorkloadType request = Some wt →
  slices_Contains (WorkloadTypes api_config) wt = true →
  controlapi.TriggerSubjects request = [] ∨ EqualFold wt "v8" = true
    ∨ EqualFold wt "wasm" = true →
  RunRequest_Validate request = inl claims →
  validateIssuer (claims_Issuer claims) (ValidIssuers (config w)) = false →
  let request' := Api.set_DecodedClaims claims request in
  let name := claims_Subject claims in
  mgr_CacheWorkload request'
    (set_trace (fun t => t ++ issuer_refusal RunResponseType m (claims_Issuer claims)) w)
  = (w1, Ret None) →
  mgr_TakeFromPool w1 = (w2, Ret (inl p)) →
  heap w2 !! p = Some vm →
  mgr_DeployWorkload p name ns request'
    (set_trace (fun t => t ++ [EvLog LInfo "Submitting workload to VM"
                                 [("vmid", vmmID vm); ("namespace", ns);
                                  ("workload", name); ("type", wt)]]) w2)
  = (w3, Ret None) →
  heap w3 !! p = Some vm' →
  json_Marshal_RunEnvelope RunResponseType
    (controlapi.mkRunResponse true name (claims_Issuer (DecodedClaims vm')) (vmmID vm'))
  = inl raw →
  envelopes (issuer_refusal RunResponseType m (claims_Issuer claims))
  = [(m, run_failure RunResponseType (invalid_issuer (claims_Issuer claims)))]
  ∧ ∃ evs, handleRun m w = (set_trace (fun t => t ++ evs) w3, Ret tt)
           ∧ replies evs = [(m, raw)].
Proof.
  intros Hns Hreq Hwt Hc Hgate Hval Hiss request' name Hcache Htake Hvm Hdep
    Hvm' Hraw.
  split; [done|]. subst request' name.
  unfold issuer_refusal, run_failure, invalid_issuer, Api.set_DecodedClaims in *.
  unfold Api.handleRun. rewrite Hns, Hreq, Hwt. run. rewrite Hc. cbn [negb].
  assert (Hg : ((0 <? length (controlapi.TriggerSubjects request))%nat
                && (negb (EqualFold wt "v8") && negb (EqualFold wt "wasm")))
               = false).
  { destruct Hgate as [->|[->| ->]]; [done|by rewrite andb_false_r|].
    by rewrite !andb_false_r. }
  rewrite Hg, Hval.
  unfold Api.check_issuer, Api.set_DecodedClaims, respondFail. run.
  cbn [controlapi.DecodedClaims]. rewrite Hiss. cbn [negb].
  run. rewrite set_trace_app. cbn [app Error errors_New].
  rewrite Hcache. run. rewrite Htake. run.
  unfold Api.submit. cbn [controlapi.DecodedClaims]. run.
  rewrite Hvm. run. rewrite Hdep. run.
  cbn [heap set_trace]. rewrite Hvm'. run. rewrite Hraw. run.
  rewrite set_trace_app. eauto.
Qed.

End RunHandler.

Lemma handleRun_type_gates_witness :
  ∃ evs, Api.handleRun (mkConfig 1 false [] ["wasm"]) "io.nats.nex.v1.run_response"
           (fun _ => inl More.run_request) (fun _ => inl More.run_claims)
           More.run_raw String.eqb More.cache More.take More.deploy
           More.run_msg More.node_strict
         = (set_trace (fun t => t ++ evs) More.node_strict, Ret tt)
         ∧ envelopes evs
           = [(More.run_msg,
               run_failure "io.nats.nex.v1.run_response"
                 ("Unsupported workload type on this node: " +:+ "v8"))].
Proof.
  exact (proj1 (proj2
    (handleRun_type_gates (mkConfig 1 false [] ["wasm"]) "io.nats.nex.v1.run_response"
       (fun _ => inl More.run_request) (fun _ => inl More.run_claims)
       More.run_raw String.eqb More.cache More.take More.deploy
       More.node_strict More.run_msg "default" More.run_request eq_refl eq_refl))
    "v8" eq_refl eq_refl).
Defined.

Lemma handleRun_issuer_not_enforced_witness :
  validateIssuer "issuerB" (ValidIssuers (config More.node_strict)) = false
  ∧ ∃ w3 evs,
      Api.handleRun (mkConfig 1 false ["issuerA"] ["v8"]) "io.nats.nex.v1.run_response"
        (fun _ => inl More.run_request) (fun _ => inl More.run_claims)
        More.run_raw String.eqb More.cache More.take More.deploy
        More.run_msg More.node_strict
      = (set_trace (fun t => t ++ evs) w3, Ret tt)
      ∧ replies evs = [(More.run_msg, Sample.bytes "vm1")].
Proof.
  split; [reflexivity|].
  eexists.
  refine (proj2
    (handleRun_issuer_not_enforced (mkConfig 1 false ["issuerA"] ["v8"])
       "io.nats.nex.v1.run_response"
       (fun _ => inl More.run_request) (fun _ => inl More.run_claims)
       More.run_raw String.eqb More.cache More.take More.deploy
       More.node_strict More.run_msg "default" "v8" More.run_request More.run_claims
       _ _ _ 0%nat Sample.vm1 Sample.vm1 (Sample.bytes "vm1")
       eq_refl eq_refl eq_refl eq_refl (or_introl eq_refl) eq_refl eq_refl
       eq_refl eq_refl eq_refl eq_refl eq_refl eq_refl)).
Defined.

Lemma subscribe_or_log_run E nodeId subject what w :
  Api.subscribe_or_log E nodeId subject what w
  = (set_trace (fun t => t ++ subscription_events E nodeId subject what) w, Ret tt).
Proof.
  unfold Api.subscribe_or_log, subscription_events. run.
  destruct (Subscribe E nc subject); run; [by rewrite set_trace_app|done].
Qed.

Lemma subscription_events_subscriptions E nodeId subject what :
  subscriptions (subscription_events E nodeId subject what) = [(nc, subject)].
Proof. unfold subscription_events. by destruct (Subscribe E nc subject). Qed.

(** X30. [Start] of the listener returns nil whatever the bus answers:
    it asks for its five subscriptions in order (ping, ping of the node,
    and info, run and stop of the node under any namespace), logs one
    error line for each one that fails, with the error, and goes on to
    the next; its last line reports that the engine awaits commands. *)
Theorem Api_Start_subscribes (E : Env) (nodeId APIPrefix VERSION : string)
    (w : World) :
  let w' := (Api.Start E nodeId APIPrefix VERSION w).1 in
  (Api.Start E nodeId APIPrefix VERSION w).2 = Ret None
  ∧ trace w'
    = trace w
      ++ subscription_events E nodeId (APIPrefix +:+ ".PING") "ping subject"
      ++ subscription_events E nodeId (APIPrefix +:+ ".PING." +:+ nodeId)
           "node-specific ping subject"
      ++ subscription_events E nodeId (APIPrefix +:+ ".INFO.*." +:+ nodeId)
           "info subject"
      ++ subscription_events E nodeId (APIPrefix +:+ ".RUN.*." +:+ nodeId)
           "run subject"
      ++ subscription_events E nodeId (APIPrefix +:+ ".STOP.*." +:+ nodeId)
           "stop subject"
      ++ [EvLog LInfo "NATS execution engine awaiting commands"
            [("id", nodeId); ("version", VERSION)]]
  ∧ subscriptions (trace w')
    = subscriptions (trace w)
      ++ [(nc, APIPrefix +:+ ".PING");
          (nc, APIPrefix +:+ ".PING." +:+ nodeId);
          (nc, APIPrefix +:+ ".INFO.*." +:+ nodeId);
          (nc, APIPrefix +:+ ".RUN.*." +:+ nodeId);
          (nc, APIPrefix +:+ ".STOP.*." +:+ nodeId)].
Proof.
  cbn zeta. unfold Api.Start.
  repeat (rewrite run_bind, subscribe_or_log_run; cbn beta iota).
  run. rewrite !set_trace_app. cbn [fst snd trace set_trace].
  split; [done|]. split; [done|].
  by rewrite !subscriptions_app, !subscription_events_subscriptions.
Qed.
